(** * XHtrace: the probing engine of [traceroute.py]

    A shallow embedding of the packet codec, the hop discovery strategies,
    the [traceroute] entry point and the [mtr] aggregator, with the
    properties of the design document checked against them.

    Conventions of the embedding.
    - Python [int] is [Z]; [bytes] is [list byte]; [str] is [string]
      (a literal that is not ASCII is kept as its UTF-8 bytes).
    - Python [float] is an exact rational [Q]; [float('inf')] is written
      out where the source uses it.  Equations between floats are stated
      with [==].  The one place where the source truncates a float,
      [int((ttl / max_hops) * 100)], is computed on IEEE doubles, since the
      rounding decides the result there.
    - A generator is the finite list of the tuples it yields, together
      with the way it ends (normal return or a raised exception).  The
      body of a Python generator runs when it is iterated, so this is what
      a caller sees who iterates it to its end; a consumer that stops
      early sees a prefix.
    - The network, the clock, the random generator and the resolver are
      inputs of the functions that use them. *)

From Stdlib Require Import ZArith QArith Qround Qminmax Bool List Lia.
From Stdlib Require Import Strings.Byte.
From Stdlib Require PrimFloat FloatOps SpecFloat Uint63.
From stdpp Require Import gmap strings list sorting pretty.
Import ListNotations.

Local Open Scope Z_scope.

(** ** Bytes and [struct.pack] *)

Definition Z_of_byte (b : byte) : Z := Z.of_N (Byte.to_N b).

Definition byte_of_Z (z : Z) : byte :=
  match Byte.of_N (Z.to_N (z mod 256)) with
  | Some b => b
  | None => x00
  end.

(** The [n] low-order bytes of [v], most significant first (network order). *)
Fixpoint be_bytes (n : nat) (v : Z) : list byte :=
  match n with
  | O => []
  | S k => byte_of_Z (Z.shiftr v (8 * Z.of_nat k)) :: be_bytes k v
  end.

(** The integer codes of a [struct] format string used by the source:
    [B] one byte, [H] two bytes, [I] four bytes, all unsigned. *)
Inductive fmt_code := fmt_B | fmt_H | fmt_I.

Definition fmt_width (c : fmt_code) : nat :=
  match c with fmt_B => 1 | fmt_H => 2 | fmt_I => 4 end%nat.

(** One field of [struct.pack('!...')]: [None] stands for [struct.error],
    which [struct.pack] raises when the value does not fit the field. *)
Definition pack_field (c : fmt_code) (v : Z) : option (list byte) :=
  if (0 <=? v) && (v <? 2 ^ (8 * Z.of_nat (fmt_width c)))
  then Some (be_bytes (fmt_width c) v)
  else None.

Fixpoint struct_pack (fields : list (fmt_code * Z)) : option (list byte) :=
  match fields with
  | [] => Some []
  | (c, v) :: rest =>
      match pack_field c v, struct_pack rest with
      | Some b, Some bs => Some (b ++ bs)
      | _, _ => None
      end
  end.

(** [struct.pack('!d', time.time())]: the eight bytes of the IEEE-754
    pattern [now] of the clock reading. *)
Definition pack_double (now : Z) : list byte := be_bytes 8 (now mod 2 ^ 64).

(** [bytes([random.randint(0, 255) for _ in range(n)])]: [rnd i] is the
    [i]-th draw of the generator. *)
Definition random_bytes (rnd : nat -> byte) (n : Z) : list byte :=
  map rnd (seq 0 (Z.to_nat n)).

Definition len {A} (l : list A) : Z := Z.of_nat (length l).

(** ** Packet codec *)

Fixpoint words16 (data : list byte) : list Z :=
  match data with
  | hi :: lo :: rest => (Z.shiftl (Z_of_byte hi) 8 + Z_of_byte lo) :: words16 rest
  | _ => []
  end.

(** [calculate_checksum]: pad to even length, add the big-endian words,
    add the high half to the low half once, complement and mask. *)
Definition calculate_checksum (data : list byte) : Z :=
  let data := if negb (len data mod 2 =? 0) then data ++ [x00] else data in
  let checksum := fold_left (fun checksum w => checksum + w) (words16 data) 0 in
  let checksum := Z.shiftr checksum 16 + Z.land checksum 0xffff in
  Z.land (Z.lnot checksum) 0xffff.

Definition create_icmp_packet (now : Z) (rnd : nat -> byte)
    (packet_id sequence packet_size : Z) : option (list byte) :=
  header ← struct_pack [(fmt_B, 8); (fmt_B, 0); (fmt_H, 0);
                         (fmt_H, packet_id); (fmt_H, sequence)];
  let timestamp := pack_double now in
  let padding_size := Z.max 0 (packet_size - len header - len timestamp) in
  let padding := random_bytes rnd padding_size in
  let data := timestamp ++ padding in
  let checksum := calculate_checksum (header ++ data) in
  header ← struct_pack [(fmt_B, 8); (fmt_B, 0); (fmt_H, checksum);
                         (fmt_H, packet_id); (fmt_H, sequence)];
  Some (header ++ data).

(** [create_icmpv6_packet]: the format string is ['!BBHH'] and
    [packet_id] is not among the packed values. *)
Definition create_icmpv6_packet (now : Z) (rnd : nat -> byte)
    (packet_id sequence packet_size : Z) : option (list byte) :=
  let checksum := 0 in
  header ← struct_pack [(fmt_B, 128); (fmt_B, 0); (fmt_H, checksum);
                         (fmt_H, sequence)];
  let timestamp := pack_double now in
  let padding_size := Z.max 0 (packet_size - len header - len timestamp) in
  let padding := random_bytes rnd padding_size in
  let data := timestamp ++ padding in
  header ← struct_pack [(fmt_B, 128); (fmt_B, 0); (fmt_H, 0); (fmt_H, sequence)];
  Some (header ++ data).

Definition create_udp_packet (now : Z) (rnd : nat -> byte)
    (packet_id port packet_size : Z) : option (list byte) :=
  packet_id_bytes ← struct_pack [(fmt_I, packet_id)];
  let timestamp := pack_double now in
  let data_size := packet_size - 8 in
  let padding_size := Z.max 0 (data_size - len packet_id_bytes - len timestamp) in
  let padding := random_bytes rnd padding_size in
  let data := packet_id_bytes ++ timestamp ++ padding in
  udp_header ← struct_pack [(fmt_H, packet_id); (fmt_H, port);
                             (fmt_H, len data + 8); (fmt_H, 0)];
  Some (udp_header ++ data).

(** The checksum of the design document, section 4.1, written from its
    words: the sum of the 16-bit words, folded until it fits 16 bits
    (every carry out of the low half is added back), then complemented. *)
Definition fold_once (s : Z) : Z := Z.shiftr s 16 + Z.land s 0xffff.

Fixpoint fold_to_16 (fuel : nat) (s : Z) : Z :=
  match fuel with
  | O => s
  | S f => if s <? 0x10000 then s else fold_to_16 f (fold_once s)
  end.

Definition word_sum (data : list byte) : Z :=
  let data := if negb (len data mod 2 =? 0) then data ++ [x00] else data in
  fold_left Z.add (words16 data) 0.

Definition ones_complement_checksum (data : list byte) : Z :=
  let s := word_sum data in
  0xffff - fold_to_16 (Z.to_nat s) s.

(** ** Values shared by the discovery strategies *)

(** A value that is either [None] or a [str] (the [ip] and [hostname]
    locals of the [tracert] parser). *)
Inductive py_str :=
| PyNone
| PyStr (s : string).

Global Instance py_str_eq_dec : EqDecision py_str.
Proof. solve_decision. Defined.

Global Instance py_str_countable : Countable py_str.
Proof.
  refine (inj_countable'
            (fun v => match v with PyNone => None | PyStr s => Some s end)
            (fun o => match o with None => PyNone | Some s => PyStr s end) _).
  intros []; reflexivity.
Defined.

(** The [hop_info] dictionary; a key that is absent is [None]. *)
Record hop_info := HopInfo {
  hop : option Z;
  ip : option py_str;
  hostname : option string;
  delay : option string;
  ttl_key : option Z;
  raw_data : option string;
  warning : option string;
  error : option string
}.

(** [{'error': msg}] *)
Definition error_info (msg : string) : hop_info :=
  {| hop := None; ip := None; hostname := None; delay := None;
     ttl_key := None; raw_data := None; warning := None; error := Some msg |}.

(** One element of a discovery generator: [(hop_info, progress, is_destination)]. *)
Definition yield_item : Type := hop_info * Q * bool.

Inductive py_exn :=
| ValueError (msg : string)
| TracerouteError (msg : string).

Definition ERROR_UNSUPPORTED_PROTOCOL (p : string) : string :=
  "Unsupported protocol: " +:+ p.
Definition ERROR_INVALID_HOPS (h : Z) : string :=
  "Hops must be between 1 and 255: " +:+ pretty h.
Definition ERROR_ADDRESS_RESOLUTION (e : string) : string :=
  "Could not resolve target: " +:+ e.

(** [float(z)] for an [int] that a double holds exactly (below 2^53 in
    absolute value, as every hop number is). *)
Definition float_of_int (z : Z) : PrimFloat.float :=
  if z <? 0 then PrimFloat.opp (PrimFloat.of_uint63 (Uint63.of_Z (- z)))
  else PrimFloat.of_uint63 (Uint63.of_Z z).

(** [int(x)] on a finite float: truncation towards zero. *)
Definition py_int (x : PrimFloat.float) : Z :=
  match FloatOps.Prim2SF x with
  | SpecFloat.S754_finite sign m e =>
      let v := if 0 <=? e then Z.pos m * 2 ^ e else Z.pos m / 2 ^ (- e) in
      if sign then - v else v
  | _ => 0
  end.

(** [int((ttl / max_hops) * 100)], the progress of a loop record: the
    quotient and the product are rounded as doubles before [int]
    truncates, so that 29 of 50 gives 57, not 58. *)
Definition loop_percent (ttl max_hops : Z) : Z :=
  py_int (PrimFloat.mul
            (PrimFloat.div (float_of_int ttl) (float_of_int max_hops))
            (float_of_int 100)).

(** [a / b] on two [int]s. *)
Definition true_div (a b : Z) : Q := (inject_Z a / inject_Z b)%Q.

(** ** The raw-socket strategies

    [_icmp_traceroute], [_icmpv6_traceroute] and [_udp_traceroute] have the
    same body up to the socket family, the packet builder, the reverse
    lookup and the prefix of the error text. *)

Inductive strategy := ICMPv4 | ICMPv6 | UDPv4.

(** What one pass of the retry loop does: the packet is built and
    [send_receive_packet] returns [(None, None, None)] or an answer, or an
    exception leaves the body of the [try] block ([struct.error] from the
    packet builder, [TracerouteError] on EPERM). *)
Inductive probe_outcome :=
| no_response
| response (addr : string) (delay_ms : Q) (icmp_type : option Z)
| probe_raises (e : string).

(** The network as one run sees it. *)
Record net_env := NetEnv {
  open_socket : option string;            (* [Some e]: [socket.socket] raises [e] *)
  set_hop_limit : Z -> option string;     (* [Some e]: [setsockopt] raises [e] (ICMPv6 loop) *)
  send_receive_packet : Z -> nat -> probe_outcome;   (* by [ttl] and [attempt] *)
  reverse_lookup : string -> option string (* [None]: the lookup raises *)
}.

Definition strategy_error_text (s : strategy) (e : string) : string :=
  match s with
  | ICMPv4 => "ICMP追踪失败: " +:+ e
  | ICMPv6 => "ICMPv6追踪失败: " +:+ e
  | UDPv4 => "UDP追踪失败: " +:+ e
  end.

(** [for attempt in range(max_retries)]: the first attempt whose [addr] is
    truthy ends the loop. *)
Fixpoint retry_loop (probe : nat -> probe_outcome) (remaining attempt : nat)
  : string + option (string * Q) :=
  match remaining with
  | O => inr None
  | S remaining' =>
      match probe attempt with
      | probe_raises e => inl e
      | no_response => retry_loop probe remaining' (S attempt)
      | response addr d _ =>
          if bool_decide (addr = "") then retry_loop probe remaining' (S attempt)
          else inr (Some (addr, d))
      end
  end.

Section Discovery.

(** [f'{x:.2f}'] and [f'{x:.1f}'] as [format_float 2] and [format_float 1]. *)
Variable format_float : nat -> Q -> string.

Definition timeout_info (ttl : Z) : hop_info :=
  {| hop := Some ttl; ip := Some (PyStr "*"); hostname := Some "";
     delay := Some "超时";
     ttl_key := None; raw_data := None; warning := None; error := None |}.

Definition reply_info (env : net_env) (resolve_dns : bool) (ttl : Z)
    (hop_ip : string) (best_delay : Q) : hop_info :=
  {| hop := Some ttl; ip := Some (PyStr hop_ip);
     hostname := Some (if resolve_dns
                       then match reverse_lookup env hop_ip with
                            | Some name => name
                            | None => hop_ip
                            end
                       else hop_ip);
     delay := Some (format_float 2 best_delay +:+ "ms");
     ttl_key := None; raw_data := None; warning := None; error := None |}.

Definition with_warning (w : string) (h : hop_info) : hop_info :=
  {| hop := hop h; ip := ip h; hostname := hostname h; delay := delay h;
     ttl_key := ttl_key h; raw_data := raw_data h;
     warning := Some w; error := error h |}.

(** The body of [for ttl in range(1, max_hops + 1)], [remaining] iterations
    from [ttl] on.  The result is the list of tuples yielded from here to
    the end of the generator, and the value of [visited_ips] at that end. *)
Fixpoint hop_loop (s : strategy) (env : net_env) (target_ip : string)
    (max_hops max_retries : Z) (resolve_dns : bool)
    (remaining : nat) (ttl : Z) (visited_ips : gset string)
  : list yield_item * gset string :=
  match remaining with
  | O => ([], visited_ips)
  | S remaining' =>
      match (match s with ICMPv6 => set_hop_limit env ttl | _ => None end) with
      | Some e => ([(error_info (strategy_error_text s e), 0%Q, false)], visited_ips)
      | None =>
      match retry_loop (send_receive_packet env ttl) (Z.to_nat max_retries) 0 with
      | inl e => ([(error_info (strategy_error_text s e), 0%Q, false)], visited_ips)
      | inr (Some (hop_ip, best_delay)) =>
          let info := reply_info env resolve_dns ttl hop_ip best_delay in
          if bool_decide (hop_ip ∈ visited_ips) then
            ([(with_warning "检测到循环路由" info,
               inject_Z (loop_percent ttl max_hops), false)],
             visited_ips)
          else
            let visited_ips := {[hop_ip]} ∪ visited_ips in
            let is_destination := bool_decide (hop_ip = target_ip) in
            let progress := Qmin 1%Q (true_div ttl max_hops) in
            let progress := if is_destination then 1%Q else progress in
            if is_destination then ([(info, progress, is_destination)], visited_ips)
            else
              let (ys, final) :=
                hop_loop s env target_ip max_hops max_retries resolve_dns
                  remaining' (ttl + 1) visited_ips in
              ((info, progress, is_destination) :: ys, final)
      | inr None =>
          let progress := Qmin 1%Q (true_div ttl max_hops) in
          let (ys, final) :=
            hop_loop s env target_ip max_hops max_retries resolve_dns
              remaining' (ttl + 1) visited_ips in
          ((timeout_info ttl, progress, false) :: ys, final)
      end
      end
  end.

Definition socket_traceroute (s : strategy) (env : net_env) (target_ip : string)
    (max_hops : Z) (resolve_dns : bool) (max_retries : Z) : list yield_item :=
  match open_socket env with
  | Some e => [(error_info (strategy_error_text s e), 0%Q, false)]
  | None =>
      fst (hop_loop s env target_ip max_hops max_retries resolve_dns
             (Z.to_nat max_hops) 1 ∅)
  end.

Definition _icmp_traceroute := socket_traceroute ICMPv4.
Definition _icmpv6_traceroute := socket_traceroute ICMPv6.
Definition _udp_traceroute := socket_traceroute UDPv4.

(** ** The external-tool strategy: [_windows_tracert]

    The embedding starts where the source has split a line of [tracert]
    output and extracted its fields: a line is either skipped, or carries
    the values of the locals [hop_num], [ip], [hostname] and [rtt_values]
    that the code after the extraction works on. *)

Inductive tracert_line :=
| other_line                      (* blank, banner, or first token not [isdigit()] *)
| bad_hop_number                  (* first token [isdigit()], but [int()] raises *)
| hop_line (hop_num_int : Z) (ip : py_str) (hostname : py_str)
           (rtt_values : list Q) (line : string).

Inductive popen_exn :=
| SubprocessError (e : string)
| FileNotFoundError
| OtherError (e : string).

(** What the spawned [tracert] does: [Popen] raises, or the process prints
    lines and ends with a return code and some [stderr] text. *)
Inductive tracert_process :=
| popen_raises (e : popen_exn)
| process_output (stdout : list tracert_line) (stderr : string) (return_code : Z).

Definition sum_Q (l : list Q) : Q := fold_right Qplus 0%Q l.

(** [statistics.mean] *)
Definition mean (l : list Q) : Q := (sum_Q l / inject_Z (len l))%Q.

Fixpoint lstrip (s : string) : string :=
  match s with
  | String c s' => if Ascii.is_space c then lstrip s' else s
  | EmptyString => EmptyString
  end.

(** [str.strip()] *)
Definition py_strip (s : string) : string :=
  String.rev (lstrip (String.rev (lstrip s))).

Definition tracert_info (hop_num_int : Z) (ip hostname : py_str)
    (rtt_values : list Q) (line : string) : hop_info :=
  let avg_rtt :=
    if bool_decide (ip = PyStr "*") then "Timeout"
    else if negb (bool_decide (rtt_values = [])) then
      format_float 1 (mean rtt_values) +:+ " ms"
    else "Timeout" in
  {| hop := Some hop_num_int; ip := Some ip;
     hostname := Some (match hostname with PyStr h => h | PyNone => "" end);
     delay := Some avg_rtt; ttl_key := Some hop_num_int;
     raw_data := Some line; warning := None; error := None |}.

(** What the loop over [process.stdout] leaves behind: the final value of
    [current_hop] ([None] when the division of the progress computation
    raised and the generic handler took over) and of [visited_ips]. *)
Record tracert_state := TracertState {
  current_hop : option Z;
  visited : gset py_str
}.

Fixpoint tracert_loop (target_ip : string) (max_hops : Z)
    (stdout : list tracert_line) (current_hop : Z) (visited_ips : gset py_str)
  : list yield_item * tracert_state :=
  match stdout with
  | [] => ([], TracertState (Some current_hop) visited_ips)
  | other_line :: rest => tracert_loop target_ip max_hops rest current_hop visited_ips
  | bad_hop_number :: rest =>
      tracert_loop target_ip max_hops rest (current_hop + 1) visited_ips
  | hop_line hop_num_int ip hostname rtt_values line :: rest =>
      let current_hop := current_hop + 1 in
      let info := tracert_info hop_num_int ip hostname rtt_values line in
      let looped := bool_decide (ip ≠ PyStr "*") && bool_decide (ip ∈ visited_ips) in
      let info := if looped then with_warning "Routing loop detected" info else info in
      let visited_ips :=
        if looped then visited_ips
        else if bool_decide (ip ≠ PyStr "*") then {[ip]} ∪ visited_ips
        else visited_ips in
      if max_hops =? 0 then
        ([(error_info "Unexpected error in Windows tracert: division by zero",
           0%Q, false)], TracertState None visited_ips)
      else
        let progress := Qmin 1%Q (true_div current_hop max_hops) in
        let is_destination := bool_decide (ip = PyStr target_ip) in
        let progress := if is_destination then 1%Q else progress in
        if is_destination then
          ([(info, progress, is_destination)],
           TracertState (Some current_hop) visited_ips)
        else
          let (ys, final) := tracert_loop target_ip max_hops rest current_hop visited_ips in
          ((info, progress, is_destination) :: ys, final)
  end.

Definition tracert_errors (e : popen_exn) : string :=
  match e with
  | SubprocessError e => "tracert command execution failed: " +:+ e
  | FileNotFoundError =>
      "tracert command not found, please ensure system path is correct"
  | OtherError e => "Unexpected error in Windows tracert: " +:+ e
  end.

Definition _windows_tracert (proc : tracert_process) (target_ip : string)
    (max_hops : Z) : list yield_item :=
  match proc with
  | popen_raises e => [(error_info (tracert_errors e), 0%Q, false)]
  | process_output stdout stderr return_code =>
      let (ys, final) := tracert_loop target_ip max_hops stdout 0 ∅ in
      match current_hop final with
      | None => ys
      | Some current_hop =>
          if (negb (bool_decide (stderr = "")) || negb (return_code =? 0))
             && (current_hop =? 0)
          then ys ++ [(error_info ("Windows tracert error (code " +:+ pretty return_code
                                   +:+ "): " +:+ py_strip stderr), 0%Q, false)]
          else ys
      end
  end.

(** ** The entry point: [traceroute] *)

Inductive addr_family := AF_INET | AF_INET6 | AF_other.

Global Instance addr_family_eq_dec : EqDecision addr_family.
Proof. solve_decision. Defined.

Inductive getaddrinfo_result :=
| gai_list (res : list (addr_family * string))
| gai_error (e : string)              (* [socket.gaierror] *)
| gai_exception (e : string).         (* any other exception *)

Inductive os := Windows | Posix.

(** Everything outside the process that one discovery run touches;
    [getaddrinfo None] is the lookup with [AF_UNSPEC]. *)
Record world := World {
  platform_system : os;
  getaddrinfo : option addr_family -> string -> getaddrinfo_result;
  tracert : tracert_process;
  network : net_env
}.

(** The I/O a run performs, in order. *)
Inductive io_event :=
| io_getaddrinfo (target : string)
| io_tracert (target_ip : string)
| io_raw_socket (s : strategy) (target_ip : string).

(** A finished generator: what it did, what it yielded, how it ended. *)
Record run := Run {
  io : list io_event;
  yielded : list yield_item;
  raised : option py_exn
}.

Variable str_of_float : Q -> string.

Definition ERROR_INVALID_TIMEOUT (t : Q) : string :=
  "Timeout must be positive: " +:+ str_of_float t.

(** [for res in socket.getaddrinfo(...)] with its two preference branches. *)
Fixpoint select_address (ipv6 : bool) (res : list (addr_family * string))
    (target_ip : option string) (ip_version : option Z) : option string * option Z :=
  match res with
  | [] => (target_ip, ip_version)
  | (af, sa) :: rest =>
      if ipv6 then
        if bool_decide (af = AF_INET6) then (Some sa, Some 6)
        else if bool_decide (af = AF_INET) && bool_decide (ip_version = None)
             then select_address ipv6 rest (Some sa) (Some 4)
             else select_address ipv6 rest target_ip ip_version
      else
        if bool_decide (af = AF_INET) then (Some sa, Some 4)
        else if bool_decide (af = AF_INET6) && bool_decide (ip_version = None)
             then select_address ipv6 rest (Some sa) (Some 6)
             else select_address ipv6 rest target_ip ip_version
  end.

(** The loop that [traceroute] wraps around a raw-socket strategy: an
    error record becomes a raised [TracerouteError], a destination record
    ends the iteration. *)
Fixpoint relay (items : list yield_item) : list yield_item * option py_exn :=
  match items with
  | [] => ([], None)
  | (hop_info, progress, is_destination) :: rest =>
      match error hop_info with
      | Some e => ([], Some (TracerouteError e))
      | None =>
          if is_destination then ([(hop_info, progress, is_destination)], None)
          else let (ys, r) := relay rest in
               ((hop_info, progress, is_destination) :: ys, r)
      end
  end.

Definition choose_strategy (protocol : string) (ip_version : option Z)
  : option strategy :=
  if bool_decide (protocol = "icmp") then
    if bool_decide (ip_version = Some 6) then Some ICMPv6 else Some ICMPv4
  else if bool_decide (protocol = "udp") then
    if bool_decide (ip_version = Some 6) then Some ICMPv6 else Some UDPv4
  else None.

(** [packet_size], [port] and [debug_mode] only reach the packet builders
    and the debug prints, which are part of [send_receive_packet w] here. *)
Definition traceroute (w : world) (target : string) (max_hops : Z) (timeout : Q)
    (resolve_dns : bool) (protocol : string) (max_retries : Z) (ipv6 : bool) : run :=
  if negb (bool_decide (protocol ∈ ["udp"; "icmp"; "tcp"])) then
    Run [] [] (Some (ValueError (ERROR_UNSUPPORTED_PROTOCOL protocol)))
  else if (max_hops <? 1) || (max_hops >? 255) then
    Run [] [] (Some (ValueError (ERROR_INVALID_HOPS max_hops)))
  else if Qle_bool timeout 0 then
    Run [] [] (Some (ValueError (ERROR_INVALID_TIMEOUT timeout)))
  else
    let resolved :=
      match getaddrinfo w None target with
      | gai_list res =>
          match select_address ipv6 res None None with
          | (Some target_ip, ip_version) => inr (target_ip, ip_version)
          | (None, _) => inl (ERROR_ADDRESS_RESOLUTION "无法解析目标地址")
          end
      | gai_error e => inl (ERROR_ADDRESS_RESOLUTION e)
      | gai_exception e => inl e
      end in
    match resolved with
    | inl msg => Run [io_getaddrinfo target] [(error_info msg, 0%Q, false)] None
    | inr (target_ip, ip_version) =>
        match platform_system w with
        | Windows =>
            Run [io_getaddrinfo target; io_tracert target_ip]
                (_windows_tracert (tracert w) target_ip max_hops) None
        | Posix =>
            match choose_strategy protocol ip_version with
            | Some s =>
                let (ys, r) := relay (socket_traceroute s (network w) target_ip
                                        max_hops resolve_dns max_retries) in
                Run [io_getaddrinfo target; io_raw_socket s target_ip] ys r
            | None =>
                Run [io_getaddrinfo target]
                    [(error_info (ERROR_UNSUPPORTED_PROTOCOL protocol), 0%Q, false)] None
            end
        end
    end.

(** ** The aggregator: [mtr] *)

(** A float that may be [float('inf')]. *)
Inductive py_float :=
| inf
| fin (q : Q).

(** One value of the [hop_data] dictionary. *)
Record hop_stats := HopStats {
  s_hop : Z;
  s_ip : py_str;
  s_hostname : string;
  delays : list Q;
  loss_percent : Q;
  min_delay : py_float;
  max_delay : Q;
  avg_delay : Q;
  std_dev : Q
}.

Record mtr_summary := MtrSummary {
  target : string;
  target_ip : string;
  ip_version : Z;
  protocol : string;
  cycles_complete : Z;
  total_cycles : Z;
  total_hops : Z;
  summary_text : string
}.

(** One element of the [mtr] generator: [(summary, progress, all_hops_data)]. *)
Definition mtr_yield : Type := mtr_summary * Q * list hop_stats.

Record mtr_run := MtrRun {
  mtr_yielded : list mtr_yield;
  mtr_raised : option py_exn
}.

(** [float(s)]: [None] stands for [ValueError]. *)
Variable float_of_str : string -> option Q.

(** [statistics.stdev] *)
Variable stdev : list Q -> Q.

(** [sep in s] *)
Fixpoint contains (sep s : string) : bool :=
  String.prefix sep s ||
  match s with
  | String _ s' => contains sep s'
  | EmptyString => false
  end.

(** [s.split(sep)[0]] for a non-empty [sep] *)
Fixpoint split_head (sep s : string) : string :=
  if String.prefix sep s then EmptyString
  else match s with
       | String c s' => String c (split_head sep s')
       | EmptyString => EmptyString
       end.

Definition py_min (a : py_float) (b : Q) : py_float :=
  match a with
  | inf => fin b
  | fin x => if Qlt_le_dec b x then fin b else fin x
  end.

Definition py_max (a b : Q) : Q := if Qlt_le_dec a b then b else a.

Definition new_stats (hop_num : Z) (hop_ip : py_str) (name : string) : hop_stats :=
  {| s_hop := hop_num; s_ip := hop_ip; s_hostname := name; delays := [];
     loss_percent := 0; min_delay := inf; max_delay := 0; avg_delay := 0;
     std_dev := 0 |}.

Definition set_hostname (name : string) (h : hop_stats) : hop_stats :=
  {| s_hop := s_hop h; s_ip := s_ip h; s_hostname := name; delays := delays h;
     loss_percent := loss_percent h; min_delay := min_delay h;
     max_delay := max_delay h; avg_delay := avg_delay h; std_dev := std_dev h |}.

Definition add_delay (delay_value : Q) (h : hop_stats) : hop_stats :=
  {| s_hop := s_hop h; s_ip := s_ip h; s_hostname := s_hostname h;
     delays := delays h ++ [delay_value];
     loss_percent := loss_percent h;
     min_delay := py_min (min_delay h) delay_value;
     max_delay := py_max (max_delay h) delay_value;
     avg_delay := avg_delay h; std_dev := std_dev h |}.

(** The body of the inner [for] loop of [mtr] on one [hop_info].  The
    discovery strategies always store a [str] under ['delay'], so the
    branch for a numeric delay has no counterpart here. *)
Definition record_hop (hop_data : gmap Z hop_stats) (info : hop_info)
  : gmap Z hop_stats :=
  let hop_num := default (-1) (hop info) in
  let hop_ip := default (PyStr "*") (ip info) in
  let name := default "" (hostname info) in
  let hop_data :=
    match hop_data !! hop_num with
    | None => <[hop_num := new_stats hop_num hop_ip name]> hop_data
    | Some _ => hop_data
    end in
  let hop_data :=
    alter (fun h => if negb (bool_decide (name = ""))
                       && bool_decide (s_hostname h = "")
                    then set_hostname name h else h) hop_num hop_data in
  let delay := default "Timeout" (delay info) in
  if negb (bool_decide (delay = "Timeout")) && contains "ms" delay then
    match float_of_str (py_strip (split_head "ms" delay)) with
    | Some delay_value => alter (add_delay delay_value) hop_num hop_data
    | None => hop_data
    end
  else hop_data.

(** The records one cycle hands to [record_hop]: all of them up to and
    including the first destination record; the flag tells whether the
    loop was left by [break]. *)
Fixpoint consumed (items : list yield_item) : list hop_info * bool :=
  match items with
  | [] => ([], false)
  | (info, _, is_destination) :: rest =>
      if is_destination then ([info], true)
      else let (l, b) := consumed rest in (info :: l, b)
  end.

(** The statistics pass over one entry, with [total_packets] the number of
    cycles attempted so far. *)
Definition update_stats (total_packets : Z) (h : hop_stats) : hop_stats :=
  let received_packets := len (delays h) in
  {| s_hop := s_hop h; s_ip := s_ip h; s_hostname := s_hostname h;
     delays := delays h;
     loss_percent := (true_div (total_packets - received_packets) total_packets * 100)%Q;
     min_delay := match min_delay h with inf => fin 0 | m => m end;
     max_delay := max_delay h;
     avg_delay := if negb (bool_decide (delays h = [])) then mean (delays h) else 0%Q;
     std_dev := if negb (bool_decide (delays h = [])) then
                  if 1 <? len (delays h) then stdev (delays h) else 0%Q
                else 0%Q |}.

(** [sorted(hop_data.keys())] *)
Definition sorted_keys (hop_data : gmap Z hop_stats) : list Z :=
  merge_sort Z.le (map fst (map_to_list hop_data)).

(** [[hop_data[k].copy() for k in sorted(hop_data.keys())]] *)
Definition all_hops (hop_data : gmap Z hop_stats) : list hop_stats :=
  omap (fun k => hop_data !! k) (sorted_keys hop_data).

Definition cycle_summary (target dest_ip : string) (ip_version : Z) (protocol : string)
    (count : Z) (cycle : Z) (hops : list hop_stats) : mtr_summary :=
  {| target := target; target_ip := dest_ip; ip_version := ip_version;
     protocol := protocol; cycles_complete := cycle + 1; total_cycles := count;
     total_hops := len hops;
     summary_text := "MTR to " +:+ target +:+ " (" +:+ dest_ip +:+ "), "
                     +:+ pretty (cycle + 1) +:+ "/" +:+ pretty count
                     +:+ " cycles complete" |}.

Definition final_summary (target dest_ip : string) (ip_version : Z) (protocol : string)
    (count : Z) (hop_data : gmap Z hop_stats) : mtr_summary :=
  {| target := target; target_ip := dest_ip; ip_version := ip_version;
     protocol := protocol; cycles_complete := count; total_cycles := count;
     total_hops := Z.of_nat (size hop_data);
     summary_text := "MTR to " +:+ target +:+ " (" +:+ dest_ip +:+ ") complete, "
                     +:+ pretty count +:+ " cycles performed" |}.

(** [for cycle in range(count)], [remaining] iterations from [cycle] on,
    followed by the final pass.  [run_cycle c] is what the [traceroute]
    call of cycle [c] does. *)
Fixpoint mtr_cycles (run_cycle : nat -> run) (target dest_ip : string)
    (ip_version : Z) (protocol : string) (count : Z)
    (remaining cycle : nat) (hop_data : gmap Z hop_stats) : mtr_run :=
  match remaining with
  | O =>
      let hop_data := update_stats count <$> hop_data in
      MtrRun [(final_summary target dest_ip ip_version protocol count hop_data,
               1%Q, all_hops hop_data)] None
  | S remaining' =>
      let r := run_cycle cycle in
      let (infos, broke) := consumed (yielded r) in
      let hop_data := fold_left record_hop infos hop_data in
      match (if broke then None else raised r) with
      | Some (TracerouteError _) =>
          mtr_cycles run_cycle target dest_ip ip_version protocol count
            remaining' (S cycle) hop_data
      | Some e => MtrRun [] (Some e)
      | None =>
          let overall_progress := true_div (Z.of_nat cycle + 1) count in
          let hop_data := update_stats (Z.of_nat cycle + 1) <$> hop_data in
          let all_hops_data := all_hops hop_data in
          let summary := cycle_summary target dest_ip ip_version protocol count
                           (Z.of_nat cycle) all_hops_data in
          let rest := mtr_cycles run_cycle target dest_ip ip_version protocol count
                        remaining' (S cycle) hop_data in
          MtrRun ((summary, overall_progress, all_hops_data) :: mtr_yielded rest)
                 (mtr_raised rest)
      end
  end.

(** [str.lower()] on the ASCII letters. *)
Definition lower_char (c : Ascii.ascii) : Ascii.ascii :=
  let n := Ascii.N_of_ascii c in
  if ((65 <=? n) && (n <=? 90))%N then Ascii.ascii_of_N (n + 32) else c.

Fixpoint py_lower (s : string) : string :=
  match s with
  | String c s' => String (lower_char c) (py_lower s')
  | EmptyString => EmptyString
  end.

Definition resolve_failure (target e : string) : string :=
  "Failed to resolve target '" +:+ target +:+ "': " +:+ e.

(** [socket.getaddrinfo(target, None, family)[0][4][0]]; [inl (true, e)]
    is [socket.gaierror], [inl (false, e)] any other exception. *)
Definition first_address (w : world) (family : addr_family) (target : string)
  : (bool * string) + string :=
  match getaddrinfo w (Some family) target with
  | gai_list ((_, sa) :: _) => inr sa
  | gai_list [] => inl (false, "list index out of range")
  | gai_error e => inl (true, e)
  | gai_exception e => inl (false, e)
  end.

(** The resolution block at the head of [mtr]: the text of the
    [TracerouteError] it raises, or [(dest_ip, ip_version)]. *)
Definition mtr_resolve (w : world) (target : string) (ipv6 : bool)
  : string + (string * Z) :=
  if ipv6 then
    match first_address w AF_INET6 target with
    | inr dest_ip => inr (dest_ip, 6)
    | inl (_, e) => inl (resolve_failure target e)
    end
  else
    match first_address w AF_INET target with
    | inr dest_ip => inr (dest_ip, 4)
    | inl (true, _) =>
        match first_address w AF_INET6 target with
        | inr dest_ip => inr (dest_ip, 6)
        | inl (true, e) => inl (resolve_failure target (resolve_failure target e))
        | inl (false, e) => inl (resolve_failure target e)
        end
    | inl (false, e) => inl (resolve_failure target e)
    end.

Definition DEFAULT_MAX_RETRIES : Z := 3.

(** [mtr]: [w] is the world at the time of the call, [worlds c] the world
    during cycle [c]. *)
Definition mtr (w : world) (worlds : nat -> world) (target : string) (count : Z)
    (max_hops : Z) (timeout : Q) (resolve_dns : bool) (protocol : string)
    (ipv6 : bool) : mtr_run :=
  let protocol := py_lower protocol in
  if negb (bool_decide (protocol ∈ ["icmp"; "tcp"; "udp"])) then
    MtrRun [] (Some (TracerouteError ("Unsupported protocol: " +:+ protocol)))
  else
    match mtr_resolve w target ipv6 with
    | inl e => MtrRun [] (Some (TracerouteError e))
    | inr (dest_ip, ip_version) =>
        mtr_cycles
          (fun cycle => traceroute (worlds cycle) dest_ip max_hops timeout
                          resolve_dns protocol DEFAULT_MAX_RETRIES
                          (bool_decide (ip_version = 6)))
          target dest_ip ip_version protocol count (Z.to_nat count) 0 ∅
    end.

End Discovery.

(** ** Instances of the Python primitives, for running the model

    Decimal formatting and parsing on exact rationals; they agree with
    [format], [float] and [statistics.stdev] on the values used below. *)

Definition round_half_even (x : Q) : Z :=
  let f := Qfloor x in
  match (x - inject_Z f ?= 1 # 2)%Q with
  | Lt => f
  | Gt => f + 1
  | Eq => if Z.even f then f else f + 1
  end.

Fixpoint zero_pad (width : nat) (s : string) : string :=
  match width with
  | O => s
  | S w => if (String.length s <? width)%nat then zero_pad w ("0" +:+ s) else s
  end.

Definition format_fixed (digits : nat) (x : Q) : string :=
  let scale := 10 ^ Z.of_nat digits in
  let n := round_half_even (x * inject_Z scale) in
  (if n <? 0 then "-" else "") +:+ pretty (Z.abs n / scale) +:+
  (if (digits =? 0)%nat then ""
   else "." +:+ zero_pad digits (pretty (Z.abs n mod scale))).

Fixpoint digits_value (s : string) (acc : Z) : option Z :=
  match s with
  | EmptyString => Some acc
  | String c s' =>
      let n := Z.of_N (Ascii.N_of_ascii c) in
      if (48 <=? n) && (n <=? 57) then digits_value s' (10 * acc + (n - 48))
      else None
  end.

Definition char_is (code : N) (c : Ascii.ascii) : bool :=
  (Ascii.N_of_ascii c =? code)%N.

Fixpoint after_dot (s : string) : string :=
  match s with
  | String c s' => if char_is 46 c then s' else after_dot s'
  | EmptyString => EmptyString
  end.

Definition decimal_of_string (s : string) : option Q :=
  let (negative, body) :=
    match s with
    | String c r =>
        if char_is 45 c then (true, r)
        else if char_is 43 c then (false, r) else (false, s)
    | EmptyString => (false, s)
    end in
  let int_part := split_head "." body in
  let frac_part := after_dot body in
  if (String.length int_part + String.length frac_part =? 0)%nat then None
  else
    match digits_value int_part 0, digits_value frac_part 0 with
    | Some i, Some f =>
        let q := (inject_Z i +
                  inject_Z f / inject_Z (10 ^ Z.of_nat (String.length frac_part)))%Q in
        Some (if negative then (- q)%Q else q)
    | _, _ => None
    end.

(** The sample standard deviation, its square root taken to six decimals. *)
Definition approx_stdev (l : list Q) : Q :=
  let m := mean l in
  let ss := sum_Q (map (fun x => ((x - m) * (x - m))%Q) l) in
  let variance := (ss / inject_Z (len l - 1))%Q in
  (Z.sqrt (Qfloor (variance * inject_Z (10 ^ 12))) # 1000000)%Q.

(** ** Worlds for running the model *)

(** A resolver that maps an IPv4 literal to itself. *)
Definition literal_resolver (family : option addr_family) (target : string)
  : getaddrinfo_result :=
  match family with
  | Some AF_INET6 => gai_error "Address family for hostname not supported"
  | _ => gai_list [(AF_INET, target)]
  end.

Definition silent_env : net_env :=
  {| open_socket := None;
     set_hop_limit := fun _ => None;
     send_receive_packet := fun _ _ => no_response;
     reverse_lookup := fun _ => None |}.

(** A path whose hop at distance [ttl] answers the first probe from the
    address [hops !! (ttl - 1)], after [1.5 * ttl] ms, or stays silent. *)
Definition path_env (hops : list (option string)) : net_env :=
  {| open_socket := None;
     set_hop_limit := fun _ => None;
     send_receive_packet := fun ttl _ =>
       match hops !! Z.to_nat (ttl - 1) with
       | Some (Some addr) => response addr (inject_Z ttl * (3 # 2))%Q (Some 11)
       | _ => no_response
       end;
     reverse_lookup := fun _ => None |}.

Definition posix_world (env : net_env) : world :=
  {| platform_system := Posix; getaddrinfo := literal_resolver;
     tracert := popen_raises FileNotFoundError; network := env |}.

Definition windows_world (proc : tracert_process) : world :=
  {| platform_system := Windows; getaddrinfo := literal_resolver;
     tracert := proc; network := silent_env |}.

Definition run_traceroute := traceroute format_fixed (format_fixed 1).

(** The second hop answers from the address of the first. *)
Definition looping_path : world :=
  posix_world (path_env [Some "10.0.0.1"; Some "10.0.0.1"]).

(** The second hop never answers; the third is the target. *)
Definition silent_second_hop : world :=
  posix_world (path_env [Some "10.0.0.1"; None; Some "10.0.0.9"]).

(** Three routers answer and the fourth hop is the target. *)
Definition four_hops : world :=
  posix_world (path_env [Some "10.0.0.1"; Some "10.0.1.1"; Some "10.0.2.1";
                         Some "93.184.216.34"]).

(** The third hop answers from the address of the first. *)
Definition loop_at_third_hop : world :=
  posix_world (path_env [Some "10.0.0.1"; Some "10.0.1.1"; Some "10.0.0.1";
                         Some "10.0.3.1"]).

(** [tracert] prints three hops, the second from the address of the first:
    the lines ["  1  1 ms  1 ms  1 ms  10.0.0.1"],
    ["  2  2 ms  2 ms  2 ms  10.0.0.1"], ["  3  3 ms  3 ms  3 ms  10.0.0.2"],
    whose second to fourth tokens give two round-trip times each. *)
Definition looping_tracert : world :=
  windows_world
    (process_output
       [other_line;
        hop_line 1 (PyStr "10.0.0.1") PyNone [1%Q; 1%Q] "1  1 ms  1 ms  1 ms  10.0.0.1";
        hop_line 2 (PyStr "10.0.0.1") PyNone [2%Q; 2%Q] "2  2 ms  2 ms  2 ms  10.0.0.1";
        hop_line 3 (PyStr "10.0.0.2") PyNone [3%Q; 3%Q] "3  3 ms  3 ms  3 ms  10.0.0.2"]
       "" 0).

(** ** Notions used to state the properties of the aggregator *)

(** The three equations of the design document for one hop of a summary
    produced after [n] cycles. *)
Definition stats_match (n : Z) (h : hop_stats) : Prop :=
  (loss_percent h == 100 * inject_Z (n - len (delays h)) / inject_Z n)%Q /\
  (avg_delay h == if bool_decide (delays h = []) then 0
                  else sum_Q (delays h) / inject_Z (len (delays h)))%Q /\
  (len (delays h) <= 1 -> (std_dev h == 0)%Q).

(** What [mtr] reads from a record: [hop_info.get('hop', -1)],
    [hop_info.get('ip', '*')] and [hop_info.get('hostname', '')]. *)
Definition hop_key (info : hop_info) : Z := default (-1) (hop info).
Definition info_ip (info : hop_info) : py_str := default (PyStr "*") (ip info).
Definition info_hostname (info : hop_info) : string := default "" (hostname info).

(** The records that cycle [c] hands to the aggregator, and all the records
    of the cycles [0 .. n-1] in the order in which they arrive. *)
Definition cycle_infos (run_cycle : nat -> run) (c : nat) : list hop_info :=
  fst (consumed (yielded (run_cycle c))).

Definition infos_through (run_cycle : nat -> run) (n : nat) : list hop_info :=
  flat_map (cycle_infos run_cycle) (seq 0 n).

(** The address of the first record of hop [k], and the first hostname
    of hop [k] that is not empty. *)
Fixpoint first_ip (k : Z) (infos : list hop_info) : option py_str :=
  match infos with
  | [] => None
  | i :: rest => if hop_key i =? k then Some (info_ip i) else first_ip k rest
  end.

Fixpoint first_hostname (k : Z) (infos : list hop_info) : string :=
  match infos with
  | [] => ""
  | i :: rest =>
      if (hop_key i =? k) && negb (bool_decide (info_hostname i = ""))
      then info_hostname i else first_hostname k rest
  end.

(** The reading of the design document: the last record of hop [k] in
    which the hop responded. *)
Fixpoint last_response (k : Z) (infos : list hop_info) : option hop_info :=
  match infos with
  | [] => None
  | i :: rest =>
      match last_response k rest with
      | Some r => Some r
      | None =>
          if (hop_key i =? k) && negb (bool_decide (info_ip i = PyStr "*"))
          then Some i else None
      end
  end.

(** The counters of the loop: either [cycle] of the [count] cycles are
    done, with nothing recorded before the first one, or there is no
    cycle to run at all. *)
Definition cycles_in_step (count : Z) (remaining cycle : nat)
    (hop_data : gmap Z hop_stats) : Prop :=
  (Z.of_nat cycle + Z.of_nat remaining = count /\
   (cycle = 0%nat -> hop_data = ∅)) \/
  (remaining = 0%nat /\ hop_data = ∅).

(** Every entry of [hop_data] sits under its own hop number and holds the
    address of the first record of that hop and the first hostname of
    that hop that is not empty; a hop without an entry has no record. *)
Definition keeps_first (infos : list hop_info) (hop_data : gmap Z hop_stats) : Prop :=
  forall k,
    match hop_data !! k with
    | Some h => s_hop h = k /\ first_ip k infos = Some (s_ip h) /\
                first_hostname k infos = s_hostname h
    | None => first_ip k infos = None
    end.

Definition same_identity (f : hop_stats -> hop_stats) : Prop :=
  forall h, s_hop (f h) = s_hop h /\ s_ip (f h) = s_ip h /\
            s_hostname (f h) = s_hostname h.

(** ** Notions used to state the properties of a discovery run *)

(** How a list of yielded tuples ends.  A destination record is the last
    one; a record with a loop warning carries an address that was already
    [seen] before the list or that an earlier record of the list carries,
    and, where [stop_on_loop] holds, it is the last one too. *)
Definition well_ended (stop_on_loop : bool) (seen : py_str -> Prop)
    (ys : list yield_item) : Prop :=
  forall i info p d,
    ys !! i = Some (info, p, d) ->
    (d = true -> length ys = S i) /\
    (is_Some (warning info) ->
     (stop_on_loop = true -> length ys = S i) /\
     exists v, ip info = Some v /\
               (seen v \/
                exists j y, (j < i)%nat /\ ys !! j = Some y /\ ip y.1.1 = Some v)).

Definition unit_interval (p : Q) : Prop := (0 <= p <= 1)%Q.

(** The addresses of a set of visited strings, as values of [ip]. *)
Definition seen_in (visited_ips : gset string) (v : py_str) : Prop :=
  exists a, v = PyStr a /\ a ∈ visited_ips.

(** Whether a loop record ends the run on the platform of [w]. *)
Definition stops_on_loop (w : world) : bool :=
  match platform_system w with Posix => true | Windows => false end.

(** ** Worlds for running the aggregator *)

Definition run_mtr :=
  mtr format_fixed (format_fixed 1) decimal_of_string approx_stdev.

Definition with_names (names : list (string * string)) (env : net_env) : net_env :=
  {| open_socket := open_socket env;
     set_hop_limit := set_hop_limit env;
     send_receive_packet := send_receive_packet env;
     reverse_lookup := fun addr =>
       (fun found => found.2.2) <$> list_find (fun p => p.1 = addr) names |}.

(** The first hop answers from 10.0.0.1 in the first cycle and from
    10.0.0.2 in the later ones; the second hop is the target. *)
Definition drifting_first_hop (cycle : nat) : world :=
  posix_world
    (with_names [("10.0.0.1", "a.example"); ("10.0.0.2", "b.example")]
       (path_env [Some (if (cycle =? 0)%nat then "10.0.0.1" else "10.0.0.2");
                  Some "10.0.0.9"])).

(** The second hop answers in every cycle but the second; the third hop
    is the target. *)
Definition lossy_second_hop (cycle : nat) : world :=
  posix_world
    (path_env [Some "10.0.0.1";
               (if (cycle =? 1)%nat then None else Some "10.0.0.5");
               Some "10.0.0.9"]).

(** ** Reading a packet back *)

(** The unsigned integer that a run of bytes holds in network order
    ([struct.unpack] with [B], [H] or [I]). *)
Definition be_value (bs : list byte) : Z :=
  fold_left (fun acc b => acc * 256 + Z_of_byte b) bs 0.

(** The field of [n] bytes at offset [off]. *)
Definition field (off n : nat) (pkt : list byte) : list byte :=
  take n (drop off pkt).

(** An ICMP packet with its checksum field (offset 2, two bytes) zeroed:
    what the checksum of a received packet is computed over. *)
Definition zero_checksum_field (pkt : list byte) : list byte :=
  take 2 pkt ++ [x00; x00] ++ drop 4 pkt.

(** ** Notions used to state further properties of discovery *)

(** An attempt that the retry loop treats as unanswered: no response, or a
    response whose address is the empty string. *)
Definition unanswered (o : probe_outcome) : Prop :=
  o = no_response \/ exists d ty, o = response "" d ty.

(** The address of the first entry of family [af] in a resolver answer. *)
Fixpoint first_of (af : addr_family) (res : list (addr_family * string))
  : option string :=
  match res with
  | [] => None
  | (af', sa) :: rest => if bool_decide (af' = af) then Some sa else first_of af rest
  end.

(** A host whose process may not open a raw socket. *)
Definition unprivileged_env : net_env :=
  {| open_socket := Some "[Errno 1] Operation not permitted";
     set_hop_limit := fun _ => None;
     send_receive_packet := fun _ _ => no_response;
     reverse_lookup := fun _ => None |}.

(** ** The samples of a hop

    [parsed_delay] is the value that the loop body of [mtr] appends to
    ['delays'] for one record, if any; [samples k infos] collects these
    values over the records of hop number [k], in the order of arrival. *)

Definition parsed_delay (float_of_str : string -> option Q) (info : hop_info)
  : option Q :=
  let delay := default "Timeout" (delay info) in
  if negb (bool_decide (delay = "Timeout")) && contains "ms" delay
  then float_of_str (py_strip (split_head "ms" delay))
  else None.

Fixpoint samples (float_of_str : string -> option Q) (k : Z)
    (infos : list hop_info) : list Q :=
  match infos with
  | [] => []
  | i :: rest =>
      if hop_key i =? k then
        match parsed_delay float_of_str i with
        | Some v => v :: samples float_of_str k rest
        | None => samples float_of_str k rest
        end
      else samples float_of_str k rest
  end.

(** What every entry of [hop_data] satisfies once the records [infos] have
    been processed: it sits under its own hop number, its samples are the
    parsed delays of the records of that hop, and its extremes bound the
    samples. *)
Definition sound_entry (float_of_str : string -> option Q)
    (infos : list hop_info) (k : Z) (h : hop_stats) : Prop :=
  s_hop h = k /\
  delays h = samples float_of_str k infos /\
  (0 <= max_delay h)%Q /\
  (forall d, d ∈ delays h -> (d <= max_delay h)%Q) /\
  match min_delay h with
  | inf => delays h = []
  | fin m => (m <= max_delay h)%Q /\ forall d, d ∈ delays h -> (m <= d)%Q
  end /\
  (delays h = [] ->
   max_delay h = 0%Q /\ (min_delay h = inf \/ min_delay h = fin 0%Q)).

Definition sound_data (float_of_str : string -> option Q)
    (infos : list hop_info) (hop_data : gmap Z hop_stats) : Prop :=
  forall k h, hop_data !! k = Some h -> sound_entry float_of_str infos k h.

(** An entry that stands for no hop of the path: the one that [mtr]
    creates under the default hop number for a record without ['hop']. *)
Definition phantom_hop (h : hop_stats) : Prop :=
  s_hop h = -1 /\ s_ip h = PyStr "*" /\ s_hostname h = "" /\ delays h = [].

(** ** The worker thread of the aggregator: [MTRThread.run] (mtr_thread.py)

    The signals the thread emits, in order.  [update_signal] carries the
    list of hop dictionaries of one summary, or the one-element list with
    an ['error'] entry; a hop dictionary is an entry of [mtr] with the
    key ['location'] that masking adds. *)

Record shown_hop := ShownHop {
  entry : hop_stats;
  location : option string
}.

Inductive update_payload :=
| hops_update (hops : list shown_hop)
| error_update (msg : string).

Inductive thread_signal :=
| update_signal (payload : update_payload)
| finished_signal (ok : bool).

(** [str(e)] *)
Definition str_of_exn (e : py_exn) : string :=
  match e with
  | ValueError msg => msg
  | TracerouteError msg => msg
  end.

(** The body of [for hop_info in all_hops_data] under [mask_first_hops]. *)
Definition mask_hop (h : hop_stats) : shown_hop :=
  if s_hop h <=? 3 then
    {| entry := {| s_hop := s_hop h; s_ip := PyStr "***.***.***.***";
                   s_hostname := "***"; delays := delays h;
                   loss_percent := loss_percent h; min_delay := min_delay h;
                   max_delay := max_delay h; avg_delay := avg_delay h;
                   std_dev := std_dev h |};
       location := Some "***" |}
  else {| entry := h; location := None |}.

Definition plain_hop (h : hop_stats) : shown_hop :=
  {| entry := h; location := None |}.

(** The [for] loop over the generator and what follows it: [running i] is
    the value of [self.running] when the thread has received summary [i],
    [raised] how the generator ends after [items]. *)
Fixpoint thread_loop (mask_first_hops : bool) (running : nat -> bool) (i : nat)
    (items : list mtr_yield) (raised : option py_exn) : list thread_signal :=
  match items with
  | [] =>
      match raised with
      | None => [finished_signal true]
      | Some e => [update_signal (error_update (str_of_exn e));
                   finished_signal false]
      end
  | (_, _, all_hops_data) :: rest =>
      if negb (running i) then [finished_signal false]
      else
        update_signal
          (hops_update (map (if mask_first_hops then mask_hop else plain_hop)
                            all_hops_data))
        :: thread_loop mask_first_hops running (S i) rest raised
  end.

Definition DEFAULT_TIMEOUT : Q := 3.

(** [MTRThread.run]: the thread calls [mtr] with the default timeout and
    protocol. *)
Definition MTRThread_run (format_float : nat -> Q -> string)
    (str_of_float : Q -> string) (float_of_str : string -> option Q)
    (stdev : list Q -> Q) (w : world) (worlds : nat -> world)
    (target : string) (max_hops : Z) (resolve_dns mask_first_hops : bool)
    (ping_count : Z) (ipv6 : bool) (running : nat -> bool)
  : list thread_signal :=
  let r := mtr format_float str_of_float float_of_str stdev w worlds target
               ping_count max_hops DEFAULT_TIMEOUT resolve_dns "icmp" ipv6 in
  thread_loop mask_first_hops running 0 (mtr_yielded r) (mtr_raised r).

(** ** Iterating a generator

    A call of a generator function runs nothing of its body; the body runs
    from the first [next()] on.  [next_item r k] is what the [k]-th
    [next()] (from 0) on the generator of the run [r] gives: the next
    yielded tuple, the exception that ends the run, or [StopIteration]. *)
Inductive step :=
| step_yield (y : yield_item)
| step_raise (e : py_exn)
| step_stop.

Definition next_item (r : run) (k : nat) : step :=
  match yielded r !! k with
  | Some y => step_yield y
  | None =>
      if (k =? length (yielded r))%nat then
        match raised r with
        | Some e => step_raise e
        | None => step_stop
        end
      else step_stop
  end.

(** * Properties *)

(** ** Packet codec *)

Lemma length_be_bytes n v : length (be_bytes n v) = n.
Proof. induction n as [|n IH]; simpl; [reflexivity | now rewrite IH]. Qed.

Lemma pack_field_ok c v :
  0 <= v < 2 ^ (8 * Z.of_nat (fmt_width c)) ->
  pack_field c v = Some (be_bytes (fmt_width c) v).
Proof.
  intros [Hlo Hhi]. unfold pack_field.
  apply Z.leb_le in Hlo. apply Z.ltb_lt in Hhi.
  now rewrite Hlo, Hhi.
Qed.

Lemma pack_field_out_of_range c v :
  2 ^ (8 * Z.of_nat (fmt_width c)) <= v -> pack_field c v = None.
Proof.
  intros Hhi. unfold pack_field.
  apply Z.ltb_ge in Hhi. rewrite Hhi. now rewrite andb_false_r.
Qed.

Lemma length_random_bytes rnd n : len (random_bytes rnd n) = Z.max 0 n.
Proof.
  unfold len, random_bytes. rewrite length_map, length_seq. lia.
Qed.

Lemma len_app {A} (l1 l2 : list A) : len (l1 ++ l2) = len l1 + len l2.
Proof. unfold len. rewrite length_app. lia. Qed.

Lemma len_pack_double now : len (pack_double now) = 8.
Proof. unfold len, pack_double. now rewrite length_be_bytes. Qed.

Lemma words16_nonneg data : Forall (fun w => 0 <= w) (words16 data).
Proof.
  induction data as [data IH] using (induction_ltof1 _ (@length _)).
  unfold ltof in IH.
  destruct data as [|hi [|lo rest]]; simpl; try constructor.
  - rewrite Z.shiftl_mul_pow2 by lia. unfold Z_of_byte. lia.
  - apply IH. simpl. lia.
Qed.

Lemma fold_left_add_nonneg ws acc :
  Forall (fun w => 0 <= w) ws -> 0 <= acc -> 0 <= fold_left Z.add ws acc.
Proof.
  intros H. revert acc. induction H as [|w ws Hw _ IH]; simpl; intros acc Hacc.
  - exact Hacc.
  - apply IH. lia.
Qed.

Lemma word_sum_nonneg data : 0 <= word_sum data.
Proof.
  unfold word_sum. apply fold_left_add_nonneg; [apply words16_nonneg | lia].
Qed.

Lemma fold_once_spec s :
  0 <= s -> 0 <= fold_once s /\ s - fold_once s = 65535 * (s / 65536).
Proof.
  intros Hs. unfold fold_once.
  change (Z.land s 65535) with (Z.land s (Z.ones 16)).
  rewrite Z.land_ones, Z.shiftr_div_pow2 by lia. change (2 ^ 16) with 65536.
  pose proof (Z.div_mod s 65536 ltac:(lia)).
  pose proof (Z.mod_pos_bound s 65536 ltac:(lia)).
  pose proof (Z.div_pos s 65536 Hs ltac:(lia)).
  lia.
Qed.

(** Folding with enough fuel ends below 2^16: the checksum of the design
    document is a 16-bit value. *)
Lemma fold_to_16_bound fuel s :
  0 <= s -> s < 65536 + Z.of_nat fuel -> 0 <= fold_to_16 fuel s < 65536.
Proof.
  revert s. induction fuel as [|fuel IH]; intros s Hs Hlt; simpl.
  - lia.
  - destruct (s <? 65536) eqn:E.
    + apply Z.ltb_lt in E. lia.
    + apply Z.ltb_ge in E.
      destruct (fold_once_spec s Hs) as [H0 Hd].
      assert (1 <= s / 65536) by (apply Z.div_le_lower_bound; lia).
      apply IH; lia.
Qed.

Lemma ones_complement_checksum_range data :
  0 <= ones_complement_checksum data < 65536.
Proof.
  unfold ones_complement_checksum.
  pose proof (word_sum_nonneg data) as Hs.
  pose proof (fold_to_16_bound (Z.to_nat (word_sum data)) (word_sum data) Hs ltac:(lia)).
  lia.
Qed.

Lemma calculate_checksum_unfold data :
  calculate_checksum data = (- fold_once (word_sum data) - 1) mod 65536.
Proof.
  transitivity (Z.land (Z.lnot (fold_once (word_sum data))) (Z.ones 16));
    [reflexivity|].
  rewrite Z.land_ones by lia. unfold Z.lnot.
  change (2 ^ 16) with 65536. f_equal; lia.
Qed.

Lemma calculate_checksum_range data : 0 <= calculate_checksum data < 65536.
Proof.
  rewrite calculate_checksum_unfold. apply Z.mod_pos_bound. lia.
Qed.

(** Where the single addition of the two halves leaves no carry, the code
    computes the checksum of the design document. *)
Lemma calculate_checksum_agrees data :
  fold_once (word_sum data) < 65536 ->
  calculate_checksum data = ones_complement_checksum data.
Proof.
  intros Hfit.
  pose proof (word_sum_nonneg data) as Hs.
  destruct (fold_once_spec _ Hs) as [H0 Hd].
  rewrite calculate_checksum_unfold. unfold ones_complement_checksum.
  set (s := word_sum data) in *.
  assert (Hfold : fold_to_16 (Z.to_nat s) s = fold_once s).
  { destruct (Z.to_nat s) as [|f] eqn:Ef.
    - assert (s = 0) by lia. subst s. simpl. now rewrite H.
    - simpl. destruct (s <? 65536) eqn:E.
      + apply Z.ltb_lt in E. rewrite Z.div_small in Hd by lia. lia.
      + destruct f as [|f]; simpl; [reflexivity|].
        apply Z.ltb_lt in Hfit. now rewrite Hfit. }
  rewrite Hfold.
  symmetry. apply Z.mod_unique_pos with (q := -1); lia.
Qed.

Lemma struct_pack_length fields bs :
  struct_pack fields = Some bs ->
  length bs = list_sum (map (fun f => fmt_width (fst f)) fields).
Proof.
  revert bs. induction fields as [|[c v] rest IH]; simpl; intros bs H.
  - now inversion H.
  - unfold pack_field in H.
    destruct ((0 <=? v) && (v <? 2 ^ (8 * Z.of_nat (fmt_width c)))); [|discriminate].
    destruct (struct_pack rest) as [bs'|]; [|discriminate].
    inversion H; subst. rewrite length_app, length_be_bytes.
    now rewrite (IH bs' eq_refl).
Qed.

Lemma struct_pack_cons_ok c v rest :
  0 <= v < 2 ^ (8 * Z.of_nat (fmt_width c)) ->
  struct_pack ((c, v) :: rest) =
  match struct_pack rest with
  | Some bs => Some (be_bytes (fmt_width c) v ++ bs)
  | None => None
  end.
Proof. intros H. simpl. now rewrite pack_field_ok. Qed.

Lemma icmp_header_ok type checksum packet_id sequence :
  0 <= type < 256 -> 0 <= checksum < 65536 ->
  0 <= packet_id < 65536 -> 0 <= sequence < 65536 ->
  struct_pack [(fmt_B, type); (fmt_B, 0); (fmt_H, checksum);
               (fmt_H, packet_id); (fmt_H, sequence)] =
  Some (be_bytes 1 type ++ be_bytes 1 0 ++ be_bytes 2 checksum ++
        be_bytes 2 packet_id ++ be_bytes 2 sequence ++ []).
Proof.
  intros. rewrite !struct_pack_cons_ok by (simpl; lia). reflexivity.
Qed.

(** The ICMPv4 builder on identifiers and sequence numbers that fit their
    16-bit fields. *)
Lemma create_icmp_packet_ok now rnd packet_id sequence packet_size :
  0 <= packet_id < 65536 -> 0 <= sequence < 65536 ->
  exists header padding,
    create_icmp_packet now rnd packet_id sequence packet_size =
      Some (header ++ pack_double now ++ padding) /\
    len header = 8 /\ len padding = Z.max 0 (packet_size - 16) /\
    header = be_bytes 1 8 ++ be_bytes 1 0 ++
             be_bytes 2 (calculate_checksum
                           ((be_bytes 1 8 ++ be_bytes 1 0 ++ be_bytes 2 0 ++
                             be_bytes 2 packet_id ++ be_bytes 2 sequence ++ [])
                            ++ pack_double now ++ padding)) ++
             be_bytes 2 packet_id ++ be_bytes 2 sequence ++ [].
Proof.
  intros Hid Hseq. unfold create_icmp_packet.
  rewrite icmp_header_ok by lia. cbn [mbind option_bind].
  set (header0 := be_bytes 1 8 ++ _).
  assert (Hlen0 : len header0 = 8) by reflexivity.
  rewrite Hlen0, len_pack_double.
  set (padding := random_bytes rnd _).
  rewrite icmp_header_ok by (try lia; apply calculate_checksum_range).
  cbn [mbind option_bind].
  eexists _, padding. split; [reflexivity|].
  split; [reflexivity|]. split; [|reflexivity].
  subst padding. rewrite length_random_bytes. lia.
Qed.

Lemma create_udp_packet_ok now rnd packet_id port packet_size :
  0 <= packet_id < 65536 -> 0 <= port < 65536 -> packet_size <= 65535 ->
  exists padding,
    create_udp_packet now rnd packet_id port packet_size =
      Some ((be_bytes 2 packet_id ++ be_bytes 2 port ++
             be_bytes 2 (Z.max 20 packet_size) ++ be_bytes 2 0 ++ []) ++
            (be_bytes 4 packet_id ++ []) ++ pack_double now ++ padding) /\
    len padding = Z.max 0 (packet_size - 20).
Proof.
  intros Hid Hport Hsize. unfold create_udp_packet.
  rewrite struct_pack_cons_ok by (simpl; lia). cbn [struct_pack mbind option_bind].
  set (id_bytes := be_bytes (fmt_width fmt_I) packet_id ++ []).
  assert (Hlen : len id_bytes = 4) by reflexivity.
  rewrite Hlen, len_pack_double.
  set (padding := random_bytes rnd _).
  assert (Hpad : len padding = Z.max 0 (packet_size - 20)).
  { subst padding. rewrite length_random_bytes. lia. }
  assert (Htotal : len (id_bytes ++ pack_double now ++ padding) + 8
                   = Z.max 20 packet_size).
  { rewrite !len_app, Hlen, len_pack_double, Hpad. lia. }
  rewrite Htotal.
  rewrite !pack_field_ok by (simpl; lia).
  exists padding. split; [reflexivity | exact Hpad].
Qed.

Lemma create_udp_packet_too_large now rnd packet_id port packet_size :
  65535 < packet_size ->
  create_udp_packet now rnd packet_id port packet_size = None.
Proof.
  intros Hsize. unfold create_udp_packet.
  destruct (struct_pack [(fmt_I, packet_id)]) as [id_bytes|] eqn:Eid;
    [|reflexivity].
  cbn [mbind option_bind].
  apply struct_pack_length in Eid. simpl in Eid.
  set (padding := random_bytes rnd _).
  assert (Htotal : len (id_bytes ++ pack_double now ++ padding) + 8 = packet_size).
  { rewrite !len_app, len_pack_double. subst padding.
    rewrite length_random_bytes, len_pack_double. unfold len. rewrite Eid. lia. }
  rewrite Htotal. cbn [struct_pack].
  rewrite (pack_field_out_of_range fmt_H packet_size) by (simpl; lia).
  destruct (pack_field fmt_H packet_id), (pack_field fmt_H port); reflexivity.
Qed.

Lemma create_icmp_packet_bad_identifier now rnd packet_id sequence packet_size :
  65535 < packet_id ->
  create_icmp_packet now rnd packet_id sequence packet_size = None.
Proof.
  intros Hid. unfold create_icmp_packet. cbn [struct_pack].
  rewrite (pack_field_out_of_range fmt_H packet_id) by (simpl; lia).
  reflexivity.
Qed.

(** C5.  [calculate_checksum] adds the high half of the word sum to the low
    half only once.  On the six bytes ff ff ff ff 00 01 the word sum is
    0x1ffff, the single addition gives 0x10000, and the function returns
    0xffff, while the one's-complement checksum of section 4.1 is 0xfffe.
    The same happens inside [create_icmp_packet] for identifier 0xffff,
    sequence 1, size 16 and the clock pattern 0x41dab62500000000: the
    header carries ff ff where the checksum over the header with a zero
    checksum field and the payload is ff fe. *)
Theorem calculate_checksum_drops_fold_carry :
  calculate_checksum [xff; xff; xff; xff; x00; x01] = 0xffff /\
  ones_complement_checksum [xff; xff; xff; xff; x00; x01] = 0xfffe /\
  create_icmp_packet 0x41dab62500000000 (fun _ => x00) 0xffff 1 16 =
    Some ([x08; x00; xff; xff; xff; xff; x00; x01] ++
          pack_double 0x41dab62500000000) /\
  ones_complement_checksum ([x08; x00; x00; x00; xff; xff; x00; x01] ++
                            pack_double 0x41dab62500000000) = 0xfffe.
Proof. repeat split; vm_compute; reflexivity. Qed.

(** C6, as stated, fails: a UDP packet of requested size 65536 is not
    built, because the length does not fit the 16-bit field of the header
    and [struct.pack] raises; likewise an identifier of 65536 makes the
    ICMP builder raise. *)
Lemma packet_builders_raise_out_of_range :
  create_udp_packet 0 (fun _ => x00) 1 33435 65536 = None /\
  create_icmp_packet 0 (fun _ => x00) 65536 1 64 = None.
Proof.
  split.
  - apply create_udp_packet_too_large. lia.
  - apply create_icmp_packet_bad_identifier. lia.
Qed.

(** C6, amended.  For an identifier, a sequence number and a port that fit
    their 16-bit header fields, [create_icmp_packet] returns a packet of
    length [max 16 requestedSize] for every requested size (exactly the
    requested size from 16 on, 16 below), and [create_udp_packet] returns a
    packet of length [max 20 requestedSize] for every requested size up to
    65535 (exactly the requested size from 20 on); above 65535 the UDP
    builder raises. *)
Theorem packet_length_within_field_ranges
    now rnd packet_id sequence port packet_size :
  0 <= packet_id < 65536 -> 0 <= sequence < 65536 -> 0 <= port < 65536 ->
  (exists pkt, create_icmp_packet now rnd packet_id sequence packet_size = Some pkt /\
               len pkt = Z.max 16 packet_size) /\
  (packet_size <= 65535 ->
   exists pkt, create_udp_packet now rnd packet_id port packet_size = Some pkt /\
               len pkt = Z.max 20 packet_size) /\
  (65535 < packet_size ->
   create_udp_packet now rnd packet_id port packet_size = None).
Proof.
  intros Hid Hseq Hport. repeat split.
  - destruct (create_icmp_packet_ok now rnd packet_id sequence packet_size Hid Hseq)
      as (header & padding & Heq & Hh & Hp & _).
    eexists. split; [exact Heq|].
    rewrite !len_app, Hh, Hp, len_pack_double. lia.
  - intros Hsize.
    destruct (create_udp_packet_ok now rnd packet_id port packet_size Hid Hport Hsize)
      as (padding & Heq & Hp).
    eexists. split; [exact Heq|].
    rewrite !len_app, Hp, len_pack_double. unfold len. simpl. lia.
  - apply create_udp_packet_too_large.
Qed.

Lemma packet_length_within_field_ranges_witness :
  (exists pkt, create_icmp_packet 0 (fun _ => x00) 1 1 64 = Some pkt /\
               len pkt = Z.max 16 64) /\
  (64 <= 65535 ->
   exists pkt, create_udp_packet 0 (fun _ => x00) 1 33435 64 = Some pkt /\
               len pkt = Z.max 20 64) /\
  (65535 < 64 -> create_udp_packet 0 (fun _ => x00) 1 33435 64 = None).
Proof.
  apply (packet_length_within_field_ranges 0 (fun _ => x00) 1 1 33435 64); lia.
Defined.

(** C7.  [create_icmpv6_packet] packs ['!BBHH'] with the values 128, 0, 0
    and the sequence number: the header has six bytes and the identifier
    is not in the packet at all, so the packet is the same for every
    identifier.  For identifier 0x1234, sequence 1 and size 16 the packet
    starts 80 00 00 00 00 01 and the timestamp follows at offset 6, where
    the ICMPv4 builder gives 08 00 ed ca 12 34 00 01 and the
    timestamp at offset 8. *)
Theorem create_icmpv6_packet_omits_identifier :
  (forall now rnd packet_id sequence packet_size,
     create_icmpv6_packet now rnd packet_id sequence packet_size =
     create_icmpv6_packet now rnd 0 sequence packet_size) /\
  create_icmpv6_packet 0x41dab62500000000 (fun _ => xaa) 0x1234 1 16 =
    Some ([x80; x00; x00; x00; x00; x01] ++
          pack_double 0x41dab62500000000 ++ [xaa; xaa]) /\
  create_icmp_packet 0x41dab62500000000 (fun _ => xaa) 0x1234 1 16 =
    Some ([x08; x00; xed; xca; x12; x34; x00; x01] ++
          pack_double 0x41dab62500000000).
Proof.
  split; [reflexivity|]. split; vm_compute; reflexivity.
Qed.

(** ** Hop discovery *)

Lemma retry_loop_silent probe remaining attempt :
  (forall a, (attempt <= a < attempt + remaining)%nat -> probe a = no_response) ->
  retry_loop probe remaining attempt = inr None.
Proof.
  revert attempt. induction remaining as [|n IH]; intros attempt H; simpl.
  - reflexivity.
  - rewrite (H attempt) by lia. apply IH. intros a Ha. apply H. lia.
Qed.

Lemma retry_loop_reply probe remaining attempt addr d :
  retry_loop probe remaining attempt = inr (Some (addr, d)) ->
  addr <> "" /\ exists a t, probe a = response addr d t.
Proof.
  revert attempt. induction remaining as [|n IH]; intros attempt H; simpl in H.
  - discriminate.
  - destruct (probe attempt) as [|addr' d' t|e] eqn:E.
    + eapply IH; eassumption.
    + case_bool_decide as Hempty.
      * eapply IH; eassumption.
      * inversion H; subst. split; [assumption|]. eauto.
    + discriminate.
Qed.

Lemma relay_passes_plain_records (l : list yield_item) :
  Forall (fun y => error y.1.1 = None /\ y.2 = false) l -> relay l = (l, None).
Proof.
  induction 1 as [|[[info p] d] l [He Hd] _ IH]; simpl in *.
  - reflexivity.
  - rewrite He, Hd, IH. reflexivity.
Qed.

Section DiscoveryProperties.

Variable format_float : nat -> Q -> string.

Local Abbreviation hop_loop' := (hop_loop format_float).
Local Abbreviation socket_traceroute' := (socket_traceroute format_float).
Local Abbreviation tracert_loop' := (tracert_loop format_float).
Local Abbreviation tracert_info' := (tracert_info format_float).

(** One silent hop: the loop yields the timeout record of that [ttl] and
    goes on at [ttl + 1] with the same set of visited addresses. *)
Lemma hop_loop_silent_step s env target_ip max_hops max_retries resolve_dns
    remaining ttl visited_ips :
  (forall attempt, (attempt < Z.to_nat max_retries)%nat ->
                   send_receive_packet env ttl attempt = no_response) ->
  set_hop_limit env ttl = None ->
  hop_loop' s env target_ip max_hops max_retries resolve_dns (S remaining) ttl visited_ips =
  ((timeout_info ttl, Qmin 1 (true_div ttl max_hops), false) ::
     fst (hop_loop' s env target_ip max_hops max_retries resolve_dns remaining
            (ttl + 1) visited_ips),
   snd (hop_loop' s env target_ip max_hops max_retries resolve_dns remaining
          (ttl + 1) visited_ips)).
Proof.
  intros Hsilent Hlimit. cbn [hop_loop].
  replace (match s with ICMPv6 => set_hop_limit env ttl | _ => None end)
    with (@None string) by (destruct s; congruence).
  rewrite retry_loop_silent by (intros a Ha; apply Hsilent; lia).
  destruct (hop_loop' _ _ _ _ _ _ _ _ _). reflexivity.
Qed.

Lemma hop_loop_all_silent s env target_ip max_hops max_retries resolve_dns
    remaining ttl visited_ips :
  (forall t attempt, send_receive_packet env t attempt = no_response) ->
  (forall t, set_hop_limit env t = None) ->
  hop_loop' s env target_ip max_hops max_retries resolve_dns remaining ttl visited_ips =
  (map (fun t => (timeout_info t, Qmin 1 (true_div t max_hops), false))
       (seqZ ttl (Z.of_nat remaining)),
   visited_ips).
Proof.
  intros Hsilent Hlimit. revert ttl.
  induction remaining as [|n IH]; intros ttl.
  - reflexivity.
  - rewrite hop_loop_silent_step by auto. rewrite IH. cbn [fst snd].
    rewrite (seqZ_cons ttl (Z.of_nat (S n))) by lia.
    replace (Z.pred (Z.of_nat (S n))) with (Z.of_nat n) by lia.
    reflexivity.
Qed.

Lemma hop_loop_star_free s env target_ip max_hops max_retries resolve_dns
    remaining ttl visited_ips :
  (forall t attempt addr d ty,
     send_receive_packet env t attempt = response addr d ty -> addr <> "*") ->
  "*" ∉ visited_ips ->
  ("*" ∉ snd (hop_loop' s env target_ip max_hops max_retries resolve_dns
                remaining ttl visited_ips)) /\
  (forall info p d,
     (info, p, d) ∈ fst (hop_loop' s env target_ip max_hops max_retries resolve_dns
                           remaining ttl visited_ips) ->
     ip info = Some (PyStr "*") -> warning info = None).
Proof.
  intros Hreal. revert ttl visited_ips.
  induction remaining as [|n IH]; intros ttl visited_ips Hfree.
  - simpl. split; [assumption|]. intros info p d Hin. inversion Hin.
  - cbn [hop_loop].
    destruct (match s with ICMPv6 => set_hop_limit env ttl | _ => None end).
    { simpl. split; [assumption|]. intros info p d Hin Hip.
      apply list_elem_of_singleton in Hin. inversion Hin; subst. discriminate. }
    destruct (retry_loop _ _ _) as [e|[[hop_ip best_delay]|]] eqn:Eretry.
    + simpl. split; [assumption|]. intros info p d Hin Hip.
      apply list_elem_of_singleton in Hin. inversion Hin; subst. discriminate.
    + apply retry_loop_reply in Eretry as [_ (a & ty & Hprobe)].
      pose proof (Hreal _ _ _ _ _ Hprobe) as Hne.
      case_bool_decide as Hseen.
      * simpl. split; [assumption|]. intros info p d Hin Hip.
        apply list_elem_of_singleton in Hin. inversion Hin; subst.
        simpl in Hip. congruence.
      * assert (Hfree' : "*" ∉ ({[hop_ip]} ∪ visited_ips : gset string)).
        { rewrite elem_of_union, elem_of_singleton.
          intros [Heq|Hin]; [congruence | contradiction]. }
        case_bool_decide as Hdest.
        -- simpl. split; [assumption|]. intros info p d Hin Hip.
           apply list_elem_of_singleton in Hin. inversion Hin; subst.
           simpl in Hip. congruence.
        -- destruct (IH (ttl + 1) _ Hfree') as [IHv IHy].
           destruct (hop_loop' _ _ _ _ _ _ _ _ _) as [ys final]. simpl in *.
           split; [assumption|]. intros info p d Hin Hip.
           apply elem_of_cons in Hin as [Hin|Hin].
           ++ inversion Hin; subst. simpl in Hip. congruence.
           ++ eauto.
    + destruct (IH (ttl + 1) _ Hfree) as [IHv IHy].
      destruct (hop_loop' _ _ _ _ _ _ _ _ _) as [ys final]. simpl in *.
      split; [assumption|]. intros info p d Hin Hip.
      apply elem_of_cons in Hin as [Hin|Hin].
      * inversion Hin; subst. reflexivity.
      * eauto.
Qed.

Lemma tracert_loop_star_free target_ip max_hops stdout current visited_ips :
  PyStr "*" ∉ visited_ips ->
  (PyStr "*" ∉ visited (snd (tracert_loop' target_ip max_hops stdout current
                                 visited_ips))) /\
  (forall info p d,
     (info, p, d) ∈ fst (tracert_loop' target_ip max_hops stdout current visited_ips) ->
     ip info = Some (PyStr "*") -> warning info = None).
Proof.
  revert current visited_ips.
  induction stdout as [|l rest IH]; intros current visited_ips Hfree.
  - simpl. split; [assumption|]. intros info p d Hin. inversion Hin.
  - destruct l as [| |hop_num_int hip hname rtts line]; cbn [tracert_loop].
    + apply IH; assumption.
    + apply IH; assumption.
    + set (looped := bool_decide (hip ≠ PyStr "*") && bool_decide (hip ∈ visited_ips)).
      set (visited' := if looped then visited_ips
                       else if bool_decide (hip ≠ PyStr "*") then {[hip]} ∪ visited_ips
                            else visited_ips).
      assert (Hfree' : PyStr "*" ∉ visited').
      { subst visited'. destruct looped; [assumption|].
        case_bool_decide as Hstar; [|assumption].
        rewrite elem_of_union, elem_of_singleton.
        intros [Heq|Hin]; [congruence | contradiction]. }
      assert (Hinfo : forall info,
                 info = (if looped
                         then with_warning "Routing loop detected"
                                (tracert_info' hop_num_int hip hname rtts line)
                         else tracert_info' hop_num_int hip hname rtts line) ->
                 ip info = Some (PyStr "*") -> warning info = None).
      { intros info -> Hip. subst looped.
        destruct (bool_decide (hip ≠ PyStr "*")) eqn:Ene; simpl in *.
        - apply bool_decide_eq_true in Ene.
          destruct (bool_decide (hip ∈ visited_ips)); simpl in Hip; congruence.
        - reflexivity. }
      destruct (max_hops =? 0).
      { simpl. split; [assumption|]. intros info p d Hin Hip.
        apply list_elem_of_singleton in Hin. inversion Hin; subst. discriminate. }
      case_bool_decide as Hdest.
      * simpl. split; [assumption|]. intros info p d Hin Hip.
        apply list_elem_of_singleton in Hin. inversion Hin; subst.
        eapply Hinfo; [reflexivity | assumption].
      * destruct (IH (current + 1) visited' Hfree') as [IHv IHy].
        destruct (tracert_loop' _ _ _ _ _) as [ys final]. simpl in *.
        split; [assumption|]. intros info p d Hin Hip.
        apply elem_of_cons in Hin as [Hin|Hin].
        -- inversion Hin; subst. eapply Hinfo; [reflexivity | assumption].
        -- eauto.
Qed.

(** C8, amended.  When every one of the [max_retries] attempts at a [ttl]
    returns no response, the raw-socket strategies yield, without raising,
    the record of that [ttl] whose address is the sentinel "*" and whose
    delay is the sentinel string "超时", marked neither as a loop nor as
    the destination, and the loop goes on at [ttl + 1] with the set of
    visited addresses unchanged.  (The sentinel string "Timeout" is the
    one the external-tool strategy writes for a hop whose address is
    "*".) *)
Theorem unanswered_hop_yields_timeout_record
    s env target_ip max_hops max_retries resolve_dns remaining ttl visited_ips :
  (forall attempt, (attempt < Z.to_nat max_retries)%nat ->
                   send_receive_packet env ttl attempt = no_response) ->
  set_hop_limit env ttl = None ->
  (exists ys final,
     hop_loop' s env target_ip max_hops max_retries resolve_dns remaining
       (ttl + 1) visited_ips = (ys, final) /\
     hop_loop' s env target_ip max_hops max_retries resolve_dns (S remaining)
       ttl visited_ips =
     (({| hop := Some ttl; ip := Some (PyStr "*"); hostname := Some "";
          delay := Some "超时"; ttl_key := None; raw_data := None;
          warning := None; error := None |},
       Qmin 1 (true_div ttl max_hops), false) :: ys, final)) /\
  (forall hop_num_int name rtt_values line,
     delay (tracert_info' hop_num_int (PyStr "*") name rtt_values line)
     = Some "Timeout").
Proof.
  intros Hsilent Hlimit. split.
  - rewrite hop_loop_silent_step by assumption.
    destruct (hop_loop' _ _ _ _ _ _ remaining _ _) as [ys final].
    exists ys, final. split; reflexivity.
  - reflexivity.
Qed.

(** C10.  In a raw-socket run whose responders never report the address
    "*", the sentinel is not in the set of visited addresses at the end of
    the run (the set only grows, so it never was), and no yielded record
    with address "*" carries a loop warning; in the external-tool run both
    hold for every output of the tool.  A raw-socket run in which no probe
    is answered yields exactly [max_hops] records, all with address "*" and
    none with a warning, and the entry point passes all of them on. *)
Theorem no_reply_stays_out_of_loop_detection
    s env target_ip max_hops max_retries resolve_dns stdout :
  (forall t attempt addr d ty,
     send_receive_packet env t attempt = response addr d ty -> addr <> "*") ->
  ("*" ∉ snd (hop_loop' s env target_ip max_hops max_retries resolve_dns
                (Z.to_nat max_hops) 1 ∅)) /\
  (forall info p d,
     (info, p, d) ∈ fst (hop_loop' s env target_ip max_hops max_retries resolve_dns
                           (Z.to_nat max_hops) 1 ∅) ->
     ip info = Some (PyStr "*") -> warning info = None) /\
  (PyStr "*" ∉ visited (snd (tracert_loop' target_ip max_hops stdout 0 ∅))) /\
  (forall info p d,
     (info, p, d) ∈ fst (tracert_loop' target_ip max_hops stdout 0 ∅) ->
     ip info = Some (PyStr "*") -> warning info = None) /\
  (open_socket env = None ->
   (forall t, set_hop_limit env t = None) ->
   (forall t attempt, send_receive_packet env t attempt = no_response) ->
   0 <= max_hops ->
   len (socket_traceroute' s env target_ip max_hops resolve_dns max_retries) = max_hops /\
   Forall (fun y : yield_item =>
             ip y.1.1 = Some (PyStr "*") /\ warning y.1.1 = None)
          (socket_traceroute' s env target_ip max_hops resolve_dns max_retries) /\
   relay (socket_traceroute' s env target_ip max_hops resolve_dns max_retries) =
     (socket_traceroute' s env target_ip max_hops resolve_dns max_retries, None)).
Proof.
  intros Hreal.
  destruct (hop_loop_star_free s env target_ip max_hops max_retries resolve_dns
              (Z.to_nat max_hops) 1 ∅ Hreal) as [Hv Hy];
    [apply not_elem_of_empty|].
  destruct (tracert_loop_star_free target_ip max_hops stdout 0 ∅) as [Hv' Hy'];
    [apply not_elem_of_empty|].
  repeat (split; [assumption|]).
  intros Hsock Hlimit Hsilent Hpos.
  unfold socket_traceroute. rewrite Hsock.
  rewrite hop_loop_all_silent by assumption. cbn [fst].
  split; [|split].
  - unfold len. rewrite length_map, length_seqZ. lia.
  - apply Forall_map, Forall_forall. intros t _. split; reflexivity.
  - apply relay_passes_plain_records.
    apply Forall_map, Forall_forall. intros t _. split; reflexivity.
Qed.

End DiscoveryProperties.

Lemma unanswered_hop_yields_timeout_record_witness :
  (exists ys final,
     hop_loop format_fixed ICMPv4 (path_env [Some "10.0.0.1"; None; Some "10.0.0.9"])
       "10.0.0.9" 5 3 false 3 (2 + 1) {["10.0.0.1"]} = (ys, final) /\
     hop_loop format_fixed ICMPv4 (path_env [Some "10.0.0.1"; None; Some "10.0.0.9"])
       "10.0.0.9" 5 3 false 4 2 {["10.0.0.1"]} =
     (({| hop := Some 2; ip := Some (PyStr "*"); hostname := Some "";
          delay := Some "超时"; ttl_key := None; raw_data := None;
          warning := None; error := None |},
       Qmin 1 (true_div 2 5), false) :: ys, final)) /\
  (forall hop_num_int name rtt_values line,
     delay (tracert_info format_fixed hop_num_int (PyStr "*") name rtt_values line)
     = Some "Timeout").
Proof.
  apply (unanswered_hop_yields_timeout_record format_fixed ICMPv4
           (path_env [Some "10.0.0.1"; None; Some "10.0.0.9"])
           "10.0.0.9" 5 3 false 3 2 {["10.0.0.1"]}).
  - intros attempt _. reflexivity.
  - reflexivity.
Defined.

(** C8, as stated, fails: with the second hop silent on all three attempts,
    the second record of the run has address "*" and delay "超时", which
    is not the string "Timeout"; the third record follows. *)
Lemma socket_timeout_delay_is_not_Timeout :
  exists info p d info3 p3 d3,
    yielded (run_traceroute silent_second_hop "10.0.0.9" 5 1%Q false "icmp" 3 false)
      !! 1%nat = Some (info, p, d) /\
    hop info = Some 2 /\ ip info = Some (PyStr "*") /\
    delay info = Some "超时" /\ delay info <> Some "Timeout" /\
    yielded (run_traceroute silent_second_hop "10.0.0.9" 5 1%Q false "icmp" 3 false)
      !! 2%nat = Some (info3, p3, d3) /\
    hop info3 = Some 3.
Proof.
  do 6 eexists. split; [vm_compute; reflexivity|].
  repeat split; try reflexivity. discriminate.
Qed.

Lemma no_reply_stays_out_of_loop_detection_witness :
  len (socket_traceroute format_fixed ICMPv4 silent_env "10.0.0.9" 5 false 3) = 5 /\
  Forall (fun y : yield_item =>
            ip y.1.1 = Some (PyStr "*") /\ warning y.1.1 = None)
         (socket_traceroute format_fixed ICMPv4 silent_env "10.0.0.9" 5 false 3) /\
  relay (socket_traceroute format_fixed ICMPv4 silent_env "10.0.0.9" 5 false 3) =
    (socket_traceroute format_fixed ICMPv4 silent_env "10.0.0.9" 5 false 3, None).
Proof.
  apply (no_reply_stays_out_of_loop_detection format_fixed ICMPv4 silent_env
           "10.0.0.9" 5 3 false
           [hop_line 1 (PyStr "*") PyNone [] "1  *  *  *  Request timed out."]).
  - intros t attempt addr d ty H. discriminate H.
  - reflexivity.
  - intros t. reflexivity.
  - intros t attempt. reflexivity.
  - lia.
Defined.

(** C1.  On the raw-socket path the record that reports a routing loop is
    yielded with [int((ttl / max_hops) * 100)] as its progress.  With
    [max_hops = 4] and the second hop answering from the address of the
    first, the run ends with a record whose progress is 50, outside
    [0, 1]; the record before it has progress 1/4.  Every other progress
    value of the entry point is in [0, 1], see
    [traceroute_progress_in_range]. *)
Theorem loop_record_progress_is_a_percentage :
  exists info1 info2 p,
    yielded (run_traceroute looping_path "10.0.0.9" 4 1%Q false "icmp" 3 false) =
      [(info1, (1 # 4)%Q, false); (info2, p, false)] /\
    warning info1 = None /\
    warning info2 = Some "检测到循环路由" /\
    (p == 50)%Q /\ ~ (p <= 1)%Q.
Proof.
  do 3 eexists. split; [vm_compute; reflexivity|].
  repeat split; try reflexivity. intros H. vm_compute in H. apply H. reflexivity.
Qed.

(** C2.  On the external-tool path a record marked as a routing loop does
    not end the run: with three hop lines, the second from the address of
    the first, the second record carries the loop warning and the third is
    still yielded.  The rest of the statement holds, see
    [traceroute_well_ended]: a destination record is last on every path, a
    loop record is last on the raw-socket paths, and a loop record repeats
    the address of an earlier record on every path. *)
Theorem tracert_run_continues_after_loop_record :
  map (fun y : yield_item => (hop y.1.1, ip y.1.1, warning y.1.1))
      (yielded (run_traceroute looping_tracert "10.0.0.9" 30 1%Q false "icmp" 3 false)) =
  [(Some 1, Some (PyStr "10.0.0.1"), None);
   (Some 2, Some (PyStr "10.0.0.1"), Some "Routing loop detected");
   (Some 3, Some (PyStr "10.0.0.2"), None)].
Proof. vm_compute. reflexivity. Qed.

(** Scenario A of the design document: the fourth hop is the target, the
    run yields four records and the last has the destination flag and
    progress 1. *)
Example scenario_A :
  map (fun y : yield_item => (hop y.1.1, ip y.1.1, y.1.2, y.2))
      (yielded (run_traceroute four_hops "93.184.216.34" 5 1%Q false "icmp" 3 false)) =
  [(Some 1, Some (PyStr "10.0.0.1"), (1 # 5)%Q, false);
   (Some 2, Some (PyStr "10.0.1.1"), (2 # 5)%Q, false);
   (Some 3, Some (PyStr "10.0.2.1"), (3 # 5)%Q, false);
   (Some 4, Some (PyStr "93.184.216.34"), 1%Q, true)].
Proof. vm_compute. reflexivity. Qed.

(** Scenario C of the design document, on the raw-socket path: the third
    hop repeats the address of the first, its record carries the loop
    warning and no record for the fourth hop follows. *)
Example scenario_C :
  map (fun y : yield_item => (hop y.1.1, ip y.1.1, warning y.1.1))
      (yielded (run_traceroute loop_at_third_hop "10.0.0.9" 5 1%Q false "icmp" 3 false)) =
  [(Some 1, Some (PyStr "10.0.0.1"), None);
   (Some 2, Some (PyStr "10.0.1.1"), None);
   (Some 3, Some (PyStr "10.0.0.1"), Some "检测到循环路由")].
Proof. vm_compute. reflexivity. Qed.

(** ** How runs end, and the range of the progress value *)

Lemma well_ended_nil b seen : well_ended b seen [].
Proof. intros i info p d H. discriminate H. Qed.

Lemma well_ended_last b seen (x : yield_item) :
  (is_Some (warning x.1.1) -> exists v, ip x.1.1 = Some v /\ seen v) ->
  well_ended b seen [x].
Proof.
  intros Hx i info p d Hi.
  destruct i as [|i]; [|destruct i; discriminate Hi].
  inversion Hi; subst. cbn in Hx. split; [reflexivity|].
  intros Hw. split; [reflexivity|].
  destruct (Hx Hw) as (v & Hv & Hseen). eauto.
Qed.

Lemma well_ended_cons b (seen seen' : py_str -> Prop) (x : yield_item) ys :
  x.2 = false ->
  (is_Some (warning x.1.1) ->
   b = false /\ exists v, ip x.1.1 = Some v /\ seen v) ->
  (forall v, seen' v -> seen v \/ ip x.1.1 = Some v) ->
  well_ended b seen' ys ->
  well_ended b seen (x :: ys).
Proof.
  intros Hd Hx Hseen Hys i info p d Hi.
  destruct i as [|i].
  - inversion Hi; subst. cbn in Hd, Hx. split; [congruence|].
    intros Hw. destruct (Hx Hw) as (-> & v & Hv & Hs).
    split; [discriminate | eauto].
  - cbn in Hi. destruct (Hys i info p d Hi) as [Hdest Hloop].
    split; [intros Hdt; cbn; now rewrite Hdest|].
    intros Hw. destruct (Hloop Hw) as (Hstop & v & Hv & Hwhere).
    split; [intros Hb; cbn; now rewrite Hstop|].
    exists v. split; [assumption|].
    destruct Hwhere as [Hs|(j & y & Hj & Hy & Hyv)].
    + destruct (Hseen v Hs) as [Hs'|Hx'].
      * now left.
      * right. exists 0%nat, x. repeat split; [lia | assumption].
    + right. exists (S j), y. repeat split; [lia | assumption | assumption].
Qed.

Lemma well_ended_prefix b seen (l' l : list yield_item) :
  l' `prefix_of` l -> well_ended b seen l -> well_ended b seen l'.
Proof.
  intros [rest ->] Hl i info p d Hi.
  pose proof (lookup_lt_Some _ _ _ Hi) as Hlt.
  assert (Hi' : (l' ++ rest) !! i = Some (info, p, d))
    by (now rewrite lookup_app_l).
  destruct (Hl i info p d Hi') as [Hdest Hloop].
  rewrite length_app in Hdest, Hloop. unfold yield_item in *.
  split; [intros Hd; specialize (Hdest Hd); lia|].
  intros Hw. destruct (Hloop Hw) as (Hstop & v & Hv & Hwhere).
  split; [intros Hb; specialize (Hstop Hb); lia|].
  exists v. split; [assumption|].
  destruct Hwhere as [Hs|(j & y & Hj & Hy & Hyv)]; [now left|].
  right. exists j, y. repeat split; try assumption.
  rewrite lookup_app_l in Hy by lia. assumption.
Qed.

Lemma well_ended_weaken b (seen seen' : py_str -> Prop) ys :
  (forall v, seen v -> seen' v) -> well_ended b seen ys -> well_ended b seen' ys.
Proof.
  intros Himp Hys i info p d Hi.
  destruct (Hys i info p d Hi) as [Hdest Hloop]. split; [assumption|].
  intros Hw. destruct (Hloop Hw) as (Hstop & v & Hv & Hwhere).
  split; [assumption|]. exists v. split; [assumption|].
  destruct Hwhere as [Hs|Hearlier]; [left; auto | now right].
Qed.

Lemma relay_prefix (l : list yield_item) : fst (relay l) `prefix_of` l.
Proof.
  induction l as [|[[info p] d] l IH]; simpl.
  - reflexivity.
  - destruct (error info); [apply prefix_nil|].
    destruct d.
    + exists l. reflexivity.
    + destruct (relay l) as [ys r]. simpl in *. now apply prefix_cons.
Qed.

Lemma true_div_nonneg a b : 0 <= a -> 0 < b -> (0 <= true_div a b)%Q.
Proof.
  intros Ha Hb. unfold true_div, Qdiv.
  apply Qmult_le_0_compat; [|apply Qinv_le_0_compat];
    rewrite <- (Zle_Qle 0); lia.
Qed.

Lemma clamped_progress_in_range a b :
  0 <= a -> 0 < b -> unit_interval (Qmin 1 (true_div a b)).
Proof.
  intros Ha Hb. split.
  - apply Q.min_glb; [discriminate | now apply true_div_nonneg].
  - apply Q.le_min_l.
Qed.

Lemma unit_interval_0 : unit_interval 0.
Proof. split; discriminate. Qed.

Lemma unit_interval_1 : unit_interval 1.
Proof. split; discriminate. Qed.

(** A list of one yielded tuple. *)
Ltac one_record := cbn [fst]; constructor; [|constructor]; cbn.

Section RunShape.

Variable format_float : nat -> Q -> string.

Local Abbreviation hop_loop' := (hop_loop format_float).
Local Abbreviation tracert_loop' := (tracert_loop format_float).

(** The raw-socket loop: a destination record and a loop record are last,
    and a loop record repeats a visited address. *)
Lemma hop_loop_well_ended s env target_ip max_hops max_retries resolve_dns
    remaining ttl visited_ips :
  well_ended true (seen_in visited_ips)
    (fst (hop_loop' s env target_ip max_hops max_retries resolve_dns
            remaining ttl visited_ips)).
Proof.
  revert ttl visited_ips.
  induction remaining as [|n IH]; intros ttl visited_ips.
  - apply well_ended_nil.
  - cbn [hop_loop].
    destruct (match s with ICMPv6 => set_hop_limit env ttl | _ => None end).
    { apply well_ended_last. cbn. intros [w Hw]. discriminate. }
    destruct (retry_loop _ _ _) as [e|[[hop_ip best_delay]|]].
    + apply well_ended_last. cbn. intros [w Hw]. discriminate.
    + case_bool_decide as Hseen.
      * apply well_ended_last. cbn. intros _.
        exists (PyStr hop_ip). split; [reflexivity|]. exists hop_ip. auto.
      * case_bool_decide as Hdest.
        -- apply well_ended_last. cbn. intros [w Hw]. discriminate.
        -- specialize (IH (ttl + 1) ({[hop_ip]} ∪ visited_ips)).
           destruct (hop_loop _ _ _ _ _ _ _ _ _ _) as [ys final]. cbn [fst] in *.
           eapply well_ended_cons; [reflexivity | | | exact IH].
           ++ cbn. intros [w Hw]. discriminate.
           ++ intros v (a & -> & Ha). cbn.
              apply elem_of_union in Ha as [Ha|Ha].
              ** apply elem_of_singleton in Ha. subst. now right.
              ** left. exists a. auto.
    + specialize (IH (ttl + 1) visited_ips).
      destruct (hop_loop _ _ _ _ _ _ _ _ _ _) as [ys final]. cbn [fst] in *.
      eapply well_ended_cons; [reflexivity | | | exact IH].
      * cbn. intros [w Hw]. discriminate.
      * intros v Hv. now left.
Qed.

(** The loop over the output of [tracert]: a destination record is last,
    and a loop record repeats a visited address. *)
Lemma tracert_loop_well_ended target_ip max_hops stdout current visited_ips :
  well_ended false (fun v => v ∈ visited_ips)
    (fst (tracert_loop' target_ip max_hops stdout current visited_ips)).
Proof.
  revert current visited_ips.
  induction stdout as [|l rest IH]; intros current visited_ips.
  - apply well_ended_nil.
  - destruct l as [| |hop_num_int hip hname rtts line]; cbn [tracert_loop].
    + apply IH.
    + apply IH.
    + set (looped := bool_decide (hip ≠ PyStr "*") && bool_decide (hip ∈ visited_ips)).
      set (visited' := if looped then visited_ips
                       else if bool_decide (hip ≠ PyStr "*") then {[hip]} ∪ visited_ips
                            else visited_ips).
      set (info := if looped
                   then with_warning "Routing loop detected"
                          (tracert_info format_float hop_num_int hip hname rtts line)
                   else tracert_info format_float hop_num_int hip hname rtts line).
      assert (Hip : ip info = Some hip) by (subst info; destruct looped; reflexivity).
      assert (Hwarn : is_Some (warning info) -> hip ∈ visited_ips).
      { subst info looped. intros [w Hw].
        destruct (bool_decide (hip ≠ PyStr "*")); cbn in Hw; [|discriminate].
        destruct (bool_decide (hip ∈ visited_ips)) eqn:E; cbn in Hw; [|discriminate].
        now apply bool_decide_eq_true in E. }
      assert (Hgrow : forall v, v ∈ visited' -> v ∈ visited_ips \/ ip info = Some v).
      { intros v Hv. subst visited'. destruct looped; [now left|].
        destruct (bool_decide (hip ≠ PyStr "*")); [|now left].
        apply elem_of_union in Hv as [Hv|Hv]; [|now left].
        apply elem_of_singleton in Hv. subst. now right. }
      destruct (max_hops =? 0).
      { apply well_ended_last. cbn. intros [w Hw]. discriminate. }
      case_bool_decide as Hdest.
      * apply well_ended_last. cbn. intros Hw. eauto.
      * specialize (IH (current + 1) visited').
        destruct (tracert_loop _ _ _ _ _ _) as [ys final]. cbn [fst] in *.
        eapply well_ended_cons; [reflexivity | | exact Hgrow | exact IH].
        cbn. intros Hw. split; [reflexivity|]. eauto.
Qed.

Lemma tracert_loop_counts target_ip max_hops stdout current visited_ips c :
  current_hop (snd (tracert_loop' target_ip max_hops stdout current visited_ips))
  = Some c ->
  current + len (fst (tracert_loop' target_ip max_hops stdout current visited_ips)) <= c.
Proof.
  revert current visited_ips.
  induction stdout as [|l rest IH]; intros current visited_ips Hc.
  - cbn in *. inversion Hc. unfold len. cbn. lia.
  - destruct l as [| |hop_num_int hip hname rtts line]; cbn [tracert_loop] in *.
    + apply IH, Hc.
    + specialize (IH _ _ Hc). lia.
    + destruct (max_hops =? 0); [discriminate Hc|].
      case_bool_decide as Hdest.
      * cbn in *. inversion Hc. unfold len. cbn. lia.
      * destruct (tracert_loop _ _ _ _ _ _) as [ys final] eqn:E.
        cbn [fst snd] in *.
        match type of E with
        | tracert_loop _ _ _ _ _ ?v = _ => specialize (IH (current + 1) v)
        end.
        rewrite E in IH. specialize (IH Hc). unfold len in *. cbn in *. lia.
Qed.

(** Without a loop warning the progress of a raw-socket record is in
    [0, 1]. *)
Lemma hop_loop_progress s env target_ip max_hops max_retries resolve_dns
    remaining ttl visited_ips :
  0 <= ttl -> 0 < max_hops ->
  Forall (fun y : yield_item => warning y.1.1 = None -> unit_interval y.1.2)
    (fst (hop_loop' s env target_ip max_hops max_retries resolve_dns
            remaining ttl visited_ips)).
Proof.
  intros Httl Hmax. revert ttl Httl visited_ips.
  induction remaining as [|n IH]; intros ttl Httl visited_ips.
  - constructor.
  - cbn [hop_loop].
    destruct (match s with ICMPv6 => set_hop_limit env ttl | _ => None end).
    { one_record. intros _. apply unit_interval_0. }
    destruct (retry_loop _ _ _) as [e|[[hop_ip best_delay]|]].
    + one_record. intros _. apply unit_interval_0.
    + case_bool_decide as Hseen.
      * one_record. discriminate.
      * case_bool_decide as Hdest.
        -- one_record. intros _. apply unit_interval_1.
        -- specialize (IH (ttl + 1) ltac:(lia) ({[hop_ip]} ∪ visited_ips)).
           destruct (hop_loop _ _ _ _ _ _ _ _ _ _) as [ys final]. cbn [fst] in *.
           constructor; [|exact IH]. cbn. intros _.
           now apply clamped_progress_in_range.
    + specialize (IH (ttl + 1) ltac:(lia) visited_ips).
      destruct (hop_loop _ _ _ _ _ _ _ _ _ _) as [ys final]. cbn [fst] in *.
      constructor; [|exact IH]. cbn. intros _.
      now apply clamped_progress_in_range.
Qed.

(** The progress of every record of the external-tool loop is in [0, 1]. *)
Lemma tracert_loop_progress target_ip max_hops stdout current visited_ips :
  0 <= current -> 0 < max_hops ->
  Forall (fun y : yield_item => unit_interval y.1.2)
    (fst (tracert_loop' target_ip max_hops stdout current visited_ips)).
Proof.
  intros Hcur Hmax. revert current Hcur visited_ips.
  induction stdout as [|l rest IH]; intros current Hcur visited_ips.
  - constructor.
  - destruct l as [| |hop_num_int hip hname rtts line]; cbn [tracert_loop].
    + now apply IH.
    + apply IH. lia.
    + destruct (max_hops =? 0); [one_record; apply unit_interval_0|].
      case_bool_decide as Hdest.
      * one_record. apply unit_interval_1.
      * match goal with
        | |- context [tracert_loop _ _ _ _ _ ?v] =>
            specialize (IH (current + 1) ltac:(lia) v)
        end.
        destruct (tracert_loop _ _ _ _ _ _) as [ys final]. cbn [fst] in *.
        constructor; [|exact IH]. cbn.
        apply clamped_progress_in_range; lia.
Qed.

End RunShape.

(** ** The entry point *)

Section EntryPoint.

Variable format_float : nat -> Q -> string.
Variable str_of_float : Q -> string.

Local Abbreviation traceroute' := (traceroute format_float str_of_float).

(** C4, amended.  A transport kind outside udp, icmp, tcp, a [max_hops]
    outside 1..255 or a timeout that is not positive makes the run of
    [traceroute] end in [ValueError] with nothing done and nothing
    yielded: no address resolution, no probe.  [traceroute] is a
    generator, so the error is raised by the first [next()], not by the
    call.  The kind tcp passes this check although no strategy implements
    it.  With valid [max_hops] and [timeout], on the raw-socket platform
    its run resolves the address and then yields one error record, with no
    socket opened, no probe sent and nothing raised; on the platform of
    the external tool the kind is not consulted after the check, and the
    run is the one of every other accepted kind: it starts the tool. *)
Theorem traceroute_fails_fast_on_invalid_parameters
    w target max_hops timeout resolve_dns protocol max_retries ipv6 :
  (protocol ∉ ["udp"; "icmp"; "tcp"] \/ max_hops < 1 \/ 255 < max_hops \/
   (timeout <= 0)%Q ->
   exists msg,
     traceroute' w target max_hops timeout resolve_dns protocol max_retries ipv6 =
     {| io := []; yielded := []; raised := Some (ValueError msg) |} /\
     next_item (traceroute' w target max_hops timeout resolve_dns protocol
                  max_retries ipv6) 0
     = step_raise (ValueError msg)) /\
  (protocol = "tcp" -> 1 <= max_hops <= 255 -> (0 < timeout)%Q ->
   match platform_system w with
   | Posix =>
       exists msg,
         traceroute' w target max_hops timeout resolve_dns protocol max_retries
           ipv6
         = {| io := [io_getaddrinfo target];
              yielded := [(error_info msg, 0%Q, false)];
              raised := None |}
   | Windows =>
       forall other, other ∈ ["udp"; "icmp"; "tcp"] ->
         traceroute' w target max_hops timeout resolve_dns protocol max_retries
           ipv6
         = traceroute' w target max_hops timeout resolve_dns other max_retries
             ipv6
   end).
Proof.
  split.
  - intros Hbad. unfold next_item, traceroute.
    case_bool_decide as Hproto; cbn [negb];
      [|eexists; split; reflexivity].
    destruct ((max_hops <? 1) || (max_hops >? 255)) eqn:Ehops;
      [eexists; split; reflexivity|].
    destruct (Qle_bool timeout 0) eqn:Etimeout; [eexists; split; reflexivity|].
    exfalso. apply orb_false_elim in Ehops as [Hlo Hhi].
    apply Z.ltb_ge in Hlo. rewrite Z.gtb_ltb in Hhi. apply Z.ltb_ge in Hhi.
    destruct Hbad as [Hbad|[Hbad|[Hbad|Hbad]]]; try lia.
    + contradiction.
    + apply Qle_bool_iff in Hbad. congruence.
  - intros -> Hhops Htime. unfold traceroute.
    rewrite (bool_decide_eq_true_2 ("tcp" ∈ ["udp"; "icmp"; "tcp"]))
      by (repeat constructor).
    cbn [negb].
    replace ((max_hops <? 1) || (max_hops >? 255)) with false
      by (symmetry; apply orb_false_iff; split;
          [apply Z.ltb_ge | rewrite Z.gtb_ltb; apply Z.ltb_ge]; lia).
    replace (Qle_bool timeout 0) with false.
    2:{ symmetry. apply not_true_is_false. intros H.
        apply Qle_bool_iff in H. apply (Qlt_not_le _ _ Htime H). }
    destruct (platform_system w).
    + intros other Hother. rewrite (bool_decide_eq_true_2 _ Hother). reflexivity.
    + assert (Hnone : forall v, choose_strategy "tcp" v = None)
        by (intros v; reflexivity).
      destruct (getaddrinfo w None target) as [res|e|e]; [|eauto|eauto].
      destruct (select_address ipv6 res None None) as [[target_ip|] ip_version];
        [|eauto].
      rewrite Hnone. eauto.
Qed.

(** X10.  Every run of the entry point ends well: a destination record is
    the last record on every path, a loop record repeats the address of an
    earlier record on every path, and on the raw-socket paths a loop
    record is the last record. *)
Lemma traceroute_well_ended
    w target max_hops timeout resolve_dns protocol max_retries ipv6 :
  well_ended (stops_on_loop w) (fun _ => False)
    (yielded (traceroute' w target max_hops timeout resolve_dns protocol
                max_retries ipv6)).
Proof.
  assert (Herr : forall b msg,
             well_ended b (fun _ => False) [(error_info msg, 0%Q, false)]).
  { intros b msg. apply well_ended_last. cbn. intros [x Hx]. discriminate. }
  unfold traceroute.
  destruct (negb _); [apply well_ended_nil|].
  destruct (_ || _); [apply well_ended_nil|].
  destruct (Qle_bool timeout 0); [apply well_ended_nil|].
  destruct (match getaddrinfo w None target with
            | gai_list res =>
                match select_address ipv6 res None None with
                | (Some target_ip, ip_version) => inr (target_ip, ip_version)
                | (None, _) => inl (ERROR_ADDRESS_RESOLUTION "无法解析目标地址")
                end
            | gai_error e => inl (ERROR_ADDRESS_RESOLUTION e)
            | gai_exception e => inl e
            end) as [msg|[target_ip ip_version]]; [apply Herr|].
  unfold stops_on_loop. destruct (platform_system w); cbn [yielded].
  - unfold _windows_tracert. destruct (tracert w) as [e|stdout stderr code];
      [apply Herr|].
    pose proof (tracert_loop_well_ended format_float target_ip max_hops stdout 0 ∅)
      as Hloop.
    pose proof (tracert_loop_counts format_float target_ip max_hops stdout 0 ∅)
      as Hcount.
    destruct (tracert_loop _ _ _ _ _ _) as [ys final]. cbn [fst snd] in *.
    assert (Hys : well_ended false (fun _ => False) ys).
    { eapply well_ended_weaken; [|exact Hloop].
      intros v Hv. exact (not_elem_of_empty v Hv). }
    destruct (current_hop final) as [c|]; [|exact Hys].
    destruct (_ && _) eqn:E; [|exact Hys].
    apply andb_true_iff in E as [_ E]. apply Z.eqb_eq in E. subst c.
    specialize (Hcount 0 eq_refl).
    destruct ys; [apply Herr | unfold len in Hcount; cbn in Hcount; lia].
  - destruct (choose_strategy protocol ip_version) as [s|]; [|apply Herr].
    pose proof (relay_prefix (socket_traceroute format_float s (network w)
                                target_ip max_hops resolve_dns max_retries))
      as Hprefix.
    destruct (relay _) as [ys r]. cbn [fst yielded] in *.
    eapply well_ended_prefix; [exact Hprefix|].
    unfold socket_traceroute. destruct (open_socket (network w)); [apply Herr|].
    eapply well_ended_weaken;
      [|apply (hop_loop_well_ended format_float)].
    intros v (a & _ & Ha). exact (not_elem_of_empty a Ha).
Qed.

(** X11.  Every progress value that the entry point yields is in [0, 1],
    except on the record with a loop warning of a raw-socket run. *)
Lemma traceroute_progress_in_range
    w target max_hops timeout resolve_dns protocol max_retries ipv6 :
  Forall (fun y : yield_item =>
            stops_on_loop w = false \/ warning y.1.1 = None ->
            unit_interval y.1.2)
    (yielded (traceroute' w target max_hops timeout resolve_dns protocol
                max_retries ipv6)).
Proof.
  assert (Herr : forall msg,
             Forall (fun y : yield_item =>
                       stops_on_loop w = false \/ warning y.1.1 = None ->
                       unit_interval y.1.2)
                    [(error_info msg, 0%Q, false)]).
  { intros msg. constructor; [|constructor]. intros _. apply unit_interval_0. }
  unfold traceroute.
  destruct (negb _); [constructor|].
  destruct (_ || _) eqn:Ehops; [constructor|].
  apply orb_false_elim in Ehops as [Hlo _]. apply Z.ltb_ge in Hlo.
  destruct (Qle_bool timeout 0); [constructor|].
  destruct (match getaddrinfo w None target with
            | gai_list res =>
                match select_address ipv6 res None None with
                | (Some target_ip, ip_version) => inr (target_ip, ip_version)
                | (None, _) => inl (ERROR_ADDRESS_RESOLUTION "无法解析目标地址")
                end
            | gai_error e => inl (ERROR_ADDRESS_RESOLUTION e)
            | gai_exception e => inl e
            end) as [msg|[target_ip ip_version]]; [apply Herr|].
  unfold stops_on_loop in *. destruct (platform_system w); cbn [yielded].
  - unfold _windows_tracert. destruct (tracert w) as [e|stdout stderr code];
      [apply Herr|].
    pose proof (tracert_loop_progress format_float target_ip max_hops stdout 0 ∅
                  ltac:(lia) ltac:(lia)) as Hloop.
    destruct (tracert_loop _ _ _ _ _ _) as [ys final]. cbn [fst] in *.
    assert (Hys : Forall (fun y : yield_item =>
                            false = false \/ warning y.1.1 = None ->
                            unit_interval y.1.2) ys).
    { eapply Forall_impl; [exact Hloop|]. cbn. auto. }
    destruct (current_hop final) as [c|]; [|exact Hys].
    destruct (_ && _); [|exact Hys].
    apply Forall_app. split; [exact Hys | apply Herr].
  - destruct (choose_strategy protocol ip_version) as [s|]; [|apply Herr].
    pose proof (relay_prefix (socket_traceroute format_float s (network w)
                                target_ip max_hops resolve_dns max_retries))
      as [rest Hprefix].
    destruct (relay _) as [ys r]. cbn [fst yielded] in *.
    assert (Hall : Forall (fun y : yield_item =>
                             true = false \/ warning y.1.1 = None ->
                             unit_interval y.1.2)
                     (socket_traceroute format_float s (network w) target_ip
                        max_hops resolve_dns max_retries)).
    { unfold socket_traceroute. destruct (open_socket (network w)); [apply Herr|].
      eapply Forall_impl;
        [apply (hop_loop_progress format_float); lia|].
      cbn. intros y Hy [Hf|Hw]; [discriminate | auto]. }
    rewrite Hprefix in Hall. now apply Forall_app in Hall as [Hall _].
Qed.

End EntryPoint.

Lemma traceroute_fails_fast_on_invalid_parameters_witness :
  (exists msg,
     run_traceroute silent_second_hop "10.0.0.9" 0 1%Q false "sctp" 3 false =
     {| io := []; yielded := []; raised := Some (ValueError msg) |} /\
     next_item (run_traceroute silent_second_hop "10.0.0.9" 0 1%Q false "sctp"
                  3 false) 0
     = step_raise (ValueError msg)) /\
  (exists msg,
     run_traceroute silent_second_hop "10.0.0.9" 30 1%Q false "tcp" 3 false
     = {| io := [io_getaddrinfo "10.0.0.9"];
          yielded := [(error_info msg, 0%Q, false)];
          raised := None |}).
Proof.
  split.
  - apply (traceroute_fails_fast_on_invalid_parameters format_fixed (format_fixed 1)
             silent_second_hop "10.0.0.9" 0 1%Q false "sctp" 3 false).
    right. left. lia.
  - apply (traceroute_fails_fast_on_invalid_parameters format_fixed (format_fixed 1)
             silent_second_hop "10.0.0.9" 30 1%Q false "tcp" 3 false);
      [reflexivity | lia | reflexivity].
Defined.

(** C4, as stated, fails for the kind tcp, which the claim counts among
    the unsupported ones.  On the platform of the external tool the run
    for tcp starts [tracert], raises nothing and yields the three hop
    records that the tool prints; on the raw-socket platform it raises
    nothing either and yields a record, the error record, after the
    address resolution. *)
Lemma tcp_passes_the_parameter_check :
  io (run_traceroute looping_tracert "10.0.0.9" 30 1%Q false "tcp" 3 false)
  = [io_getaddrinfo "10.0.0.9"; io_tracert "10.0.0.9"] /\
  raised (run_traceroute looping_tracert "10.0.0.9" 30 1%Q false "tcp" 3 false)
  = None /\
  map (fun y : yield_item => (hop y.1.1, ip y.1.1, error y.1.1))
      (yielded (run_traceroute looping_tracert "10.0.0.9" 30 1%Q false "tcp" 3
                  false))
  = [(Some 1, Some (PyStr "10.0.0.1"), None);
     (Some 2, Some (PyStr "10.0.0.1"), None);
     (Some 3, Some (PyStr "10.0.0.2"), None)] /\
  run_traceroute four_hops "93.184.216.34" 30 1%Q false "tcp" 3 false
  = {| io := [io_getaddrinfo "93.184.216.34"];
       yielded := [(error_info (ERROR_UNSUPPORTED_PROTOCOL "tcp"), 0%Q, false)];
       raised := None |}.
Proof. repeat split; vm_compute; reflexivity. Qed.

(** ** The aggregator *)

Lemma elem_of_all_hops (hop_data : gmap Z hop_stats) h :
  h ∈ all_hops hop_data -> exists k, hop_data !! k = Some h.
Proof.
  unfold all_hops. rewrite list_elem_of_omap. intros (k & _ & Hk). eauto.
Qed.

Lemma all_hops_empty : all_hops ∅ = [].
Proof. reflexivity. Qed.

Lemma elem_of_sorted_keys (hop_data : gmap Z hop_stats) k :
  k ∈ sorted_keys hop_data <-> is_Some (hop_data !! k).
Proof.
  unfold sorted_keys. rewrite merge_sort_Permutation, list_elem_of_fmap. split.
  - intros ([k' h] & -> & Hin). apply elem_of_map_to_list in Hin. eauto.
  - intros [h Hh]. exists (k, h). split; [reflexivity|].
    now apply elem_of_map_to_list.
Qed.

Lemma increasing_of_sorted_NoDup (l : list Z) :
  StronglySorted Z.le l -> NoDup l -> StronglySorted Z.lt l.
Proof.
  induction 1 as [|x l Hl IH Hx]; intros Hnd; constructor.
  - apply IH. now apply NoDup_cons in Hnd as [_ Hnd].
  - apply NoDup_cons in Hnd as [Hnotin _].
    apply Forall_forall. intros y Hy.
    pose proof (proj1 (Forall_forall _ _) Hx y Hy) as Hle.
    assert (x <> y) by (intros ->; contradiction). lia.
Qed.

(** [sorted(hop_data.keys())] lists every hop number once, in increasing
    order. *)
Lemma sorted_keys_increasing (hop_data : gmap Z hop_stats) :
  StronglySorted Z.lt (sorted_keys hop_data).
Proof.
  apply increasing_of_sorted_NoDup.
  - apply StronglySorted_merge_sort; apply _.
  - unfold sorted_keys. rewrite merge_sort_Permutation.
    apply NoDup_fst_map_to_list.
Qed.

Lemma all_hops_numbers infos (hop_data : gmap Z hop_stats) :
  keeps_first infos hop_data ->
  map s_hop (all_hops hop_data) = sorted_keys hop_data.
Proof.
  intros Hinv. unfold all_hops.
  assert (Hin : forall k, k ∈ sorted_keys hop_data -> is_Some (hop_data !! k))
    by (intros k; apply elem_of_sorted_keys).
  induction (sorted_keys hop_data) as [|k ks IH]; [reflexivity|].
  cbn. destruct (Hin k ltac:(left)) as [h Hh]. rewrite Hh. cbn.
  specialize (Hinv k). rewrite Hh in Hinv. destruct Hinv as [-> _].
  f_equal. apply IH. intros k' Hk'. apply Hin. now right.
Qed.

(** A summary lists one record per hop number, in increasing order, each
    with the first address and the first non-empty hostname of its hop. *)
Lemma all_hops_keep_first infos (hop_data : gmap Z hop_stats) :
  keeps_first infos hop_data ->
  StronglySorted Z.lt (map s_hop (all_hops hop_data)) /\
  Forall (fun h => first_ip (s_hop h) infos = Some (s_ip h) /\
                   first_hostname (s_hop h) infos = s_hostname h)
         (all_hops hop_data).
Proof.
  intros Hinv. split.
  - rewrite (all_hops_numbers infos) by assumption. apply sorted_keys_increasing.
  - apply Forall_forall. intros h Hin.
    apply elem_of_all_hops in Hin as [k Hk].
    specialize (Hinv k). rewrite Hk in Hinv.
    destruct Hinv as (-> & Hip & Hname). auto.
Qed.

Section Aggregator.

Variable float_of_str : string -> option Q.
Variable stdev : list Q -> Q.

Local Abbreviation update_stats' := (update_stats stdev).
Local Abbreviation record_hop' := (record_hop float_of_str).
Local Abbreviation mtr_cycles' := (mtr_cycles float_of_str stdev).

Lemma update_stats_match n h : stats_match n (update_stats' n h).
Proof.
  unfold stats_match, update_stats. cbn.
  split; [|split].
  - unfold true_div, Qdiv. ring.
  - case_bool_decide; cbn; reflexivity.
  - intros Hlen. case_bool_decide; cbn; [reflexivity|].
    destruct (1 <? len (delays h)) eqn:E; [|reflexivity].
    apply Z.ltb_lt in E. lia.
Qed.

Lemma all_hops_after_update n (hop_data : gmap Z hop_stats) h :
  h ∈ all_hops (update_stats' n <$> hop_data) ->
  exists k h0, hop_data !! k = Some h0 /\ h = update_stats' n h0.
Proof.
  intros Hin. apply elem_of_all_hops in Hin as [k Hk].
  rewrite lookup_fmap in Hk.
  destruct (hop_data !! k) as [h0|] eqn:E; [|discriminate].
  inversion Hk. eauto.
Qed.

Lemma mtr_cycles_stats run_cycle target dest_ip ip_version protocol count
    remaining cycle hop_data :
  cycles_in_step count remaining cycle hop_data ->
  Forall (fun y : mtr_yield =>
            Forall (fun h => 1 <= cycles_complete y.1.1 <= count /\
                             stats_match (cycles_complete y.1.1) h) y.2)
         (mtr_yielded (mtr_cycles' run_cycle target dest_ip ip_version protocol
                         count remaining cycle hop_data)).
Proof.
  revert cycle hop_data.
  induction remaining as [|n IH]; intros cycle hop_data Hstep.
  - cbn. constructor; [|constructor]. cbn.
    apply Forall_forall. intros h Hin.
    apply all_hops_after_update in Hin as (k & h0 & Hk & ->).
    assert (1 <= count).
    { destruct Hstep as [[Hc He]|[_ He]].
      - destruct cycle; [rewrite He in Hk by reflexivity; discriminate | lia].
      - rewrite He in Hk. discriminate. }
    split; [lia | apply update_stats_match].
  - destruct Hstep as [[Hc _]|[Hr _]]; [|discriminate].
    cbn [mtr_cycles].
    destruct (consumed (yielded (run_cycle cycle))) as [infos broke].
    assert (Hnext : forall hd, cycles_in_step count n (S cycle) hd).
    { intros hd. left. split; [lia | discriminate]. }
    destruct (if broke then None else raised (run_cycle cycle)) as [[msg|msg]|].
    + constructor.
    + apply IH, Hnext.
    + cbn. constructor; [|apply IH, Hnext]. cbn.
      apply Forall_forall. intros h Hin.
      apply all_hops_after_update in Hin as (k & h0 & Hk & ->).
      split; [lia | apply update_stats_match].
Qed.

Lemma mtr_cycles_last run_cycle target dest_ip ip_version protocol count
    remaining cycle hop_data :
  mtr_raised (mtr_cycles' run_cycle target dest_ip ip_version protocol
                count remaining cycle hop_data) = None ->
  exists summary hops,
    last (mtr_yielded (mtr_cycles' run_cycle target dest_ip ip_version protocol
                         count remaining cycle hop_data))
    = Some (summary, 1%Q, hops) /\
    cycles_complete summary = count.
Proof.
  revert cycle hop_data.
  induction remaining as [|n IH]; intros cycle hop_data Hraised.
  - cbn. eauto.
  - cbn [mtr_cycles] in *.
    destruct (consumed (yielded (run_cycle cycle))) as [infos broke].
    destruct (if broke then None else raised (run_cycle cycle)) as [[msg|msg]|].
    + discriminate.
    + apply IH, Hraised.
    + cbn in *. destruct (IH _ _ Hraised) as (summary & hops & Hlast & Hc).
      exists summary, hops. split; [|assumption].
      destruct (mtr_yielded _) as [|y ys] eqn:E; [discriminate|].
      rewrite last_cons. now rewrite Hlast.
Qed.

(** *** Which address and hostname a hop keeps *)

Lemma first_ip_snoc k infos i :
  first_ip k (infos ++ [i]) =
  match first_ip k infos with
  | Some a => Some a
  | None => if hop_key i =? k then Some (info_ip i) else None
  end.
Proof.
  induction infos as [|a infos IH]; simpl.
  - reflexivity.
  - destruct (hop_key a =? k); [reflexivity | exact IH].
Qed.

Lemma first_hostname_snoc k infos i :
  first_hostname k (infos ++ [i]) =
  if bool_decide (first_hostname k infos = "")
  then (if hop_key i =? k then info_hostname i else "")
  else first_hostname k infos.
Proof.
  induction infos as [|a infos IH]; simpl.
  - destruct (hop_key i =? k); [|reflexivity].
    case_bool_decide as Hname; simpl; [now rewrite Hname | reflexivity].
  - destruct (hop_key a =? k); simpl; [|exact IH].
    destruct (bool_decide (info_hostname a = "")) eqn:Ea; simpl; [exact IH|].
    now rewrite Ea.
Qed.

Lemma first_hostname_unseen k infos :
  first_ip k infos = None -> first_hostname k infos = "".
Proof.
  induction infos as [|a infos IH]; simpl; [reflexivity|].
  destruct (hop_key a =? k); [discriminate | exact IH].
Qed.

Lemma record_hop_lookup hop_data info :
  exists f, same_identity f /\
    forall k,
      record_hop' hop_data info !! k =
      if decide (hop_key info = k) then
        Some (f (match hop_data !! k with
                 | Some h =>
                     if negb (bool_decide (info_hostname info = ""))
                        && bool_decide (s_hostname h = "")
                     then set_hostname (info_hostname info) h else h
                 | None => new_stats k (info_ip info) (info_hostname info)
                 end))
      else hop_data !! k.
Proof.
  unfold record_hop.
  fold (hop_key info) (info_ip info) (info_hostname info).
  set (hn := hop_key info). set (name := info_hostname info).
  set (hd1 := match hop_data !! hn with
              | Some _ => hop_data
              | None => <[hn:=new_stats hn (info_ip info) name]> hop_data
              end).
  set (fix_name := fun h => if negb (bool_decide (name = ""))
                               && bool_decide (s_hostname h = "")
                            then set_hostname name h else h).
  assert (Hbase : forall k,
             alter fix_name hn hd1 !! k =
             if decide (hn = k) then
               Some (match hop_data !! k with
                     | Some h => fix_name h
                     | None => new_stats k (info_ip info) name
                     end)
             else hop_data !! k).
  { intros k. rewrite lookup_alter. subst hd1.
    destruct (decide (hn = k)) as [<-|Hne].
    - destruct (hop_data !! hn) as [h|] eqn:E.
      + rewrite E. reflexivity.
      + rewrite lookup_insert_eq. cbn. unfold fix_name. cbn.
        destruct (bool_decide (name = "")); reflexivity.
    - destruct (hop_data !! hn); [reflexivity|].
      now rewrite lookup_insert_ne. }
  assert (Hadd : forall v, same_identity (add_delay v))
    by (intros v h; repeat split).
  assert (Hid : same_identity (fun h => h)) by (intros h; repeat split).
  assert (Hplain : forall k,
             alter fix_name hn hd1 !! k =
             if decide (hn = k) then
               Some ((fun h => h) (match hop_data !! k with
                     | Some h => fix_name h
                     | None => new_stats k (info_ip info) name
                     end))
             else hop_data !! k) by exact Hbase.
  destruct (negb (bool_decide (default "Timeout" (delay info) = "Timeout"))
            && contains "ms" (default "Timeout" (delay info)));
    [|exists (fun h => h); split; [exact Hid | exact Hplain]].
  destruct (float_of_str _) as [v|];
    [|exists (fun h => h); split; [exact Hid | exact Hplain]].
  exists (add_delay v). split; [apply Hadd|].
  intros k. rewrite lookup_alter.
  destruct (decide (hn = k)) as [<-|Hne].
  - rewrite Hbase, decide_True by reflexivity. reflexivity.
  - rewrite Hbase, decide_False by exact Hne. reflexivity.
Qed.

Lemma keeps_first_record infos hop_data info :
  keeps_first infos hop_data ->
  keeps_first (infos ++ [info]) (record_hop' hop_data info).
Proof.
  intros Hinv k.
  destruct (record_hop_lookup hop_data info) as (f & Hf & Hlook).
  rewrite Hlook, first_ip_snoc, first_hostname_snoc.
  specialize (Hinv k).
  destruct (decide (hop_key info = k)) as [Hk|Hk].
  - apply Z.eqb_eq in Hk as Hkb. rewrite Hkb.
    destruct (Hf (match hop_data !! k with
                  | Some h =>
                      if negb (bool_decide (info_hostname info = ""))
                         && bool_decide (s_hostname h = "")
                      then set_hostname (info_hostname info) h else h
                  | None => new_stats k (info_ip info) (info_hostname info)
                  end)) as (-> & -> & ->).
    destruct (hop_data !! k) as [h|].
    + destruct Hinv as (Hhop & Hip & Hname). rewrite Hip, Hname.
      destruct (bool_decide (s_hostname h = "")) eqn:Eh;
        destruct (bool_decide (info_hostname info = "")) eqn:Ei; cbn;
        repeat split; try assumption.
      apply bool_decide_eq_true in Eh, Ei. congruence.
    + rewrite Hinv, (first_hostname_unseen _ _ Hinv). cbn.
      repeat split.
  - apply Z.eqb_neq in Hk as Hkb. rewrite Hkb.
    destruct (hop_data !! k) as [h|].
    + destruct Hinv as (Hhop & Hip & Hname). rewrite Hip, Hname.
      repeat split; try assumption.
      destruct (bool_decide (s_hostname h = "")) eqn:E; [|reflexivity].
      apply bool_decide_eq_true in E. now rewrite E.
    + now rewrite Hinv.
Qed.

Lemma keeps_first_fold more infos hop_data :
  keeps_first infos hop_data ->
  keeps_first (infos ++ more) (fold_left record_hop' more hop_data).
Proof.
  revert infos hop_data.
  induction more as [|i more IH]; intros infos hop_data Hinv; simpl.
  - now rewrite app_nil_r.
  - replace (infos ++ i :: more) with ((infos ++ [i]) ++ more)
      by (now rewrite <- app_assoc).
    apply IH, keeps_first_record, Hinv.
Qed.

Lemma keeps_first_update n infos hop_data :
  keeps_first infos hop_data ->
  keeps_first infos (update_stats' n <$> hop_data).
Proof.
  intros Hinv k. specialize (Hinv k). rewrite lookup_fmap.
  destruct (hop_data !! k) as [h|]; cbn; assumption.
Qed.

Lemma keeps_first_empty : keeps_first [] ∅.
Proof. intros k. rewrite lookup_empty. reflexivity. Qed.

Lemma infos_through_S run_cycle n :
  infos_through run_cycle (S n) =
  infos_through run_cycle n ++ cycle_infos run_cycle n.
Proof.
  unfold infos_through. rewrite seq_S, flat_map_app. simpl.
  now rewrite app_nil_r.
Qed.

Lemma mtr_cycles_keep_first run_cycle target dest_ip ip_version protocol count
    remaining cycle hop_data :
  keeps_first (infos_through run_cycle cycle) hop_data ->
  cycles_in_step count remaining cycle hop_data ->
  Forall (fun y : mtr_yield =>
            StronglySorted Z.lt (map s_hop y.2) /\
            Forall (fun h =>
                      first_ip (s_hop h)
                        (infos_through run_cycle (Z.to_nat (cycles_complete y.1.1)))
                      = Some (s_ip h) /\
                      first_hostname (s_hop h)
                        (infos_through run_cycle (Z.to_nat (cycles_complete y.1.1)))
                      = s_hostname h) y.2)
         (mtr_yielded (mtr_cycles' run_cycle target dest_ip ip_version protocol
                         count remaining cycle hop_data)).
Proof.
  revert cycle hop_data.
  induction remaining as [|n IH]; intros cycle hop_data Hinv Hstep.
  - cbn. constructor; [|constructor]. cbn.
    destruct Hstep as [[Hc _]|[_ He]].
    + replace (Z.to_nat count) with cycle by lia.
      apply all_hops_keep_first, keeps_first_update, Hinv.
    + subst hop_data. rewrite fmap_empty, all_hops_empty.
      split; constructor.
  - destruct Hstep as [[Hc _]|[Hr _]]; [|discriminate].
    cbn [mtr_cycles].
    pose proof (keeps_first_fold (cycle_infos run_cycle cycle) _ _ Hinv) as Hinv'.
    rewrite <- infos_through_S in Hinv'. unfold cycle_infos in Hinv'.
    destruct (consumed (yielded (run_cycle cycle))) as [infos broke].
    cbn [fst] in Hinv'.
    assert (Hnext : forall hd, cycles_in_step count n (S cycle) hd).
    { intros hd. left. split; [lia | discriminate]. }
    destruct (if broke then None else raised (run_cycle cycle)) as [[msg|msg]|].
    + constructor.
    + apply IH; [exact Hinv' | apply Hnext].
    + cbn. constructor.
      * cbn. replace (Z.to_nat (Z.of_nat cycle + 1)) with (S cycle) by lia.
        apply all_hops_keep_first, keeps_first_update, Hinv'.
      * apply IH; [apply keeps_first_update, Hinv' | apply Hnext].
Qed.

End Aggregator.

Section AggregatorClaims.

Variable format_float : nat -> Q -> string.
Variable str_of_float : Q -> string.
Variable float_of_str : string -> option Q.
Variable stdev : list Q -> Q.

Local Abbreviation mtr' := (mtr format_float str_of_float float_of_str stdev).
Local Abbreviation mtr_cycles' := (mtr_cycles float_of_str stdev).

(** C3.  Every summary that [mtr] yields carries a number [n] of completed
    cycles between 1 and [count] (whenever it lists a hop), and every hop
    of it has [loss_percent = 100 * (n - len(delays)) / n], [avg_delay]
    equal to the arithmetic mean of [delays] (0 when there is none) and
    [std_dev = 0] when there are fewer than two delays.  A run that ends
    without an exception ends with a summary for [n = count] and progress
    1. *)
Theorem mtr_summary_statistics
    w worlds target count max_hops timeout resolve_dns protocol ipv6 :
  Forall (fun y : mtr_yield =>
            Forall (fun h => 1 <= cycles_complete y.1.1 <= count /\
                             stats_match (cycles_complete y.1.1) h) y.2)
         (mtr_yielded (mtr' w worlds target count max_hops timeout resolve_dns
                         protocol ipv6)) /\
  (mtr_raised (mtr' w worlds target count max_hops timeout resolve_dns
                 protocol ipv6) = None ->
   exists summary hops,
     last (mtr_yielded (mtr' w worlds target count max_hops timeout resolve_dns
                          protocol ipv6))
     = Some (summary, 1%Q, hops) /\
     cycles_complete summary = count).
Proof.
  unfold mtr.
  destruct (negb (bool_decide (py_lower protocol ∈ ["icmp"; "tcp"; "udp"]))).
  { split; [constructor | discriminate]. }
  destruct (mtr_resolve w target ipv6) as [e|[dest_ip ip_version]].
  { split; [constructor | discriminate]. }
  split.
  - apply mtr_cycles_stats.
    destruct (Z_le_gt_dec 0 count).
    + left. split; [lia | reflexivity].
    + right. split; [lia | reflexivity].
  - apply mtr_cycles_last.
Qed.

(** C9, amended.  The statistics record of a hop number keeps its identity
    across cycles and the values it was created with: every yielded
    summary lists one record per hop number, in increasing order, and
    reports for each hop the address of the first record ever received for
    that hop number (the sentinel "*" if that record was a timeout) and the
    first hostname received for that hop number that is not empty; the
    records counted are those of all cycles up to the one the summary
    closes. *)
Theorem mtr_reports_first_seen_identity
    run_cycle target dest_ip ip_version protocol count :
  Forall (fun y : mtr_yield =>
            StronglySorted Z.lt (map s_hop y.2) /\
            Forall (fun h =>
                      first_ip (s_hop h)
                        (infos_through run_cycle (Z.to_nat (cycles_complete y.1.1)))
                      = Some (s_ip h) /\
                      first_hostname (s_hop h)
                        (infos_through run_cycle (Z.to_nat (cycles_complete y.1.1)))
                      = s_hostname h) y.2)
         (mtr_yielded (mtr_cycles' run_cycle target dest_ip ip_version protocol
                         count (Z.to_nat count) 0 ∅)).
Proof.
  apply mtr_cycles_keep_first.
  - apply keeps_first_empty.
  - destruct (Z_le_gt_dec 0 count).
    + left. split; [lia | reflexivity].
    + right. split; [lia | reflexivity].
Qed.

End AggregatorClaims.

(** C9, as stated, fails: the first hop answers from 10.0.0.1 (a.example)
    in the first cycle and from 10.0.0.2 (b.example) in the second; the
    final summary holds both delays of hop 1 and reports 10.0.0.1 and
    a.example, while the last record in which hop 1 responded carries
    10.0.0.2 and b.example. *)
Lemma mtr_reports_stale_address :
  exists summary hops h r,
    last (mtr_yielded (run_mtr (posix_world silent_env) drifting_first_hop
                         "10.0.0.9" 2 5 1%Q true "icmp" false))
    = Some (summary, 1%Q, hops) /\
    hops !! 0%nat = Some h /\ s_hop h = 1 /\ len (delays h) = 2 /\
    s_ip h = PyStr "10.0.0.1" /\ s_hostname h = "a.example" /\
    last_response 1
      (infos_through
         (fun c => run_traceroute (drifting_first_hop c) "10.0.0.9" 5 1%Q true
                     "icmp" 3 false) 2) = Some r /\
    ip r = Some (PyStr "10.0.0.2") /\ hostname r = Some "b.example".
Proof.
  do 4 eexists. split; [vm_compute; reflexivity|].
  split; [reflexivity|]. repeat split.
Qed.

(** Scenario D of the design document: three cycles, the second hop silent
    in the second one; the final summary has two delays and a loss of one
    third for it. *)
Example scenario_D :
  exists summary hops h,
    last (mtr_yielded (run_mtr (posix_world silent_env) lossy_second_hop
                         "10.0.0.9" 3 5 1%Q false "icmp" false))
    = Some (summary, 1%Q, hops) /\
    hops !! 1%nat = Some h /\ s_hop h = 2 /\ len (delays h) = 2 /\
    (loss_percent h == 100 # 3)%Q.
Proof.
  do 3 eexists. split; [vm_compute; reflexivity|].
  split; [reflexivity|]. repeat split.
Qed.

(** * Further properties of the code *)

(** ** Packet codec: decoding what was encoded *)

Lemma Z_of_byte_of_Z z : Z_of_byte (byte_of_Z z) = z mod 256.
Proof.
  unfold Z_of_byte, byte_of_Z.
  pose proof (Z.mod_pos_bound z 256 ltac:(lia)) as Hr.
  destruct (Byte.of_N (Z.to_N (z mod 256))) as [b|] eqn:E.
  - apply Byte.to_of_N in E. rewrite E. lia.
  - apply Byte.of_N_None_iff in E. lia.
Qed.

Lemma Z_of_byte_range b : 0 <= Z_of_byte b < 256.
Proof.
  unfold Z_of_byte. pose proof (Byte.to_N_bounded b). lia.
Qed.

Lemma be_value_acc bs acc :
  fold_left (fun acc b => acc * 256 + Z_of_byte b) bs acc =
  acc * 256 ^ len bs + be_value bs.
Proof.
  unfold be_value, len. revert acc.
  induction bs as [|b bs IH]; intros acc; cbn [fold_left length].
  - cbn. lia.
  - rewrite IH, (IH (0 * 256 + Z_of_byte b)).
    rewrite Nat2Z.inj_succ, Z.pow_succ_r by lia. lia.
Qed.

Lemma be_value_cons b bs :
  be_value (b :: bs) = Z_of_byte b * 256 ^ len bs + be_value bs.
Proof.
  unfold be_value at 1. cbn [fold_left]. rewrite be_value_acc. lia.
Qed.

Lemma be_value_app bs1 bs2 :
  be_value (bs1 ++ bs2) = be_value bs1 * 256 ^ len bs2 + be_value bs2.
Proof.
  unfold be_value at 1. rewrite fold_left_app.
  fold (be_value bs1). apply be_value_acc.
Qed.

Lemma pow_256 n : 2 ^ (8 * Z.of_nat n) = 256 ^ Z.of_nat n.
Proof. change 256 with (2 ^ 8). rewrite <- Z.pow_mul_r by lia. reflexivity. Qed.

Lemma be_value_be_bytes_mod n v :
  be_value (be_bytes n v) = v mod 256 ^ Z.of_nat n.
Proof.
  induction n as [|n IH].
  - cbn. now rewrite Z.mod_1_r.
  - cbn [be_bytes]. rewrite be_value_cons, Z_of_byte_of_Z, IH.
    unfold len. rewrite length_be_bytes.
    rewrite Z.shiftr_div_pow2, pow_256 by lia.
    rewrite Nat2Z.inj_succ, Z.pow_succ_r by lia.
    assert (Hpos : 0 < 256 ^ Z.of_nat n) by (apply Z.pow_pos_nonneg; lia).
    rewrite (Z.mul_comm 256), Z.rem_mul_r by lia. lia.
Qed.

(** Packing and unpacking an unsigned field gives the value back. *)
Lemma be_value_be_bytes n v :
  0 <= v < 256 ^ Z.of_nat n -> be_value (be_bytes n v) = v.
Proof.
  intros Hv. rewrite be_value_be_bytes_mod. now apply Z.mod_small.
Qed.

Lemma struct_pack_in_range fields bs :
  struct_pack fields = Some bs ->
  Forall (fun f => 0 <= f.2 < 2 ^ (8 * Z.of_nat (fmt_width f.1))) fields.
Proof.
  revert bs. induction fields as [|[c v] rest IH]; intros bs H; constructor.
  - cbn in *. unfold pack_field in H.
    destruct ((0 <=? v) && (v <? 2 ^ (8 * Z.of_nat (fmt_width c)))) eqn:E;
      [|discriminate].
    apply andb_true_iff in E as [Hlo Hhi].
    apply Z.leb_le in Hlo. apply Z.ltb_lt in Hhi. lia.
  - cbn in H. destruct (pack_field c v); [|discriminate].
    destruct (struct_pack rest) as [bs'|]; [|discriminate]. eapply IH. reflexivity.
Qed.

Lemma create_icmp_packet_in_range now rnd packet_id sequence packet_size pkt :
  create_icmp_packet now rnd packet_id sequence packet_size = Some pkt ->
  0 <= packet_id < 65536 /\ 0 <= sequence < 65536.
Proof.
  unfold create_icmp_packet. intros H.
  destruct (struct_pack _) as [header|] eqn:E; [|discriminate].
  apply struct_pack_in_range in E.
  repeat (apply Forall_cons in E as [? E]). cbn in *. lia.
Qed.

Lemma fold_left_add_acc ws acc :
  fold_left Z.add ws acc = acc + fold_left Z.add ws 0.
Proof.
  revert acc. induction ws as [|w ws IH]; intros acc; cbn.
  - lia.
  - rewrite (IH (acc + w)), (IH (0 + w)). lia.
Qed.

Lemma word_sum_header a b c d e f g h data :
  word_sum (a :: b :: c :: d :: e :: f :: g :: h :: data) =
  be_value [a; b] + be_value [c; d] + be_value [e; f] + be_value [g; h] +
  word_sum data.
Proof.
  unfold word_sum.
  replace (len (a :: b :: c :: d :: e :: f :: g :: h :: data) mod 2)
    with (len data mod 2)
    by (unfold len; cbn [length]; rewrite !Nat2Z.inj_succ;
        replace (Z.succ (Z.succ (Z.succ (Z.succ (Z.succ (Z.succ (Z.succ
                   (Z.succ (Z.of_nat (length data))))))))))
          with (Z.of_nat (length data) + 4 * 2) by lia;
        now rewrite Z.mod_add by lia).
  destruct (negb (len data mod 2 =? 0)); cbn [app words16 fold_left];
    rewrite fold_left_add_acc; unfold be_value; cbn [fold_left];
    rewrite !Z.shiftl_mul_pow2 by lia; change (2 ^ 8) with 256; lia.
Qed.

Lemma fold_to_16_multiple fuel t :
  0 < t -> t mod 65535 = 0 -> t < 65536 + Z.of_nat fuel ->
  fold_to_16 fuel t = 65535.
Proof.
  revert t. induction fuel as [|fuel IH]; intros t Hpos Hmul Hlt; cbn.
  - apply Z.mod_divide in Hmul as [k ->]; lia.
  - destruct (t <? 65536) eqn:E.
    + apply Z.ltb_lt in E. apply Z.mod_divide in Hmul as [k ->]; lia.
    + apply Z.ltb_ge in E.
      destruct (fold_once_spec t ltac:(lia)) as [H0 Hd].
      assert (1 <= t / 65536) by (apply Z.div_le_lower_bound; lia).
      assert (Hfold : fold_once t = t - 65535 * (t / 65536)) by lia.
      pose proof (Z.mod_pos_bound t 65536 ltac:(lia)).
      assert (0 < fold_once t).
      { unfold fold_once. rewrite Z.shiftr_div_pow2 by lia.
        change (2 ^ 16) with 65536.
        pose proof (Z.land_nonneg t 65535). lia. }
      apply IH; [assumption | | lia].
      rewrite Hfold. apply Z.mod_divide; [lia|].
      apply Z.mod_divide in Hmul as [k ->]; [|lia].
      exists (k - (k * 65535) / 65536). lia.
Qed.

(** X1.  Whenever [create_icmp_packet] returns a packet, the packet reads
    back as it was built: type 8 and code 0, the identifier at offset 4,
    the sequence number at offset 6, the clock reading at offset 8, and at
    offset 2 the value of [calculate_checksum] over the packet with its
    checksum field zeroed; its length is [max 16 packet_size]. *)
Theorem icmp_packet_reads_back now rnd packet_id sequence packet_size pkt :
  create_icmp_packet now rnd packet_id sequence packet_size = Some pkt ->
  field 0 2 pkt = [x08; x00] /\
  be_value (field 4 2 pkt) = packet_id /\
  be_value (field 6 2 pkt) = sequence /\
  field 8 8 pkt = pack_double now /\
  be_value (field 2 2 pkt) = calculate_checksum (zero_checksum_field pkt) /\
  len pkt = Z.max 16 packet_size.
Proof.
  intros Hpkt.
  destruct (create_icmp_packet_in_range _ _ _ _ _ _ Hpkt) as [Hid Hseq].
  destruct (create_icmp_packet_ok now rnd packet_id sequence packet_size Hid Hseq)
    as (header & padding & Heq & Hh & Hp & Hheader).
  assert (Hshape : pkt = header ++ pack_double now ++ padding) by congruence.
  subst pkt. clear Hpkt.
  assert (Hlen : len (header ++ pack_double now ++ padding) = Z.max 16 packet_size)
    by (rewrite !len_app, Hh, Hp, len_pack_double; lia).
  rewrite Hlen. clear Hlen.
  set (ck := calculate_checksum _) in Hheader.
  assert (Hck : 0 <= ck < 65536) by apply calculate_checksum_range.
  rewrite Hheader.
  change (field 0 2 _) with [x08; x00].
  change (field 4 2 _) with (be_bytes 2 packet_id).
  change (field 6 2 _) with (be_bytes 2 sequence).
  change (field 2 2 _) with (be_bytes 2 ck).
  change (field 8 8 _) with (pack_double now).
  rewrite !be_value_be_bytes by (cbn; lia).
  repeat split; reflexivity.
Qed.

Lemma icmp_packet_reads_back_witness :
  field 0 2 ([x08; x00; xed; xca; x12; x34; x00; x01] ++
             pack_double 0x41dab62500000000) = [x08; x00] /\
  be_value (field 4 2 ([x08; x00; xed; xca; x12; x34; x00; x01] ++
                       pack_double 0x41dab62500000000)) = 0x1234 /\
  be_value (field 6 2 ([x08; x00; xed; xca; x12; x34; x00; x01] ++
                       pack_double 0x41dab62500000000)) = 1 /\
  field 8 8 ([x08; x00; xed; xca; x12; x34; x00; x01] ++
             pack_double 0x41dab62500000000) = pack_double 0x41dab62500000000 /\
  be_value (field 2 2 ([x08; x00; xed; xca; x12; x34; x00; x01] ++
                       pack_double 0x41dab62500000000)) =
    calculate_checksum
      (zero_checksum_field ([x08; x00; xed; xca; x12; x34; x00; x01] ++
                            pack_double 0x41dab62500000000)) /\
  len ([x08; x00; xed; xca; x12; x34; x00; x01] ++
       pack_double 0x41dab62500000000) = Z.max 16 16.
Proof.
  apply (icmp_packet_reads_back 0x41dab62500000000 (fun _ => xaa) 0x1234 1 16).
  vm_compute. reflexivity.
Defined.

Lemma fold_to_16_mod fuel t :
  0 < t -> t < 65536 + Z.of_nat fuel ->
  0 < fold_to_16 fuel t < 65536 /\
  fold_to_16 fuel t mod 65535 = t mod 65535.
Proof.
  revert t. induction fuel as [|fuel IH]; intros t Hpos Hlt; cbn.
  - split; [lia | reflexivity].
  - destruct (t <? 65536) eqn:E.
    + apply Z.ltb_lt in E. split; [lia | reflexivity].
    + apply Z.ltb_ge in E.
      destruct (fold_once_spec t ltac:(lia)) as [H0 Hd].
      assert (1 <= t / 65536) by (apply Z.div_le_lower_bound; lia).
      assert (Hfold : fold_once t = t + - (t / 65536) * 65535) by lia.
      assert (0 < fold_once t).
      { unfold fold_once. rewrite Z.shiftr_div_pow2 by lia.
        change (2 ^ 16) with 65536.
        pose proof (Z.land_nonneg t 65535). lia. }
      destruct (IH (fold_once t)) as [Hr Hm]; [assumption | lia |].
      split; [assumption|].
      rewrite Hm, Hfold. apply Z.mod_add. lia.
Qed.

(** The sum of a packet that carries its own checksum. *)
Lemma icmp_packet_total now rnd packet_id sequence packet_size pkt :
  create_icmp_packet now rnd packet_id sequence packet_size = Some pkt ->
  word_sum pkt =
  word_sum (zero_checksum_field pkt) +
  (- fold_once (word_sum (zero_checksum_field pkt)) - 1) mod 65536.
Proof.
  intros Hpkt.
  destruct (create_icmp_packet_in_range _ _ _ _ _ _ Hpkt) as [Hid Hseq].
  destruct (create_icmp_packet_ok now rnd packet_id sequence packet_size Hid Hseq)
    as (header & padding & Heq & _ & _ & Hheader).
  assert (Hshape : pkt = header ++ pack_double now ++ padding) by congruence.
  subst pkt. clear Hpkt Heq.
  set (data := pack_double now ++ padding) in *.
  set (ck := calculate_checksum _) in Hheader.
  assert (Hck : 0 <= ck < 65536) by apply calculate_checksum_range.
  assert (Hzero : zero_checksum_field (header ++ data) =
                  (be_bytes 1 8 ++ be_bytes 1 0 ++ be_bytes 2 0 ++
                   be_bytes 2 packet_id ++ be_bytes 2 sequence ++ []) ++ data)
    by (rewrite Hheader; reflexivity).
  rewrite Hzero. rewrite <- calculate_checksum_unfold. fold ck.
  rewrite Hheader.
  cbn [be_bytes app]. rewrite !word_sum_header.
  change [byte_of_Z (Z.shiftr ck (8 * Z.of_nat 1));
          byte_of_Z (Z.shiftr ck (8 * Z.of_nat 0))] with (be_bytes 2 ck).
  change [byte_of_Z (Z.shiftr 0 (8 * Z.of_nat 1));
          byte_of_Z (Z.shiftr 0 (8 * Z.of_nat 0))] with (be_bytes 2 0).
  rewrite !(be_value_be_bytes 2) by (cbn; lia). lia.
Qed.

(** X2.  A packet built by [create_icmp_packet] passes the receiver's check
    (the one's-complement checksum over the whole packet, checksum field
    included, is zero) whenever adding the two halves of the word sum of
    the zeroed packet leaves no carry; when that addition does carry, the
    check leaves 0xfffe and the packet is rejected. *)
Theorem icmp_packet_checksum_verifies now rnd packet_id sequence packet_size pkt :
  create_icmp_packet now rnd packet_id sequence packet_size = Some pkt ->
  (fold_once (word_sum (zero_checksum_field pkt)) < 65536 ->
   ones_complement_checksum pkt = 0) /\
  (65536 <= fold_once (word_sum (zero_checksum_field pkt)) < 131072 ->
   ones_complement_checksum pkt = 0xfffe).
Proof.
  intros Hpkt. pose proof (icmp_packet_total _ _ _ _ _ _ Hpkt) as Htotal.
  unfold ones_complement_checksum.
  set (t := word_sum pkt) in *.
  set (s := word_sum (zero_checksum_field pkt)) in *.
  pose proof (word_sum_nonneg (zero_checksum_field pkt)) as Hs. fold s in Hs.
  destruct (fold_once_spec s Hs) as [Hf Hd].
  pose proof (Z.div_pos s 65536 Hs ltac:(lia)) as Hq.
  split; intros Hcarry.
  - assert (Hck : (- fold_once s - 1) mod 65536 = 65535 - fold_once s)
      by (symmetry; apply Z.mod_unique_pos with (q := -1); lia).
    assert (Ht : t = (s / 65536 + 1) * 65535) by lia.
    destruct (fold_to_16_mod (Z.to_nat t) t) as [Hr Hm]; [lia | lia |].
    rewrite Ht, Z.mod_mul in Hm by lia. rewrite <- Ht in Hm.
    pose proof (Z.div_mod (fold_to_16 (Z.to_nat t) t) 65535 ltac:(lia)).
    assert (fold_to_16 (Z.to_nat t) t / 65535 = 1); [|lia].
    assert (0 <= fold_to_16 (Z.to_nat t) t / 65535)
      by (apply Z.div_pos; lia).
    assert (fold_to_16 (Z.to_nat t) t / 65535 < 2)
      by (apply Z.div_lt_upper_bound; lia).
    lia.
  - assert (Hck : (- fold_once s - 1) mod 65536 = 131071 - fold_once s)
      by (symmetry; apply Z.mod_unique_pos with (q := -2); lia).
    assert (Ht : t = 1 + (s / 65536 + 2) * 65535) by lia.
    destruct (fold_to_16_mod (Z.to_nat t) t) as [Hr Hm]; [lia | lia |].
    rewrite Ht, Z.mod_add in Hm by lia. rewrite <- Ht in Hm.
    change (1 mod 65535) with 1 in Hm.
    pose proof (Z.div_mod (fold_to_16 (Z.to_nat t) t) 65535 ltac:(lia)).
    assert (fold_to_16 (Z.to_nat t) t / 65535 = 0); [|lia].
    assert (0 <= fold_to_16 (Z.to_nat t) t / 65535)
      by (apply Z.div_pos; lia).
    assert (fold_to_16 (Z.to_nat t) t / 65535 < 2)
      by (apply Z.div_lt_upper_bound; lia).
    lia.
Qed.

Lemma icmp_packet_checksum_verifies_witness :
  (fold_once (word_sum (zero_checksum_field
                          ([x08; x00; xed; xca; x12; x34; x00; x01] ++
                           pack_double 0x41dab62500000000))) < 65536 ->
   ones_complement_checksum ([x08; x00; xed; xca; x12; x34; x00; x01] ++
                             pack_double 0x41dab62500000000) = 0) /\
  (65536 <= fold_once (word_sum (zero_checksum_field
                                   ([x08; x00; xed; xca; x12; x34; x00; x01] ++
                                    pack_double 0x41dab62500000000))) < 131072 ->
   ones_complement_checksum ([x08; x00; xed; xca; x12; x34; x00; x01] ++
                             pack_double 0x41dab62500000000) = 0xfffe).
Proof.
  apply (icmp_packet_checksum_verifies 0x41dab62500000000 (fun _ => xaa)
           0x1234 1 16).
  vm_compute. reflexivity.
Defined.

Lemma icmpv6_header sequence :
  struct_pack [(fmt_B, 128); (fmt_B, 0); (fmt_H, 0); (fmt_H, sequence)] =
  if (0 <=? sequence) && (sequence <? 65536)
  then Some ([x80; x00; x00; x00] ++ be_bytes 2 sequence)
  else None.
Proof.
  cbn [struct_pack].
  change (pack_field fmt_B 128) with (Some [x80]).
  change (pack_field fmt_B 0) with (Some [x00]).
  change (pack_field fmt_H 0) with (Some [x00; x00]).
  unfold pack_field. cbn [fmt_width]. change (2 ^ (8 * Z.of_nat 2)) with 65536.
  destruct ((0 <=? sequence) && (sequence <? 65536)); [|reflexivity].
  cbn [app]. now rewrite app_nil_r.
Qed.

Lemma create_icmpv6_packet_ok now rnd packet_id sequence packet_size pkt :
  create_icmpv6_packet now rnd packet_id sequence packet_size = Some pkt ->
  0 <= sequence < 65536 /\
  exists padding,
    pkt = ([x80; x00; x00; x00] ++ be_bytes 2 sequence) ++
          pack_double now ++ padding /\
    len padding = Z.max 0 (packet_size - 14).
Proof.
  unfold create_icmpv6_packet. rewrite icmpv6_header.
  destruct ((0 <=? sequence) && (sequence <? 65536)) eqn:E; [|discriminate].
  apply andb_true_iff in E as [Hlo Hhi].
  apply Z.leb_le in Hlo. apply Z.ltb_lt in Hhi.
  cbn [mbind option_bind]. intros H. split; [lia|].
  eexists. split; [symmetry; injection H as H; exact H|].
  rewrite length_random_bytes, len_pack_double.
  unfold len. cbn [length]. lia.
Qed.

(** X3.  Whenever [create_icmpv6_packet] returns a packet, it consists of
    the six bytes 80 00 00 00 and the sequence number, the clock reading
    at offset 6 and the padding; its length is [max 14 packet_size], and
    the checksum bytes are zero. *)
Theorem icmpv6_packet_reads_back now rnd packet_id sequence packet_size pkt :
  create_icmpv6_packet now rnd packet_id sequence packet_size = Some pkt ->
  field 0 4 pkt = [x80; x00; x00; x00] /\
  be_value (field 4 2 pkt) = sequence /\
  field 6 8 pkt = pack_double now /\
  len pkt = Z.max 14 packet_size.
Proof.
  intros Hpkt.
  destruct (create_icmpv6_packet_ok _ _ _ _ _ _ Hpkt)
    as (Hseq & padding & -> & Hp).
  assert (Hlen : len (([x80; x00; x00; x00] ++ be_bytes 2 sequence) ++
                      pack_double now ++ padding) = Z.max 14 packet_size).
  { rewrite !len_app, Hp, len_pack_double.
    change (len [x80; x00; x00; x00]) with 4.
    change (len (be_bytes 2 sequence)) with 2. lia. }
  rewrite Hlen.
  change (field 0 4 _) with [x80; x00; x00; x00].
  change (field 4 2 _) with (be_bytes 2 sequence).
  change (field 6 8 _) with (pack_double now).
  rewrite be_value_be_bytes by (cbn; lia).
  repeat split; reflexivity.
Qed.

Lemma icmpv6_packet_reads_back_witness :
  field 0 4 ([x80; x00; x00; x00; x00; x01] ++
             pack_double 0x41dab62500000000 ++ [xaa; xaa]) = [x80; x00; x00; x00] /\
  be_value (field 4 2 ([x80; x00; x00; x00; x00; x01] ++
                       pack_double 0x41dab62500000000 ++ [xaa; xaa])) = 1 /\
  field 6 8 ([x80; x00; x00; x00; x00; x01] ++
             pack_double 0x41dab62500000000 ++ [xaa; xaa]) =
    pack_double 0x41dab62500000000 /\
  len ([x80; x00; x00; x00; x00; x01] ++
       pack_double 0x41dab62500000000 ++ [xaa; xaa]) = Z.max 14 16.
Proof.
  apply (icmpv6_packet_reads_back 0x41dab62500000000 (fun _ => xaa) 0x1234 1 16).
  vm_compute. reflexivity.
Defined.

Lemma create_udp_packet_in_range now rnd packet_id port packet_size pkt :
  create_udp_packet now rnd packet_id port packet_size = Some pkt ->
  0 <= packet_id < 65536 /\ 0 <= port < 65536 /\ packet_size <= 65535.
Proof.
  intros H.
  assert (Hsize : packet_size <= 65535).
  { destruct (Z_le_gt_dec packet_size 65535) as [Hle|Hgt]; [assumption|].
    rewrite create_udp_packet_too_large in H by lia. discriminate. }
  unfold create_udp_packet in H.
  destruct (struct_pack [(fmt_I, packet_id)]) as [id_bytes|]; [|discriminate].
  cbn [mbind option_bind] in H.
  destruct (struct_pack _) as [udp_header|] eqn:E; [|discriminate].
  apply struct_pack_in_range in E.
  repeat (apply Forall_cons in E as [? E]). cbn in *. lia.
Qed.

(** X4.  Whenever [create_udp_packet] returns a packet, its first eight
    bytes read back as the identifier (in the source-port field), the
    port, the length of the whole packet and a zero checksum; the
    identifier follows as a 32-bit value at offset 8 and the clock reading
    at offset 12.  The length is [max 20 packet_size] and the requested
    size is at most 65535. *)
Theorem udp_packet_reads_back now rnd packet_id port packet_size pkt :
  create_udp_packet now rnd packet_id port packet_size = Some pkt ->
  be_value (field 0 2 pkt) = packet_id /\
  be_value (field 2 2 pkt) = port /\
  be_value (field 4 2 pkt) = len pkt /\
  field 6 2 pkt = [x00; x00] /\
  be_value (field 8 4 pkt) = packet_id /\
  field 12 8 pkt = pack_double now /\
  len pkt = Z.max 20 packet_size /\
  packet_size <= 65535.
Proof.
  intros Hpkt.
  destruct (create_udp_packet_in_range _ _ _ _ _ _ Hpkt) as (Hid & Hport & Hsize).
  destruct (create_udp_packet_ok now rnd packet_id port packet_size Hid Hport Hsize)
    as (padding & Heq & Hp).
  assert (Hshape : pkt = (be_bytes 2 packet_id ++ be_bytes 2 port ++
                          be_bytes 2 (Z.max 20 packet_size) ++ be_bytes 2 0 ++ []) ++
                         (be_bytes 4 packet_id ++ []) ++ pack_double now ++ padding)
    by congruence.
  subst pkt. clear Hpkt Heq.
  assert (Hlen : len ((be_bytes 2 packet_id ++ be_bytes 2 port ++
                       be_bytes 2 (Z.max 20 packet_size) ++ be_bytes 2 0 ++ []) ++
                      (be_bytes 4 packet_id ++ []) ++ pack_double now ++ padding)
                 = Z.max 20 packet_size).
  { rewrite !len_app, Hp, len_pack_double. unfold len. cbn. lia. }
  rewrite Hlen.
  change (field 0 2 _) with (be_bytes 2 packet_id).
  change (field 2 2 _) with (be_bytes 2 port).
  change (field 4 2 _) with (be_bytes 2 (Z.max 20 packet_size)).
  change (field 6 2 _) with [x00; x00].
  change (field 8 4 _) with (be_bytes 4 packet_id).
  change (field 12 8 _) with (pack_double now).
  rewrite !be_value_be_bytes by (cbn; lia).
  repeat split; try reflexivity. assumption.
Qed.

Lemma udp_packet_reads_back_witness :
  exists pkt,
    create_udp_packet 0x41dab62500000000 (fun _ => xaa) 0x1234 33435 24 = Some pkt /\
    be_value (field 0 2 pkt) = 0x1234 /\
    be_value (field 2 2 pkt) = 33435 /\
    be_value (field 4 2 pkt) = len pkt /\
    field 6 2 pkt = [x00; x00] /\
    be_value (field 8 4 pkt) = 0x1234 /\
    field 12 8 pkt = pack_double 0x41dab62500000000 /\
    len pkt = Z.max 20 24 /\
    24 <= 65535.
Proof.
  eexists. split; [vm_compute; reflexivity|].
  apply (udp_packet_reads_back 0x41dab62500000000 (fun _ => xaa) 0x1234 33435 24).
  vm_compute. reflexivity.
Defined.

(** ** Discovery: retries, hop numbers, address selection *)

(** X5.  The retry loop stops at the first attempt that is answered or
    raises: the answer it reports is that of the earliest attempt with a
    non-empty address, every attempt before it was unanswered, and the
    loop reports a timeout only when all [remaining] attempts were
    unanswered. *)
Theorem retry_loop_first_answer probe remaining attempt :
  match retry_loop probe remaining attempt with
  | inr (Some (addr, d)) =>
      exists a ty, (attempt <= a < attempt + remaining)%nat /\
                   probe a = response addr d ty /\ addr <> "" /\
                   forall a', (attempt <= a' < a)%nat -> unanswered (probe a')
  | inr None =>
      forall a, (attempt <= a < attempt + remaining)%nat -> unanswered (probe a)
  | inl e =>
      exists a, (attempt <= a < attempt + remaining)%nat /\
                probe a = probe_raises e /\
                forall a', (attempt <= a' < a)%nat -> unanswered (probe a')
  end.
Proof.
  revert attempt. induction remaining as [|n IH]; intros attempt; cbn.
  - intros a Ha. lia.
  - destruct (probe attempt) as [|addr d ty|e] eqn:E.
    + specialize (IH (S attempt)).
      assert (Hhere : forall a', (attempt <= a' < S attempt)%nat ->
                                 unanswered (probe a')).
      { intros a' Ha'. replace a' with attempt by lia. left. exact E. }
      destruct (retry_loop probe n (S attempt)) as [e|[[addr d]|]].
      * destruct IH as (a & Ha & Hp & Hq). exists a.
        repeat split; [lia | lia | assumption |].
        intros a' Ha'. destruct (Nat.eq_dec a' attempt) as [->|Hne];
          [apply Hhere; lia | apply Hq; lia].
      * destruct IH as (a & ty & Ha & Hp & Hne & Hq). exists a, ty.
        repeat split; [lia | lia | assumption | assumption |].
        intros a' Ha'. destruct (Nat.eq_dec a' attempt) as [->|Hne'];
          [apply Hhere; lia | apply Hq; lia].
      * intros a Ha. destruct (Nat.eq_dec a attempt) as [->|Hne];
          [apply Hhere; lia | apply IH; lia].
    + case_bool_decide as Hempty.
      * subst addr. specialize (IH (S attempt)).
        assert (Hhere : forall a', (attempt <= a' < S attempt)%nat ->
                                   unanswered (probe a')).
        { intros a' Ha'. replace a' with attempt by lia. right. eauto. }
        destruct (retry_loop probe n (S attempt)) as [e|[[addr d']|]].
        -- destruct IH as (a & Ha & Hp & Hq). exists a.
           repeat split; [lia | lia | assumption |].
           intros a' Ha'. destruct (Nat.eq_dec a' attempt) as [->|Hne];
             [apply Hhere; lia | apply Hq; lia].
        -- destruct IH as (a & ty' & Ha & Hp & Hne & Hq). exists a, ty'.
           repeat split; [lia | lia | assumption | assumption |].
           intros a' Ha'. destruct (Nat.eq_dec a' attempt) as [->|Hne'];
             [apply Hhere; lia | apply Hq; lia].
        -- intros a Ha. destruct (Nat.eq_dec a attempt) as [->|Hne];
             [apply Hhere; lia | apply IH; lia].
      * exists attempt, ty. repeat split; [lia | lia | assumption | assumption |].
        intros a' Ha'. lia.
    + exists attempt. repeat split; [lia | lia | assumption |].
      intros a' Ha'. lia.
Qed.

(** X6.  [select_address] honours the preference: it returns the first
    address of the preferred family when the answer holds one, otherwise
    the first address of the other family, otherwise nothing; entries of
    any other family are ignored. *)
Theorem select_address_prefers_family ipv6 res :
  select_address ipv6 res None None =
  let preferred := if ipv6 then AF_INET6 else AF_INET in
  let other := if ipv6 then AF_INET else AF_INET6 in
  match first_of preferred res, first_of other res with
  | Some a, _ => (Some a, Some (if ipv6 then 6 else 4))
  | None, Some a => (Some a, Some (if ipv6 then 4 else 6))
  | None, None => (None, None)
  end.
Proof.
  assert (Hpicked : forall res a0 v0,
             select_address ipv6 res (Some a0) (Some v0) =
             match first_of (if ipv6 then AF_INET6 else AF_INET) res with
             | Some a => (Some a, Some (if ipv6 then 6 else 4))
             | None => (Some a0, Some v0)
             end).
  { intros res' a0 v0. induction res' as [|[af sa] rest IH]; [reflexivity|].
    destruct ipv6, af; cbn; try reflexivity; exact IH. }
  cbn zeta. induction res as [|[af sa] rest IH]; [destruct ipv6; reflexivity|].
  destruct ipv6, af; cbn; try reflexivity; try exact IH;
    rewrite Hpicked; destruct (first_of _ rest); reflexivity.
Qed.

Lemma relay_no_error_records (l : list yield_item) :
  Forall (fun y : yield_item => error y.1.1 = None) (fst (relay l)).
Proof.
  induction l as [|[[info p] d] l IH]; cbn; [constructor|].
  destruct (error info) eqn:E; [constructor|].
  destruct d; [repeat constructor; exact E|].
  destruct (relay l) as [ys r]. cbn in *. constructor; assumption.
Qed.

Section NumberedHops.

Variable format_float : nat -> Q -> string.
Variable str_of_float : Q -> string.

Local Abbreviation hop_loop' := (hop_loop format_float).
Local Abbreviation tracert_loop' := (tracert_loop format_float).

Lemma hop_loop_numbers s env target_ip max_hops max_retries resolve_dns
    remaining ttl visited_ips i info p d :
  fst (hop_loop' s env target_ip max_hops max_retries resolve_dns
         remaining ttl visited_ips) !! i = Some (info, p, d) ->
  error info = None ->
  hop info = Some (ttl + Z.of_nat i) /\ (i < remaining)%nat.
Proof.
  revert ttl visited_ips i.
  induction remaining as [|n IH]; intros ttl visited_ips i Hi Herr.
  - discriminate Hi.
  - cbn [hop_loop] in Hi.
    assert (Hone : forall (y : yield_item),
               [y] !! i = Some (info, p, d) -> hop y.1.1 = Some ttl ->
               hop info = Some (ttl + Z.of_nat i) /\ (i < S n)%nat).
    { intros y Hy Hhop. destruct i as [|i]; [|destruct i; discriminate Hy].
      injection Hy as ->. cbn in Hhop. rewrite Hhop.
      split; [f_equal; lia | lia]. }
    assert (Hfail : forall msg,
               [(error_info msg, 0%Q, false)] !! i = Some (info, p, d) ->
               hop info = Some (ttl + Z.of_nat i) /\ (i < S n)%nat).
    { intros msg Hy. destruct i as [|i]; [|destruct i; discriminate Hy].
      injection Hy as <- _ _. discriminate Herr. }
    assert (Hcons : forall (y : yield_item) visited',
               (y :: fst (hop_loop' s env target_ip max_hops max_retries
                            resolve_dns n (ttl + 1) visited')) !! i
               = Some (info, p, d) ->
               hop y.1.1 = Some ttl ->
               hop info = Some (ttl + Z.of_nat i) /\ (i < S n)%nat).
    { intros y visited' Hy Hhop. destruct i as [|i].
      - injection Hy as ->. cbn in Hhop. rewrite Hhop.
        split; [f_equal; lia | lia].
      - cbn in Hy. destruct (IH _ _ _ Hy Herr) as [Hh Hlt].
        rewrite Hh. split; [f_equal; lia | lia]. }
    destruct (match s with ICMPv6 => set_hop_limit env ttl | _ => None end);
      [now apply (Hfail (strategy_error_text s s0))|].
    destruct (retry_loop _ _ _) as [e|[[hop_ip best_delay]|]].
    + now apply (Hfail (strategy_error_text s e)).
    + case_bool_decide as Hseen; [eapply Hone; [exact Hi | reflexivity]|].
      case_bool_decide as Hdest; [eapply Hone; [exact Hi | reflexivity]|].
      destruct (hop_loop _ _ _ _ _ _ _ _ _ _) as [ys final] eqn:E.
      cbn [fst] in Hi.
      eapply (Hcons _ ({[hop_ip]} ∪ visited_ips));
        [rewrite E; exact Hi | reflexivity].
    + destruct (hop_loop _ _ _ _ _ _ _ _ _ _) as [ys final] eqn:E.
      cbn [fst] in Hi.
      eapply (Hcons _ visited_ips); [rewrite E; exact Hi | reflexivity].
Qed.

Lemma hop_loop_destination s env target_ip max_hops max_retries resolve_dns
    remaining ttl visited_ips info p :
  (info, p, true) ∈ fst (hop_loop' s env target_ip max_hops max_retries
                           resolve_dns remaining ttl visited_ips) ->
  p = 1%Q /\ ip info = Some (PyStr target_ip).
Proof.
  revert ttl visited_ips.
  induction remaining as [|n IH]; intros ttl visited_ips Hin.
  - inversion Hin.
  - cbn [hop_loop] in Hin.
    destruct (match s with ICMPv6 => set_hop_limit env ttl | _ => None end).
    { apply list_elem_of_singleton in Hin. discriminate Hin. }
    destruct (retry_loop _ _ _) as [e|[[hop_ip best_delay]|]].
    + apply list_elem_of_singleton in Hin. discriminate Hin.
    + case_bool_decide as Hseen.
      { apply list_elem_of_singleton in Hin. discriminate Hin. }
      case_bool_decide as Hdest.
      * apply list_elem_of_singleton in Hin. injection Hin as -> ->.
        subst hop_ip. split; reflexivity.
      * destruct (hop_loop _ _ _ _ _ _ _ _ _ _) as [ys final] eqn:E.
        cbn [fst] in Hin. apply elem_of_cons in Hin as [Hin|Hin];
          [discriminate Hin|].
        eapply IH. rewrite E. exact Hin.
    + destruct (hop_loop _ _ _ _ _ _ _ _ _ _) as [ys final] eqn:E.
      cbn [fst] in Hin. apply elem_of_cons in Hin as [Hin|Hin];
        [discriminate Hin|].
      eapply IH. rewrite E. exact Hin.
Qed.

Lemma tracert_loop_destination target_ip max_hops stdout current visited_ips
    info p :
  (info, p, true) ∈ fst (tracert_loop' target_ip max_hops stdout current
                           visited_ips) ->
  p = 1%Q /\ ip info = Some (PyStr target_ip).
Proof.
  revert current visited_ips.
  induction stdout as [|l rest IH]; intros current visited_ips Hin.
  - inversion Hin.
  - destruct l as [| |hop_num_int hip hname rtts line]; cbn [tracert_loop] in Hin.
    + eapply IH, Hin.
    + eapply IH, Hin.
    + destruct (max_hops =? 0).
      { apply list_elem_of_singleton in Hin. discriminate Hin. }
      case_bool_decide as Hdest.
      * apply list_elem_of_singleton in Hin. injection Hin as -> ->.
        subst hip. split; [reflexivity|].
        destruct (_ && _); reflexivity.
      * destruct (tracert_loop _ _ _ _ _ _) as [ys final] eqn:E.
        cbn [fst] in Hin. apply elem_of_cons in Hin as [Hin|Hin];
          [discriminate Hin|].
        eapply IH. rewrite E. exact Hin.
Qed.

(** X7.  On the raw-socket platform the records of a run are numbered
    without a gap: the record at position [i] (from 0) that is not an error
    record has hop number [i + 1], and there are at most [max_hops] of
    them. *)
Theorem raw_socket_hops_are_numbered
    w target max_hops timeout resolve_dns protocol max_retries ipv6 i info p d :
  platform_system w = Posix ->
  yielded (traceroute format_float str_of_float w target max_hops timeout
             resolve_dns protocol max_retries ipv6) !! i = Some (info, p, d) ->
  error info = None ->
  hop info = Some (Z.of_nat i + 1) /\ Z.of_nat i < max_hops.
Proof.
  intros Hposix Hi Herr. unfold traceroute in Hi. rewrite Hposix in Hi.
  assert (Hfail : forall msg,
             [(error_info msg, 0%Q, false)] !! i = Some (info, p, d) -> False).
  { intros msg Hy. destruct i as [|i]; [|destruct i; discriminate Hy].
    injection Hy as <- _ _. discriminate Herr. }
  destruct (negb _); [discriminate Hi|].
  destruct (_ || _); [discriminate Hi|].
  destruct (Qle_bool timeout 0); [discriminate Hi|].
  destruct (match getaddrinfo w None target with
            | gai_list res =>
                match select_address ipv6 res None None with
                | (Some target_ip, ip_version) => inr (target_ip, ip_version)
                | (None, _) => inl (ERROR_ADDRESS_RESOLUTION "无法解析目标地址")
                end
            | gai_error e => inl (ERROR_ADDRESS_RESOLUTION e)
            | gai_exception e => inl e
            end) as [msg|[target_ip ip_version]];
    [destruct (Hfail _ Hi)|].
  destruct (choose_strategy protocol ip_version) as [s|];
    [|destruct (Hfail _ Hi)].
  pose proof (relay_prefix (socket_traceroute format_float s (network w)
                              target_ip max_hops resolve_dns max_retries))
    as [rest Hprefix].
  destruct (relay _) as [ys r]. cbn [fst yielded] in *.
  assert (Hl : socket_traceroute format_float s (network w) target_ip max_hops
                 resolve_dns max_retries !! i = Some (info, p, d))
    by (rewrite Hprefix; apply lookup_app_l_Some; exact Hi).
  unfold socket_traceroute in Hl.
  destruct (open_socket (network w)); [destruct (Hfail _ Hl)|].
  destruct (hop_loop_numbers _ _ _ _ _ _ _ _ _ _ _ _ _ Hl Herr) as [Hh Hlt].
  rewrite Hh. split; [f_equal; lia | lia].
Qed.

(** X8.  A record with the destination flag has progress 1 and carries the
    address that the target resolved to, the one the probing was started
    with. *)
Theorem destination_record_carries_target
    w target max_hops timeout resolve_dns protocol max_retries ipv6 info p :
  (info, p, true) ∈ yielded (traceroute format_float str_of_float w target
                               max_hops timeout resolve_dns protocol
                               max_retries ipv6) ->
  p = 1%Q /\
  exists target_ip,
    ip info = Some (PyStr target_ip) /\
    (io_tracert target_ip ∈
       io (traceroute format_float str_of_float w target max_hops timeout
             resolve_dns protocol max_retries ipv6) \/
     exists s,
       io_raw_socket s target_ip ∈
         io (traceroute format_float str_of_float w target max_hops timeout
               resolve_dns protocol max_retries ipv6)).
Proof.
  unfold traceroute.
  destruct (negb _); [intros Hin; inversion Hin|].
  destruct (_ || _); [intros Hin; inversion Hin|].
  destruct (Qle_bool timeout 0); [intros Hin; inversion Hin|].
  destruct (match getaddrinfo w None target with
            | gai_list res =>
                match select_address ipv6 res None None with
                | (Some target_ip, ip_version) => inr (target_ip, ip_version)
                | (None, _) => inl (ERROR_ADDRESS_RESOLUTION "无法解析目标地址")
                end
            | gai_error e => inl (ERROR_ADDRESS_RESOLUTION e)
            | gai_exception e => inl e
            end) as [msg|[target_ip ip_version]].
  { cbn. intros Hin. apply list_elem_of_singleton in Hin. discriminate Hin. }
  destruct (platform_system w).
  - cbn [yielded io]. unfold _windows_tracert.
    destruct (tracert w) as [e|stdout stderr code].
    { intros Hin. apply list_elem_of_singleton in Hin. discriminate Hin. }
    pose proof (tracert_loop_destination target_ip max_hops stdout 0 ∅ info p)
      as Hloop.
    destruct (tracert_loop _ _ _ _ _ _) as [ys final]. cbn [fst] in *.
    intros Hin.
    assert (Hys : (info, p, true) ∈ ys).
    { destruct (current_hop final); [|exact Hin].
      destruct (_ && _); [|exact Hin].
      apply elem_of_app in Hin as [Hin|Hin]; [exact Hin|].
      apply list_elem_of_singleton in Hin. discriminate Hin. }
    destruct (Hloop Hys) as [-> Hip]. split; [reflexivity|].
    exists target_ip. split; [assumption|]. left.
    apply elem_of_cons. right. apply elem_of_cons. left. reflexivity.
  - destruct (choose_strategy protocol ip_version) as [s|].
    + pose proof (relay_prefix (socket_traceroute format_float s (network w)
                                  target_ip max_hops resolve_dns max_retries))
        as Hprefix.
      destruct (relay _) as [ys r]. cbn [fst yielded io] in *.
      intros Hin. pose proof (elem_of_prefix _ _ _ Hin Hprefix) as Hl.
      unfold socket_traceroute in Hl.
      destruct (open_socket (network w)).
      { apply list_elem_of_singleton in Hl. discriminate Hl. }
      destruct (hop_loop_destination _ _ _ _ _ _ _ _ _ _ _ Hl) as [-> Hip].
      split; [reflexivity|]. exists target_ip. split; [assumption|].
      right. exists s.
      apply elem_of_cons. right. apply elem_of_cons. left. reflexivity.
    + cbn. intros Hin. apply list_elem_of_singleton in Hin. discriminate Hin.
Qed.

(** X9.  On the raw-socket platform a failure inside a strategy is raised,
    not yielded: once a strategy was started, no yielded record is an
    error record, and when the socket cannot be opened the run yields
    nothing and raises [TracerouteError] with the text of the strategy. *)
Theorem strategy_failures_are_raised
    w target max_hops timeout resolve_dns protocol max_retries ipv6 s target_ip :
  io_raw_socket s target_ip ∈
    io (traceroute format_float str_of_float w target max_hops timeout
          resolve_dns protocol max_retries ipv6) ->
  Forall (fun y : yield_item => error y.1.1 = None)
         (yielded (traceroute format_float str_of_float w target max_hops
                     timeout resolve_dns protocol max_retries ipv6)) /\
  (forall e, open_socket (network w) = Some e ->
     yielded (traceroute format_float str_of_float w target max_hops timeout
                resolve_dns protocol max_retries ipv6) = [] /\
     raised (traceroute format_float str_of_float w target max_hops timeout
               resolve_dns protocol max_retries ipv6)
     = Some (TracerouteError (strategy_error_text s e))).
Proof.
  unfold traceroute.
  destruct (negb _); [intros Hin; inversion Hin|].
  destruct (_ || _); [intros Hin; inversion Hin|].
  destruct (Qle_bool timeout 0); [intros Hin; inversion Hin|].
  destruct (match getaddrinfo w None target with
            | gai_list res =>
                match select_address ipv6 res None None with
                | (Some target_ip, ip_version) => inr (target_ip, ip_version)
                | (None, _) => inl (ERROR_ADDRESS_RESOLUTION "无法解析目标地址")
                end
            | gai_error e => inl (ERROR_ADDRESS_RESOLUTION e)
            | gai_exception e => inl e
            end) as [msg|[target_ip' ip_version]].
  { cbn. intros Hin. apply list_elem_of_singleton in Hin. discriminate Hin. }
  destruct (platform_system w).
  { cbn. intros Hin.
    apply elem_of_cons in Hin as [Hin|Hin]; [discriminate Hin|].
    apply list_elem_of_singleton in Hin. discriminate Hin. }
  destruct (choose_strategy protocol ip_version) as [s'|].
  - pose proof (relay_no_error_records
                  (socket_traceroute format_float s' (network w) target_ip'
                     max_hops resolve_dns max_retries)) as Hclean.
    unfold socket_traceroute in *.
    destruct (open_socket (network w)) as [e0|] eqn:Esock.
    + cbn. intros Hin.
      assert (s' = s) as ->.
      { apply elem_of_cons in Hin as [Hin|Hin]; [discriminate Hin|].
        apply list_elem_of_singleton in Hin. congruence. }
      split; [constructor|]. intros e He. injection He as <-. split; reflexivity.
    + destruct (relay _) as [ys r]. cbn in *. intros Hin.
      split; [assumption|]. intros e He. discriminate He.
  - cbn. intros Hin. apply list_elem_of_singleton in Hin. discriminate Hin.
Qed.

End NumberedHops.

Lemma raw_socket_hops_are_numbered_witness :
  hop (reply_info format_fixed
         (path_env [Some "10.0.0.1"; None; Some "10.0.0.9"]) false 3
         "10.0.0.9" (9 # 2)) = Some (Z.of_nat 2 + 1) /\ Z.of_nat 2 < 5.
Proof.
  apply (raw_socket_hops_are_numbered format_fixed (format_fixed 1)
           silent_second_hop "10.0.0.9" 5 1%Q false "icmp" 3 false 2%nat _ 1%Q true).
  - reflexivity.
  - vm_compute. reflexivity.
  - reflexivity.
Defined.

Lemma destination_record_carries_target_witness :
  1%Q = 1%Q /\
  exists target_ip,
    ip (reply_info format_fixed
          (path_env [Some "10.0.0.1"; None; Some "10.0.0.9"]) false 3
          "10.0.0.9" (9 # 2)) = Some (PyStr target_ip) /\
    (io_tracert target_ip ∈
       io (run_traceroute silent_second_hop "10.0.0.9" 5 1%Q false "icmp" 3 false) \/
     exists s, io_raw_socket s target_ip ∈
       io (run_traceroute silent_second_hop "10.0.0.9" 5 1%Q false "icmp" 3 false)).
Proof.
  apply (destination_record_carries_target format_fixed (format_fixed 1)
           silent_second_hop "10.0.0.9" 5 1%Q false "icmp" 3 false).
  apply (list_elem_of_lookup_2 _ 2). vm_compute. reflexivity.
Defined.

Lemma strategy_failures_are_raised_witness :
  Forall (fun y : yield_item => error y.1.1 = None)
         (yielded (run_traceroute (posix_world unprivileged_env) "10.0.0.9" 30
                     1%Q false "udp" 3 false)) /\
  (forall e, open_socket (network (posix_world unprivileged_env)) = Some e ->
     yielded (run_traceroute (posix_world unprivileged_env) "10.0.0.9" 30
                1%Q false "udp" 3 false) = [] /\
     raised (run_traceroute (posix_world unprivileged_env) "10.0.0.9" 30
               1%Q false "udp" 3 false)
     = Some (TracerouteError (strategy_error_text UDPv4 e))).
Proof.
  apply (strategy_failures_are_raised format_fixed (format_fixed 1)
           (posix_world unprivileged_env) "10.0.0.9" 30 1%Q false "udp" 3 false
           UDPv4 "10.0.0.9").
  apply (list_elem_of_lookup_2 _ 1). vm_compute. reflexivity.
Defined.

Lemma traceroute_well_ended_witness :
  (false = true ->
   length (yielded (run_traceroute loop_at_third_hop "10.0.0.9" 5 1%Q false
                      "icmp" 3 false)) = 3%nat) /\
  (is_Some (warning (with_warning "检测到循环路由"
                       (reply_info format_fixed
                          (path_env [Some "10.0.0.1"; Some "10.0.1.1";
                                     Some "10.0.0.1"; Some "10.0.3.1"])
                          false 3 "10.0.0.1" (9 # 2)))) ->
   (stops_on_loop loop_at_third_hop = true ->
    length (yielded (run_traceroute loop_at_third_hop "10.0.0.9" 5 1%Q false
                       "icmp" 3 false)) = 3%nat) /\
   exists v,
     ip (with_warning "检测到循环路由"
           (reply_info format_fixed
              (path_env [Some "10.0.0.1"; Some "10.0.1.1";
                         Some "10.0.0.1"; Some "10.0.3.1"])
              false 3 "10.0.0.1" (9 # 2))) = Some v /\
     (False \/
      exists j y,
        (j < 2)%nat /\
        yielded (run_traceroute loop_at_third_hop "10.0.0.9" 5 1%Q false
                   "icmp" 3 false) !! j = Some y /\
        ip y.1.1 = Some v)).
Proof.
  apply (traceroute_well_ended format_fixed (format_fixed 1) loop_at_third_hop
           "10.0.0.9" 5 1%Q false "icmp" 3 false 2%nat _ 60%Q false).
  vm_compute. reflexivity.
Defined.

(** ** The external-tool path reports its failures as records *)

Section TracertFailures.

Variable format_float : nat -> Q -> string.
Variable str_of_float : Q -> string.

Lemma tracert_loop_no_error_records target_ip max_hops stdout current visited_ips :
  max_hops <> 0 ->
  Forall (fun y : yield_item => error y.1.1 = None)
         (fst (tracert_loop format_float target_ip max_hops stdout current
                 visited_ips)) /\
  is_Some (current_hop (snd (tracert_loop format_float target_ip max_hops stdout
                               current visited_ips))).
Proof.
  intros Hmax. revert current visited_ips.
  induction stdout as [|l rest IH]; intros current visited_ips.
  - cbn. split; [constructor | eexists; reflexivity].
  - destruct l as [| |hop_num_int hip hname rtts line]; cbn [tracert_loop].
    + apply IH.
    + apply IH.
    + destruct (Z.eqb_spec max_hops 0) as [->|_]; [contradiction|].
      assert (Hinfo : error (if bool_decide (hip ≠ PyStr "*")
                                && bool_decide (hip ∈ visited_ips)
                             then with_warning "Routing loop detected"
                                    (tracert_info format_float hop_num_int hip
                                       hname rtts line)
                             else tracert_info format_float hop_num_int hip hname
                                    rtts line) = None)
        by (destruct (_ && _); reflexivity).
      destruct (bool_decide (hip = PyStr target_ip)) eqn:Hdest.
      * cbn [fst snd current_hop].
        split; [repeat constructor; exact Hinfo | eexists; reflexivity].
      * destruct (IH (current + 1)
                    (if bool_decide (hip ≠ PyStr "*") && bool_decide (hip ∈ visited_ips)
                     then visited_ips
                     else if bool_decide (hip ≠ PyStr "*") then {[hip]} ∪ visited_ips
                          else visited_ips)) as [Hys Hcur].
        destruct (tracert_loop _ _ _ _ _ _) as [ys final]. cbn [fst snd] in *.
        split; [constructor; [exact Hinfo | exact Hys] | exact Hcur].
Qed.

Lemma tracert_loop_skips_other_lines target_ip max_hops stdout current
    visited_ips :
  Forall (fun l => l = other_line) stdout ->
  tracert_loop format_float target_ip max_hops stdout current visited_ips
  = ([], TracertState (Some current) visited_ips).
Proof.
  induction 1 as [|l rest -> _ IH]; [reflexivity | exact IH].
Qed.

Lemma tracert_loop_counts_a_line target_ip max_hops stdout current visited_ips :
  max_hops <> 0 ->
  Exists (fun l => l <> other_line) stdout ->
  exists c,
    current_hop (snd (tracert_loop format_float target_ip max_hops stdout current
                        visited_ips)) = Some c /\
    current < c.
Proof.
  intros Hmax Hex.
  assert (Hrest : forall rest cur vis,
             exists c,
               current_hop (snd (tracert_loop format_float target_ip max_hops rest
                                   (cur + 1) vis)) = Some c /\
               cur < c).
  { intros rest cur vis.
    destruct (tracert_loop_no_error_records target_ip max_hops rest (cur + 1) vis
                Hmax) as [_ [c Hc]].
    pose proof (tracert_loop_counts format_float target_ip max_hops rest (cur + 1)
                  vis c Hc) as Hle.
    exists c. split; [exact Hc|]. unfold len in Hle. lia. }
  revert current visited_ips.
  induction Hex as [l rest Hl|l rest Hex IH]; intros current visited_ips.
  - destruct l as [| |hop_num_int hip hname rtts line]; [contradiction| |];
      cbn [tracert_loop].
    + apply Hrest.
    + destruct (Z.eqb_spec max_hops 0) as [Hz|_]; [contradiction|].
      destruct (bool_decide (hip = PyStr target_ip)).
      * cbn. exists (current + 1). split; [reflexivity | lia].
      * destruct (Hrest rest current
                    (if bool_decide (hip ≠ PyStr "*")
                        && bool_decide (hip ∈ visited_ips)
                     then visited_ips
                     else if bool_decide (hip ≠ PyStr "*")
                          then {[hip]} ∪ visited_ips else visited_ips))
          as (c & Hc & Hlt).
        destruct (tracert_loop _ _ _ _ _ _) as [ys final]. cbn [snd] in *. eauto.
  - destruct l as [| |hop_num_int hip hname rtts line]; cbn [tracert_loop].
    + apply IH.
    + apply Hrest.
    + destruct (Z.eqb_spec max_hops 0) as [Hz|_]; [contradiction|].
      destruct (bool_decide (hip = PyStr target_ip)).
      * cbn. exists (current + 1). split; [reflexivity | lia].
      * destruct (Hrest rest current
                    (if bool_decide (hip ≠ PyStr "*")
                        && bool_decide (hip ∈ visited_ips)
                     then visited_ips
                     else if bool_decide (hip ≠ PyStr "*")
                          then {[hip]} ∪ visited_ips else visited_ips))
          as (c & Hc & Hlt).
        destruct (tracert_loop _ _ _ _ _ _) as [ys final]. cbn [snd] in *. eauto.
Qed.

(** X12.  On the platform of the external tool, for a tool that cannot
    be started or whose output is read to its end, a run never raises
    [TracerouteError], and an error record is always the only record of
    its run, with progress 0 and without the destination flag.  With
    valid parameters, a failed resolution and a [tracert] that cannot be
    started each yield exactly that one record, with the text of the
    failure.  When the process ends with a return code other than 0 or
    with text on [stderr], the run yields the error record, and nothing
    else, exactly when no hop line was read; once a line that starts
    with a digit was read, it yields no error record at all, so that
    failure goes unreported. *)
Theorem tracert_failures_are_yielded
    w target max_hops timeout resolve_dns protocol max_retries ipv6 :
  platform_system w = Windows ->
  (forall msg,
     raised (traceroute format_float str_of_float w target max_hops timeout
               resolve_dns protocol max_retries ipv6)
     <> Some (TracerouteError msg)) /\
  (forall info p d,
     (info, p, d) ∈ yielded (traceroute format_float str_of_float w target
                               max_hops timeout resolve_dns protocol
                               max_retries ipv6) ->
     is_Some (error info) ->
     yielded (traceroute format_float str_of_float w target max_hops timeout
                resolve_dns protocol max_retries ipv6) = [(info, 0%Q, false)]) /\
  (protocol ∈ ["udp"; "icmp"; "tcp"] -> 1 <= max_hops <= 255 -> (0 < timeout)%Q ->
   (forall e,
      getaddrinfo w None target = gai_error e ->
      yielded (traceroute format_float str_of_float w target max_hops timeout
                 resolve_dns protocol max_retries ipv6)
      = [(error_info (ERROR_ADDRESS_RESOLUTION e), 0%Q, false)]) /\
   (forall res target_ip ip_version,
      getaddrinfo w None target = gai_list res ->
      select_address ipv6 res None None = (Some target_ip, ip_version) ->
      match tracert w with
      | popen_raises e =>
          yielded (traceroute format_float str_of_float w target max_hops
                     timeout resolve_dns protocol max_retries ipv6)
          = [(error_info (tracert_errors e), 0%Q, false)]
      | process_output stdout stderr return_code =>
          stderr <> "" \/ return_code <> 0 ->
          (Forall (fun l => l = other_line) stdout ->
           yielded (traceroute format_float str_of_float w target max_hops
                      timeout resolve_dns protocol max_retries ipv6)
           = [(error_info ("Windows tracert error (code " +:+ pretty return_code
                           +:+ "): " +:+ py_strip stderr), 0%Q, false)]) /\
          (Exists (fun l => l <> other_line) stdout ->
           Forall (fun y : yield_item => error y.1.1 = None)
                  (yielded (traceroute format_float str_of_float w target
                              max_hops timeout resolve_dns protocol max_retries
                              ipv6)))
      end)).
Proof.
  intros Hwin.
  assert (Hone : forall (x : yield_item) info p d,
             x.1.2 = 0%Q -> x.2 = false ->
             (info, p, d) ∈ [x] -> [x] = [(info, 0%Q, false)]).
  { intros [[xi xp] xd] info p d Hp Hd Hin. cbn in Hp, Hd. subst xp xd.
    apply list_elem_of_singleton in Hin. injection Hin as -> _ _. reflexivity. }
  split; [|split].
  - unfold traceroute. rewrite Hwin.
    destruct (negb _); [discriminate|].
    destruct (_ || _); [discriminate|].
    destruct (Qle_bool timeout 0); [discriminate|].
    destruct (match getaddrinfo w None target with
              | gai_list res =>
                  match select_address ipv6 res None None with
                  | (Some target_ip, ip_version) => inr (target_ip, ip_version)
                  | (None, _) => inl (ERROR_ADDRESS_RESOLUTION "无法解析目标地址")
                  end
              | gai_error e => inl (ERROR_ADDRESS_RESOLUTION e)
              | gai_exception e => inl e
              end) as [msg|[target_ip ip_version]]; discriminate.
  - unfold traceroute. rewrite Hwin.
    destruct (negb _); [intros ? ? ? Hin; inversion Hin|].
    destruct (Z.ltb_spec max_hops 1) as [|Hmax];
      [intros ? ? ? Hin; inversion Hin|].
    destruct (_ || _); [intros ? ? ? Hin; inversion Hin|].
    destruct (Qle_bool timeout 0); [intros ? ? ? Hin; inversion Hin|].
    destruct (match getaddrinfo w None target with
              | gai_list res =>
                  match select_address ipv6 res None None with
                  | (Some target_ip, ip_version) => inr (target_ip, ip_version)
                  | (None, _) => inl (ERROR_ADDRESS_RESOLUTION "无法解析目标地址")
                  end
              | gai_error e => inl (ERROR_ADDRESS_RESOLUTION e)
              | gai_exception e => inl e
              end) as [msg|[target_ip ip_version]]; cbn [yielded raised].
    { intros info p d Hin _.
      eapply Hone; [reflexivity | reflexivity | exact Hin]. }
    intros info p d Hin Herr.
    unfold _windows_tracert in *.
    destruct (tracert w) as [e|stdout stderr code].
    { eapply Hone; [reflexivity | reflexivity | exact Hin]. }
    assert (Hnz : max_hops <> 0) by lia.
    pose proof (tracert_loop_no_error_records target_ip max_hops stdout 0 ∅ Hnz)
      as [Hclean _].
    pose proof (tracert_loop_counts format_float target_ip max_hops stdout 0 ∅)
      as Hcount.
    destruct (tracert_loop _ _ _ _ _ _) as [ys final]. cbn [fst snd] in *.
    assert (Hnot : (info, p, d) ∈ ys -> False).
    { intros Hys. rewrite Forall_forall in Hclean.
      specialize (Hclean _ Hys). cbn in Hclean. rewrite Hclean in Herr.
      destruct Herr as [? Herr]. discriminate Herr. }
    destruct (current_hop final) as [c|]; [|destruct (Hnot Hin)].
    destruct (_ || _); cbn [andb] in *; [|destruct (Hnot Hin)].
    destruct (Z.eqb_spec c 0) as [Hc|_]; [|destruct (Hnot Hin)].
    specialize (Hcount c eq_refl).
    assert (ys = []) as ->.
    { destruct ys; [reflexivity|]. unfold len in Hcount. cbn in Hcount. lia. }
    cbn [app] in *. eapply Hone; [reflexivity | reflexivity | exact Hin].
  - intros Hproto Hhops Htime. unfold traceroute. rewrite Hwin.
    rewrite (bool_decide_eq_true_2 _ Hproto). cbn [negb].
    replace ((max_hops <? 1) || (max_hops >? 255)) with false
      by (symmetry; apply orb_false_iff; split;
          [apply Z.ltb_ge | rewrite Z.gtb_ltb; apply Z.ltb_ge]; lia).
    replace (Qle_bool timeout 0) with false.
    2:{ symmetry. apply not_true_is_false. intros H.
        apply Qle_bool_iff in H. apply (Qlt_not_le _ _ Htime H). }
    split.
    { intros e ->. reflexivity. }
    intros res target_ip ip_version -> ->. cbn [yielded].
    unfold _windows_tracert.
    destruct (tracert w) as [e|stdout stderr code]; [reflexivity|].
    intros Hfail.
    assert (Hcond : negb (bool_decide (stderr = "")) || negb (code =? 0) = true).
    { apply orb_true_iff. destruct Hfail as [Hs|Hc].
      - left. now rewrite bool_decide_eq_false_2.
      - right. apply negb_true_iff, Z.eqb_neq, Hc. }
    assert (Hnz : max_hops <> 0) by lia.
    split.
    + intros Hall. rewrite (tracert_loop_skips_other_lines _ _ _ _ _ Hall).
      cbn [current_hop]. rewrite Hcond. reflexivity.
    + intros Hex.
      pose proof (tracert_loop_no_error_records target_ip max_hops stdout 0 ∅ Hnz)
        as [Hclean _].
      destruct (tracert_loop_counts_a_line target_ip max_hops stdout 0 ∅ Hnz Hex)
        as (c & Hc & Hlt).
      destruct (tracert_loop _ _ _ _ _ _) as [ys final]. cbn [fst snd] in *.
      rewrite Hc. replace (c =? 0) with false by (symmetry; apply Z.eqb_neq; lia).
      rewrite andb_false_r. exact Hclean.
Qed.

End TracertFailures.

Lemma tracert_failures_are_yielded_witness :
  yielded (run_traceroute (windows_world (popen_raises FileNotFoundError))
             "10.0.0.9" 30 1%Q true "icmp" 3 false)
  = [(error_info (tracert_errors FileNotFoundError), 0%Q, false)] /\
  (forall msg,
     raised (run_traceroute (windows_world (popen_raises FileNotFoundError))
               "10.0.0.9" 30 1%Q true "icmp" 3 false)
     <> Some (TracerouteError msg)).
Proof.
  destruct (tracert_failures_are_yielded format_fixed (format_fixed 1)
              (windows_world (popen_raises FileNotFoundError))
              "10.0.0.9" 30 1%Q true "icmp" 3 false eq_refl)
    as (Hraised & _ & Hyield).
  split; [|exact Hraised].
  destruct Hyield as [_ Hstart];
    [repeat constructor | lia | reflexivity |].
  apply (Hstart [(AF_INET, "10.0.0.9")] "10.0.0.9" (Some 4)); reflexivity.
Defined.

(** ** The aggregator: samples, bounds and failures *)

Section Samples.

Variable float_of_str : string -> option Q.
Variable stdev : list Q -> Q.

Local Abbreviation samples' := (samples float_of_str).
Local Abbreviation sound_entry' := (sound_entry float_of_str).
Local Abbreviation sound_data' := (sound_data float_of_str).

Lemma samples_app k infos more :
  samples' k (infos ++ more) = samples' k infos ++ samples' k more.
Proof.
  induction infos as [|i infos IH]; cbn; [reflexivity|].
  destruct (hop_key i =? k); [|exact IH].
  destruct (parsed_delay float_of_str i); cbn; now rewrite IH.
Qed.

(** The entry that [record_hop] leaves under each hop number. *)
Lemma record_hop_entry hop_data info k :
  record_hop float_of_str hop_data info !! k =
  if decide (hop_key info = k) then
    let h := match hop_data !! k with
             | Some h =>
                 if negb (bool_decide (info_hostname info = ""))
                    && bool_decide (s_hostname h = "")
                 then set_hostname (info_hostname info) h else h
             | None => new_stats k (info_ip info) (info_hostname info)
             end in
    Some (match parsed_delay float_of_str info with
          | Some v => add_delay v h
          | None => h
          end)
  else hop_data !! k.
Proof.
  unfold record_hop, parsed_delay.
  fold (hop_key info) (info_ip info) (info_hostname info).
  set (hn := hop_key info). set (name := info_hostname info).
  set (hd1 := match hop_data !! hn with
              | Some _ => hop_data
              | None => <[hn:=new_stats hn (info_ip info) name]> hop_data
              end).
  set (fix_name := fun h => if negb (bool_decide (name = ""))
                               && bool_decide (s_hostname h = "")
                            then set_hostname name h else h).
  assert (Hbase : forall k,
             alter fix_name hn hd1 !! k =
             if decide (hn = k) then
               Some (match hop_data !! k with
                     | Some h => fix_name h
                     | None => new_stats k (info_ip info) name
                     end)
             else hop_data !! k).
  { intros j. rewrite lookup_alter. subst hd1.
    destruct (decide (hn = j)) as [<-|Hne].
    - destruct (hop_data !! hn) as [h|] eqn:E.
      + rewrite E. reflexivity.
      + rewrite lookup_insert_eq. cbn. unfold fix_name. cbn.
        destruct (bool_decide (name = "")); reflexivity.
    - destruct (hop_data !! hn); [reflexivity|].
      now rewrite lookup_insert_ne. }
  cbv zeta.
  destruct (negb (bool_decide (default "Timeout" (delay info) = "Timeout"))
            && contains "ms" (default "Timeout" (delay info))).
  - destruct (float_of_str _) as [v|].
    + rewrite lookup_alter.
      destruct (decide (hn = k)) as [<-|Hne].
      * rewrite Hbase, decide_True by reflexivity. reflexivity.
      * rewrite Hbase, decide_False by exact Hne. reflexivity.
    + rewrite Hbase. destruct (decide (hn = k)); reflexivity.
  - rewrite Hbase. destruct (decide (hn = k)); reflexivity.
Qed.

Lemma sound_entry_new infos k addr name :
  samples' k infos = [] ->
  sound_entry' infos k (new_stats k addr name).
Proof.
  intros Hs. unfold sound_entry. cbn. rewrite Hs.
  repeat split; try reflexivity; try (intros d Hd; inversion Hd).
  - apply Qle_refl.
  - left. reflexivity.
Qed.

Lemma sound_entry_hostname infos k name h :
  sound_entry' infos k h -> sound_entry' infos k (set_hostname name h).
Proof. intros H. exact H. Qed.

Lemma sound_entry_sample infos k v more h :
  samples' k more = [v] ->
  sound_entry' infos k h ->
  sound_entry' (infos ++ more) k (add_delay v h).
Proof.
  intros Hmore (Hk & Hd & Hpos & Hmax & Hmin & Hempty).
  unfold sound_entry. cbn [s_hop delays max_delay min_delay add_delay].
  rewrite samples_app, Hmore, <- Hd.
  assert (Hup : (max_delay h <= py_max (max_delay h) v)%Q).
  { unfold py_max. destruct (Qlt_le_dec (max_delay h) v);
      [now apply Qlt_le_weak | apply Qle_refl]. }
  assert (Hv : (v <= py_max (max_delay h) v)%Q).
  { unfold py_max. destruct (Qlt_le_dec (max_delay h) v);
      [apply Qle_refl | assumption]. }
  split; [exact Hk|]. split; [reflexivity|].
  split; [eapply Qle_trans; eassumption|].
  split.
  { intros d Hin. apply elem_of_app in Hin as [Hin|Hin].
    - eapply Qle_trans; [apply Hmax, Hin | exact Hup].
    - apply list_elem_of_singleton in Hin. subst d. exact Hv. }
  split.
  { destruct (min_delay h) as [|m]; cbn [py_min].
    - split; [exact Hv|]. intros d Hin. rewrite Hmin in Hin.
      apply list_elem_of_singleton in Hin. subst d. apply Qle_refl.
    - destruct Hmin as [Hmm Hlow].
      destruct (Qlt_le_dec v m) as [Hlt|Hle].
      + split; [exact Hv|]. intros d Hin.
        apply elem_of_app in Hin as [Hin|Hin].
        * eapply Qle_trans; [apply Qlt_le_weak, Hlt | apply Hlow, Hin].
        * apply list_elem_of_singleton in Hin. subst d. apply Qle_refl.
      + split; [eapply Qle_trans; eassumption|]. intros d Hin.
        apply elem_of_app in Hin as [Hin|Hin].
        * apply Hlow, Hin.
        * apply list_elem_of_singleton in Hin. subst d. exact Hle. }
  intros Hnil. destruct (delays h); discriminate Hnil.
Qed.

Lemma sound_entry_more infos k more h :
  samples' k more = [] ->
  sound_entry' infos k h -> sound_entry' (infos ++ more) k h.
Proof.
  intros Hmore (Hk & Hd & Hpos & Hmax & Hmin & Hempty). unfold sound_entry.
  rewrite samples_app, Hmore, app_nil_r.
  split; [exact Hk|]. split; [exact Hd|]. split; [exact Hpos|].
  split; [exact Hmax|]. split; [exact Hmin | exact Hempty].
Qed.

Lemma sound_data_record infos hop_data info :
  (forall k, hop_data !! k = None -> samples' k infos = []) ->
  sound_data' infos hop_data ->
  sound_data' (infos ++ [info]) (record_hop float_of_str hop_data info) /\
  (forall k, record_hop float_of_str hop_data info !! k = None ->
             samples' k (infos ++ [info]) = []).
Proof.
  intros Hnone Hinv.
  assert (Hone : forall k,
             samples' k [info] =
             if hop_key info =? k
             then match parsed_delay float_of_str info with
                  | Some v => [v] | None => [] end
             else []).
  { intros k. cbn. destruct (hop_key info =? k); [|reflexivity].
    destruct (parsed_delay float_of_str info); reflexivity. }
  split.
  - intros k h. rewrite record_hop_entry.
    destruct (decide (hop_key info = k)) as [Hk|Hk].
    + apply Z.eqb_eq in Hk as Hkb. cbv zeta. intros Hh.
      assert (Hbase : sound_entry' infos k
                        match hop_data !! k with
                        | Some h0 =>
                            if negb (bool_decide (info_hostname info = ""))
                               && bool_decide (s_hostname h0 = "")
                            then set_hostname (info_hostname info) h0 else h0
                        | None => new_stats k (info_ip info) (info_hostname info)
                        end).
      { destruct (hop_data !! k) as [h0|] eqn:E.
        - destruct (_ && _); [apply sound_entry_hostname|]; apply (Hinv _ _ E).
        - apply sound_entry_new, Hnone, E. }
      destruct (parsed_delay float_of_str info) as [v|] eqn:Ev;
        injection Hh as <-.
      * apply sound_entry_sample; [|exact Hbase].
        rewrite Hone, Hkb. reflexivity.
      * apply sound_entry_more; [|exact Hbase].
        rewrite Hone, Hkb. reflexivity.
    + apply Z.eqb_neq in Hk as Hkb. intros Hh.
      apply sound_entry_more; [|apply (Hinv _ _ Hh)].
      rewrite Hone, Hkb. reflexivity.
  - intros k. rewrite record_hop_entry.
    destruct (decide (hop_key info = k)) as [Hk|Hk]; [discriminate|].
    apply Z.eqb_neq in Hk as Hkb. intros Hh.
    rewrite samples_app, Hone, Hkb, app_nil_r. apply Hnone, Hh.
Qed.

Lemma sound_data_fold more infos hop_data :
  (forall k, hop_data !! k = None -> samples' k infos = []) ->
  sound_data' infos hop_data ->
  sound_data' (infos ++ more) (fold_left (record_hop float_of_str) more hop_data) /\
  (forall k, fold_left (record_hop float_of_str) more hop_data !! k = None ->
             samples' k (infos ++ more) = []).
Proof.
  revert infos hop_data.
  induction more as [|i more IH]; intros infos hop_data Hnone Hinv; simpl.
  - rewrite app_nil_r. split; assumption.
  - replace (infos ++ i :: more) with ((infos ++ [i]) ++ more)
      by (now rewrite <- app_assoc).
    destruct (sound_data_record infos hop_data i Hnone Hinv) as [H1 H2].
    apply IH; assumption.
Qed.

Lemma sound_entry_update n infos k h :
  sound_entry' infos k h -> sound_entry' infos k (update_stats stdev n h).
Proof.
  intros (Hk & Hd & Hpos & Hmax & Hmin & Hempty).
  unfold sound_entry. cbn [s_hop delays max_delay min_delay update_stats].
  repeat split; try assumption.
  - destruct (min_delay h) as [|m]; [|exact Hmin].
    split; [exact Hpos|]. intros d Hin. rewrite Hmin in Hin. inversion Hin.
  - apply Hempty. assumption.
  - destruct (Hempty H) as [_ [->| ->]]; right; reflexivity.
Qed.

Lemma sound_data_update n infos hop_data :
  sound_data' infos hop_data ->
  sound_data' infos (update_stats stdev n <$> hop_data) /\
  (forall k, hop_data !! k = None <-> (update_stats stdev n <$> hop_data) !! k = None).
Proof.
  intros Hinv. split.
  - intros k h. rewrite lookup_fmap.
    destruct (hop_data !! k) as [h0|] eqn:E; [|discriminate].
    cbn. intros Hh. injection Hh as <-. apply sound_entry_update, (Hinv _ _ E).
  - intros k. rewrite lookup_fmap. destruct (hop_data !! k); cbn; split; congruence.
Qed.

(** Every hop that a summary lists is a sound entry for the records of the
    cycles that the summary closes, has left the initial infinity behind
    and carries the loss that the statistics pass computes. *)
Lemma mtr_cycles_sound run_cycle target dest_ip ip_version protocol count
    remaining cycle hop_data :
  sound_data' (infos_through run_cycle cycle) hop_data ->
  (forall k, hop_data !! k = None ->
             samples' k (infos_through run_cycle cycle) = []) ->
  cycles_in_step count remaining cycle hop_data ->
  Forall (fun y : mtr_yield =>
            Forall (fun h =>
                      sound_entry'
                        (infos_through run_cycle (Z.to_nat (cycles_complete y.1.1)))
                        (s_hop h) h /\
                      min_delay h <> inf) y.2)
         (mtr_yielded (mtr_cycles float_of_str stdev run_cycle target dest_ip
                         ip_version protocol count remaining cycle hop_data)).
Proof.
  revert cycle hop_data.
  assert (Hlist : forall n infos (hd : gmap Z hop_stats),
             sound_data' infos hd ->
             Forall (fun h => sound_entry' infos (s_hop h) h /\ min_delay h <> inf)
                    (all_hops (update_stats stdev n <$> hd))).
  { intros n infos hd Hinv. apply Forall_forall. intros h Hin.
    apply all_hops_after_update in Hin as (k & h0 & Hk & ->).
    pose proof (Hinv _ _ Hk) as Hs.
    assert (s_hop (update_stats stdev n h0) = k) as -> by apply Hs.
    split; [apply sound_entry_update, Hs|].
    cbn. destruct (min_delay h0); discriminate. }
  induction remaining as [|n IH]; intros cycle hop_data Hinv Hnone Hstep.
  - cbn. constructor; [|constructor]. cbn.
    destruct Hstep as [[Hc _]|[_ He]].
    + replace (Z.to_nat count) with cycle by lia. apply Hlist, Hinv.
    + subst hop_data. rewrite fmap_empty, all_hops_empty. constructor.
  - destruct Hstep as [[Hc _]|[Hr _]]; [|discriminate].
    cbn [mtr_cycles].
    pose proof (sound_data_fold (cycle_infos run_cycle cycle) _ _ Hnone Hinv)
      as [Hinv' Hnone'].
    rewrite <- infos_through_S in Hinv', Hnone'. unfold cycle_infos in Hinv', Hnone'.
    destruct (consumed (yielded (run_cycle cycle))) as [infos broke].
    cbn [fst] in Hinv', Hnone'.
    assert (Hnext : forall hd, cycles_in_step count n (S cycle) hd).
    { intros hd. left. split; [lia | discriminate]. }
    destruct (if broke then None else raised (run_cycle cycle)) as [[msg|msg]|].
    + constructor.
    + apply IH; [exact Hinv' | exact Hnone' | apply Hnext].
    + cbn. constructor.
      * cbn. replace (Z.to_nat (Z.of_nat cycle + 1)) with (S cycle) by lia.
        apply Hlist, Hinv'.
      * destruct (sound_data_update (Z.of_nat cycle + 1) _ _ Hinv') as [Hu Hn].
        apply IH; [exact Hu | | apply Hnext].
        intros k Hk. apply Hnone', Hn, Hk.
Qed.

End Samples.

(** *** One record per hop number in a raw-socket cycle *)

Lemma consumed_lookup (l : list yield_item) i info :
  fst (consumed l) !! i = Some info -> exists p d, l !! i = Some (info, p, d).
Proof.
  revert i. induction l as [|[[x p] d] l IH]; intros i Hi; [discriminate Hi|].
  cbn in Hi. destruct d.
  - destruct i as [|i]; [|destruct i; discriminate Hi].
    injection Hi as <-. eauto.
  - destruct (consumed l) as [infos b]. destruct i as [|i].
    + injection Hi as <-. eauto.
    + apply (IH i Hi).
Qed.

Lemma samples_absent float_of_str k infos :
  (forall a, a ∈ infos -> hop_key a <> k) -> samples float_of_str k infos = [].
Proof.
  induction infos as [|i infos IH]; intros Hno; cbn; [reflexivity|].
  destruct (Z.eqb_spec (hop_key i) k) as [E|_].
  - destruct (Hno i); [left | exact E].
  - apply IH. intros a Ha. apply Hno. now right.
Qed.

Lemma samples_distinct float_of_str k (infos : list hop_info) :
  (forall i j a b, infos !! i = Some a -> infos !! j = Some b ->
                   hop_key a = hop_key b -> i = j) ->
  (length (samples float_of_str k infos) <= 1)%nat.
Proof.
  induction infos as [|x infos IH]; intros Hd; cbn; [lia|].
  assert (Hd' : forall i j a b, infos !! i = Some a -> infos !! j = Some b ->
                                hop_key a = hop_key b -> i = j).
  { intros i j a b Ha Hb Hab.
    pose proof (Hd (S i) (S j) a b Ha Hb Hab). lia. }
  destruct (Z.eqb_spec (hop_key x) k) as [E|_]; [|apply IH, Hd'].
  rewrite samples_absent.
  - destruct (parsed_delay float_of_str x); cbn; lia.
  - intros a Ha Hk. apply list_elem_of_lookup in Ha as [j Hj].
    pose proof (Hd 0%nat (S j) x a eq_refl Hj) as Hij.
    rewrite E, Hk in Hij. specialize (Hij eq_refl). discriminate Hij.
Qed.

Lemma samples_through float_of_str run_cycle k n :
  (forall c i j a b,
     cycle_infos run_cycle c !! i = Some a ->
     cycle_infos run_cycle c !! j = Some b ->
     hop_key a = hop_key b -> i = j) ->
  (length (samples float_of_str k (infos_through run_cycle n)) <= n)%nat.
Proof.
  intros Hd. induction n as [|n IH]; [cbn; lia|].
  rewrite infos_through_S, samples_app, length_app.
  pose proof (samples_distinct float_of_str k (cycle_infos run_cycle n) (Hd n)).
  lia.
Qed.

Lemma loss_in_range n r :
  1 <= n -> 0 <= r <= n ->
  (0 <= true_div (n - r) n * 100 /\ true_div (n - r) n * 100 <= 100)%Q.
Proof.
  intros Hn Hr. unfold true_div.
  destruct n as [|pn|pn]; try lia.
  unfold Qle, Qdiv, Qmult, Qinv, inject_Z. cbn. split; nia.
Qed.

Section RawSocketCycles.

Variable format_float : nat -> Q -> string.
Variable str_of_float : Q -> string.

Lemma relay_lookup (l : list yield_item) i y :
  fst (relay l) !! i = Some y -> l !! i = Some y /\ error y.1.1 = None.
Proof.
  intros Hi. split.
  - destruct (relay_prefix l) as [rest Hrest]. rewrite Hrest.
    now apply lookup_app_l_Some.
  - pose proof (relay_no_error_records l) as Hclean.
    rewrite Forall_lookup in Hclean. apply (Hclean _ _ Hi).
Qed.

Lemma raw_socket_keys_distinct
    w target max_hops timeout resolve_dns protocol max_retries ipv6 i j a b :
  platform_system w = Posix ->
  fst (consumed (yielded (traceroute format_float str_of_float w target max_hops
                            timeout resolve_dns protocol max_retries ipv6))) !! i
  = Some a ->
  fst (consumed (yielded (traceroute format_float str_of_float w target max_hops
                            timeout resolve_dns protocol max_retries ipv6))) !! j
  = Some b ->
  hop_key a = hop_key b -> i = j.
Proof.
  intros Hposix Ha Hb Hab.
  apply consumed_lookup in Ha as (pa & da & Ha).
  apply consumed_lookup in Hb as (pb & db & Hb).
  unfold traceroute in Ha, Hb. rewrite Hposix in Ha, Hb.
  assert (Hone : forall (x : yield_item),
             [x] !! i = Some (a, pa, da) -> [x] !! j = Some (b, pb, db) -> i = j).
  { intros x Hi Hj.
    destruct i as [|i]; [|destruct i; discriminate Hi].
    destruct j as [|j]; [|destruct j; discriminate Hj]. reflexivity. }
  destruct (negb _); [discriminate Ha|].
  destruct (_ || _); [discriminate Ha|].
  destruct (Qle_bool timeout 0); [discriminate Ha|].
  destruct (match getaddrinfo w None target with
            | gai_list res =>
                match select_address ipv6 res None None with
                | (Some target_ip, ip_version) => inr (target_ip, ip_version)
                | (None, _) => inl (ERROR_ADDRESS_RESOLUTION "无法解析目标地址")
                end
            | gai_error e => inl (ERROR_ADDRESS_RESOLUTION e)
            | gai_exception e => inl e
            end) as [msg|[target_ip ip_version]];
    [exact (Hone _ Ha Hb)|].
  destruct (choose_strategy protocol ip_version) as [s|];
    [|exact (Hone _ Ha Hb)].
  pose proof (relay_lookup (socket_traceroute format_float s (network w)
                              target_ip max_hops resolve_dns max_retries))
    as Hrelay.
  destruct (relay _) as [ys r]. cbn [fst yielded] in *.
  destruct (Hrelay _ _ Ha) as [Hla Hea]. destruct (Hrelay _ _ Hb) as [Hlb Heb].
  cbn in Hea, Heb. unfold socket_traceroute in Hla, Hlb.
  destruct (open_socket (network w)); [exact (Hone _ Hla Hlb)|].
  destruct (hop_loop_numbers _ _ _ _ _ _ _ _ _ _ _ _ _ _ Hla Hea) as [Hha _].
  destruct (hop_loop_numbers _ _ _ _ _ _ _ _ _ _ _ _ _ _ Hlb Heb) as [Hhb _].
  unfold hop_key in Hab. rewrite Hha, Hhb in Hab. cbn in Hab. lia.
Qed.

End RawSocketCycles.

Section AggregatorSamples.

Variable format_float : nat -> Q -> string.
Variable str_of_float : Q -> string.
Variable float_of_str : string -> option Q.
Variable stdev : list Q -> Q.

Local Abbreviation mtr'' := (mtr format_float str_of_float float_of_str stdev).

(** The call of the discovery entry point that [mtr] makes in each cycle. *)
Local Abbreviation cycle_run worlds dest_ip max_hops timeout resolve_dns protocol v :=
  (fun c : nat =>
     traceroute format_float str_of_float (worlds c) dest_ip max_hops timeout
       resolve_dns (py_lower protocol) DEFAULT_MAX_RETRIES (bool_decide (v = 6))).

Lemma mtr_yields_sound
    w worlds target count max_hops timeout resolve_dns protocol ipv6 dest_ip v :
  mtr_resolve w target ipv6 = inr (dest_ip, v) ->
  Forall (fun y : mtr_yield =>
            Forall (fun h =>
                      (1 <= cycles_complete y.1.1 <= count /\
                       stats_match (cycles_complete y.1.1) h) /\
                      sound_entry float_of_str
                        (infos_through
                           (cycle_run worlds dest_ip max_hops timeout resolve_dns
                              protocol v)
                           (Z.to_nat (cycles_complete y.1.1)))
                        (s_hop h) h /\
                      min_delay h <> inf) y.2)
         (mtr_yielded (mtr'' w worlds target count max_hops timeout resolve_dns
                         protocol ipv6)).
Proof.
  intros Hres. unfold mtr. rewrite Hres.
  destruct (negb _); [constructor|].
  assert (Hstep : cycles_in_step count (Z.to_nat count) 0 ∅).
  { destruct (Z_le_gt_dec 0 count).
    - left. split; [lia | reflexivity].
    - right. split; [lia | reflexivity]. }
  pose proof (mtr_cycles_stats float_of_str stdev
                (cycle_run worlds dest_ip max_hops timeout resolve_dns protocol v)
                target dest_ip v (py_lower protocol) count _ _ _ Hstep) as H1.
  pose proof (mtr_cycles_sound float_of_str stdev
                (cycle_run worlds dest_ip max_hops timeout resolve_dns protocol v)
                target dest_ip v (py_lower protocol) count (Z.to_nat count) 0 ∅)
    as H2.
  assert (H2' := H2 ltac:(intros k h Hk; rewrite lookup_empty in Hk;
                          discriminate Hk)
                   ltac:(reflexivity) Hstep).
  rewrite Forall_forall in H1, H2'. apply Forall_forall. intros y Hy.
  specialize (H1 y Hy). specialize (H2' y Hy).
  rewrite Forall_forall in H1, H2'. apply Forall_forall. intros h Hh.
  split; [apply H1, Hh | apply H2', Hh].
Qed.

(** X13.  The samples that a summary reports for a hop are exactly the
    delays parsed from the records received for that hop number in the
    cycles the summary closes, in the order of arrival: a record whose
    delay is a timeout sentinel or does not parse adds nothing, and no
    sample is ever dropped or reordered. *)
Theorem mtr_samples_are_parsed_delays
    w worlds target count max_hops timeout resolve_dns protocol ipv6 dest_ip v :
  mtr_resolve w target ipv6 = inr (dest_ip, v) ->
  Forall (fun y : mtr_yield =>
            Forall (fun h =>
                      delays h =
                      samples float_of_str (s_hop h)
                        (infos_through
                           (cycle_run worlds dest_ip max_hops timeout resolve_dns
                              protocol v)
                           (Z.to_nat (cycles_complete y.1.1)))) y.2)
         (mtr_yielded (mtr'' w worlds target count max_hops timeout resolve_dns
                         protocol ipv6)).
Proof.
  intros Hres.
  pose proof (mtr_yields_sound w worlds target count max_hops timeout resolve_dns
                protocol ipv6 dest_ip v Hres) as H.
  eapply Forall_impl; [exact H|]. intros y Hy.
  eapply Forall_impl; [exact Hy|]. intros h (_ & Hs & _). apply Hs.
Qed.

(** X14.  In every summary the extremes of a hop bound its samples: the
    reported minimum is a number (never the initial infinity), it is at
    most every sample, every sample is at most the reported maximum, the
    maximum is never negative, and a hop without samples reports 0 for
    both. *)
Theorem mtr_extremes_bound_samples
    w worlds target count max_hops timeout resolve_dns protocol ipv6 :
  Forall (fun y : mtr_yield =>
            Forall (fun h =>
                      exists m,
                        min_delay h = fin m /\
                        (m <= max_delay h)%Q /\ (0 <= max_delay h)%Q /\
                        (forall d, d ∈ delays h -> (m <= d)%Q /\ (d <= max_delay h)%Q) /\
                        (delays h = [] -> m = 0%Q /\ max_delay h = 0%Q)) y.2)
         (mtr_yielded (mtr'' w worlds target count max_hops timeout resolve_dns
                         protocol ipv6)).
Proof.
  destruct (mtr_resolve w target ipv6) as [e|[dest_ip v]] eqn:Hres.
  { unfold mtr. rewrite Hres. destruct (negb _); constructor. }
  pose proof (mtr_yields_sound w worlds target count max_hops timeout resolve_dns
                protocol ipv6 dest_ip v Hres) as H.
  eapply Forall_impl; [exact H|]. intros y Hy.
  eapply Forall_impl; [exact Hy|].
  intros h (_ & (_ & _ & Hpos & Hmax & Hmin & Hempty) & Hfin).
  destruct (min_delay h) as [|m]; [contradiction|].
  destruct Hmin as [Hmm Hlow].
  exists m. split; [reflexivity|]. split; [exact Hmm|]. split; [exact Hpos|].
  split; [intros d Hd; split; [apply Hlow, Hd | apply Hmax, Hd]|].
  intros Hnil. destruct (Hempty Hnil) as [Hz [Hi|Hi]]; [discriminate Hi|].
  injection Hi as ->. split; [reflexivity | exact Hz].
Qed.

(** X15.  When every cycle runs on the raw-socket platform, a hop holds at
    most one sample per completed cycle, so the reported loss is a
    percentage between 0 and 100. *)
Theorem mtr_loss_is_a_percentage
    w worlds target count max_hops timeout resolve_dns protocol ipv6 :
  (forall c, platform_system (worlds c) = Posix) ->
  Forall (fun y : mtr_yield =>
            Forall (fun h =>
                      len (delays h) <= cycles_complete y.1.1 /\
                      (0 <= loss_percent h)%Q /\ (loss_percent h <= 100)%Q) y.2)
         (mtr_yielded (mtr'' w worlds target count max_hops timeout resolve_dns
                         protocol ipv6)).
Proof.
  intros Hposix.
  destruct (mtr_resolve w target ipv6) as [e|[dest_ip v]] eqn:Hres.
  { unfold mtr. rewrite Hres. destruct (negb _); constructor. }
  pose proof (mtr_yields_sound w worlds target count max_hops timeout resolve_dns
                protocol ipv6 dest_ip v Hres) as H.
  eapply Forall_impl; [exact H|]. intros y Hy.
  eapply Forall_impl; [exact Hy|].
  intros h ((Hcc & Hloss & _) & (_ & Hd & _) & _).
  assert (Hlen : len (delays h) <= cycles_complete y.1.1).
  { rewrite Hd. unfold len.
    pose proof (samples_through float_of_str
                  (cycle_run worlds dest_ip max_hops timeout resolve_dns protocol v)
                  (s_hop h) (Z.to_nat (cycles_complete y.1.1))) as Hs.
    assert (length (samples float_of_str (s_hop h)
                      (infos_through
                         (cycle_run worlds dest_ip max_hops timeout resolve_dns
                            protocol v)
                         (Z.to_nat (cycles_complete y.1.1))))
            <= Z.to_nat (cycles_complete y.1.1))%nat; [|lia].
    apply Hs. intros c i j a b Ha Hb Hab.
    eapply raw_socket_keys_distinct; [apply Hposix | exact Ha | exact Hb | exact Hab]. }
  split; [exact Hlen|].
  assert (Hr : 0 <= len (delays h) <= cycles_complete y.1.1)
    by (unfold len in *; lia).
  destruct (loss_in_range (cycles_complete y.1.1) (len (delays h))) as [H0 H100];
    [lia | exact Hr |].
  assert (Heq : (loss_percent h ==
                 true_div (cycles_complete y.1.1 - len (delays h))
                   (cycles_complete y.1.1) * 100)%Q).
  { rewrite Hloss. unfold true_div, Qdiv. ring. }
  rewrite Heq. split; assumption.
Qed.

End AggregatorSamples.

Lemma mtr_samples_are_parsed_delays_witness :
  Forall (fun y : mtr_yield =>
            Forall (fun h =>
                      delays h =
                      samples decimal_of_string (s_hop h)
                        (infos_through
                           (fun c : nat =>
                              run_traceroute (lossy_second_hop c) "10.0.0.9" 5 1%Q
                                false (py_lower "ICMP") DEFAULT_MAX_RETRIES
                                (bool_decide (4 = 6)))
                           (Z.to_nat (cycles_complete y.1.1)))) y.2)
         (mtr_yielded (run_mtr (posix_world silent_env) lossy_second_hop
                         "10.0.0.9" 3 5 1%Q false "ICMP" false)).
Proof.
  apply (mtr_samples_are_parsed_delays format_fixed (format_fixed 1)
           decimal_of_string approx_stdev (posix_world silent_env)
           lossy_second_hop "10.0.0.9" 3 5 1%Q false "ICMP" false "10.0.0.9" 4).
  reflexivity.
Defined.

Lemma mtr_loss_is_a_percentage_witness :
  Forall (fun y : mtr_yield =>
            Forall (fun h =>
                      len (delays h) <= cycles_complete y.1.1 /\
                      (0 <= loss_percent h)%Q /\ (loss_percent h <= 100)%Q) y.2)
         (mtr_yielded (run_mtr (posix_world silent_env) lossy_second_hop
                         "10.0.0.9" 3 5 1%Q false "icmp" false)).
Proof.
  apply (mtr_loss_is_a_percentage format_fixed (format_fixed 1)
           decimal_of_string approx_stdev (posix_world silent_env)
           lossy_second_hop "10.0.0.9" 3 5 1%Q false "icmp" false).
  intros c. reflexivity.
Defined.

(** ** The aggregator: failed cycles and invalid parameters *)

Section AggregatorFailures.

Variable format_float : nat -> Q -> string.
Variable str_of_float : Q -> string.
Variable float_of_str : string -> option Q.
Variable stdev : list Q -> Q.

Local Abbreviation mtr3 := (mtr format_float str_of_float float_of_str stdev).

Local Abbreviation cycle_run3 worlds dest_ip max_hops timeout resolve_dns protocol v :=
  (fun c : nat =>
     traceroute format_float str_of_float (worlds c) dest_ip max_hops timeout
       resolve_dns (py_lower protocol) DEFAULT_MAX_RETRIES (bool_decide (v = 6))).

Lemma mtr_cycles_all_failed run_cycle target dest_ip ip_version protocol count
    remaining cycle :
  (forall c, (cycle <= c < cycle + remaining)%nat ->
             yielded (run_cycle c) = [] /\
             exists msg, raised (run_cycle c) = Some (TracerouteError msg)) ->
  mtr_cycles float_of_str stdev run_cycle target dest_ip ip_version protocol count
    remaining cycle ∅
  = MtrRun [(final_summary target dest_ip ip_version protocol count ∅, 1%Q, [])]
           None.
Proof.
  revert cycle. induction remaining as [|n IH]; intros cycle Hfail.
  - cbn. rewrite fmap_empty. reflexivity.
  - cbn [mtr_cycles].
    destruct (Hfail cycle) as [Hy [msg Hr]]; [lia|].
    rewrite Hy, Hr. cbn. apply IH. intros c Hc. apply Hfail. lia.
Qed.

(** X16.  [mtr] swallows the failure of a cycle: when every cycle's
    discovery run raises [TracerouteError] before it yields a record (and
    likewise when [count] is not positive, so that no cycle runs), [mtr]
    raises nothing and yields exactly one summary, the final one, with
    progress 1 and no hop. *)
Theorem mtr_swallows_failed_cycles
    w worlds target count max_hops timeout resolve_dns protocol ipv6 dest_ip v :
  py_lower protocol ∈ ["icmp"; "tcp"; "udp"] ->
  mtr_resolve w target ipv6 = inr (dest_ip, v) ->
  (forall c, (c < Z.to_nat count)%nat ->
     yielded (cycle_run3 worlds dest_ip max_hops timeout resolve_dns protocol v c)
     = [] /\
     exists msg,
       raised (cycle_run3 worlds dest_ip max_hops timeout resolve_dns protocol v c)
       = Some (TracerouteError msg)) ->
  mtr3 w worlds target count max_hops timeout resolve_dns protocol ipv6
  = MtrRun [(final_summary target dest_ip v (py_lower protocol) count ∅, 1%Q, [])]
           None.
Proof.
  intros Hproto Hres Hfail. unfold mtr. rewrite Hres.
  rewrite (bool_decide_eq_true_2 _ Hproto). cbn [negb].
  apply mtr_cycles_all_failed. intros c Hc. apply Hfail. lia.
Qed.

(** X17.  [mtr] checks neither [max_hops] nor [timeout] itself: with a
    valid protocol, a target that resolves and at least one cycle to
    run, a [max_hops] outside 1..255 or a [timeout] that is not positive
    makes the first cycle's discovery run raise [ValueError], which
    [mtr] does not catch: it yields nothing and ends with that
    [ValueError], not with a [TracerouteError]. *)
Theorem mtr_passes_on_ValueError
    w worlds target count max_hops timeout resolve_dns protocol ipv6 dest_ip v :
  py_lower protocol ∈ ["icmp"; "tcp"; "udp"] ->
  mtr_resolve w target ipv6 = inr (dest_ip, v) ->
  1 <= count ->
  max_hops < 1 \/ 255 < max_hops \/ (timeout <= 0)%Q ->
  mtr_yielded (mtr3 w worlds target count max_hops timeout resolve_dns protocol
                 ipv6) = [] /\
  exists msg,
    mtr_raised (mtr3 w worlds target count max_hops timeout resolve_dns protocol
                  ipv6) = Some (ValueError msg).
Proof.
  intros Hproto Hres Hcount Hbad. unfold mtr. rewrite Hres.
  rewrite (bool_decide_eq_true_2 _ Hproto). cbn [negb].
  destruct (Z.to_nat count) as [|n] eqn:En; [lia|].
  cbn [mtr_cycles]. unfold traceroute.
  assert (Hin : py_lower protocol ∈ ["udp"; "icmp"; "tcp"]).
  { repeat (apply elem_of_cons in Hproto as [->|Hproto];
            [repeat constructor|]). inversion Hproto. }
  rewrite (bool_decide_eq_true_2 _ Hin). cbn [negb].
  destruct ((max_hops <? 1) || (max_hops >? 255)) eqn:Ehops.
  { cbn. split; [reflexivity | eexists; reflexivity]. }
  destruct (Qle_bool timeout 0) eqn:Et.
  { cbn. split; [reflexivity | eexists; reflexivity]. }
  exfalso. apply orb_false_iff in Ehops as [H1 H2].
  apply Z.ltb_ge in H1. rewrite Z.gtb_ltb in H2. apply Z.ltb_ge in H2.
  destruct Hbad as [Hb|[Hb|Hb]]; [lia | lia |].
  apply Qle_bool_iff in Hb. congruence.
Qed.

End AggregatorFailures.

Lemma mtr_swallows_failed_cycles_witness :
  run_mtr (posix_world silent_env) (fun _ => posix_world unprivileged_env)
    "10.0.0.9" 3 30 1%Q false "icmp" false
  = MtrRun [(final_summary "10.0.0.9" "10.0.0.9" 4 (py_lower "icmp") 3 ∅, 1%Q, [])]
           None.
Proof.
  apply (mtr_swallows_failed_cycles format_fixed (format_fixed 1)
           decimal_of_string approx_stdev (posix_world silent_env)
           (fun _ => posix_world unprivileged_env) "10.0.0.9" 3 30 1%Q false
           "icmp" false "10.0.0.9" 4).
  - vm_compute. left.
  - reflexivity.
  - intros c _. split; [reflexivity | eexists; reflexivity].
Defined.

Lemma mtr_passes_on_ValueError_witness :
  mtr_yielded (run_mtr (posix_world silent_env) (fun _ => posix_world silent_env)
                 "10.0.0.9" 3 0 1%Q false "icmp" false) = [] /\
  exists msg,
    mtr_raised (run_mtr (posix_world silent_env) (fun _ => posix_world silent_env)
                  "10.0.0.9" 3 0 1%Q false "icmp" false) = Some (ValueError msg).
Proof.
  apply (mtr_passes_on_ValueError format_fixed (format_fixed 1)
           decimal_of_string approx_stdev (posix_world silent_env)
           (fun _ => posix_world silent_env) "10.0.0.9" 3 0 1%Q false
           "icmp" false "10.0.0.9" 4).
  - vm_compute. left.
  - reflexivity.
  - lia.
  - left. lia.
Defined.

(** ** The aggregator over a protocol without a strategy *)

Lemma all_hops_singleton k (h : hop_stats) : all_hops {[k := h]} = [h].
Proof.
  unfold all_hops, sorted_keys. rewrite map_to_list_singleton. cbn.
  rewrite lookup_singleton_eq. reflexivity.
Qed.

Lemma full_loss n : n <> 0 -> (true_div (n - 0) n * 100 == 100)%Q.
Proof.
  intros Hn. unfold true_div. rewrite Z.sub_0_r.
  destruct n as [|pn|pn]; [contradiction| |];
    unfold Qeq, Qdiv, Qmult, Qinv, inject_Z; cbn; nia.
Qed.

Section NoStrategy.

Variable format_float : nat -> Q -> string.
Variable str_of_float : Q -> string.
Variable float_of_str : string -> option Q.
Variable stdev : list Q -> Q.

Lemma record_hop_error_empty msg :
  record_hop float_of_str ∅ (error_info msg)
  = {[-1 := new_stats (-1) (PyStr "*") ""]}.
Proof.
  apply map_eq. intros k. rewrite record_hop_entry.
  change (hop_key (error_info msg)) with (-1).
  destruct (decide (-1 = k)) as [<-|Hk].
  - rewrite lookup_empty, lookup_singleton_eq. reflexivity.
  - rewrite lookup_empty, lookup_singleton_ne by exact Hk. reflexivity.
Qed.

Lemma record_hop_error_phantom msg h :
  s_hostname h = "" ->
  record_hop float_of_str {[-1 := h]} (error_info msg) = {[-1 := h]}.
Proof.
  intros Hname. apply map_eq. intros k. rewrite record_hop_entry.
  change (hop_key (error_info msg)) with (-1).
  destruct (decide (-1 = k)) as [<-|Hk]; [|reflexivity].
  rewrite lookup_singleton_eq. reflexivity.
Qed.

Lemma update_stats_phantom n h :
  n <> 0 -> phantom_hop h ->
  phantom_hop (update_stats stdev n h) /\
  (loss_percent (update_stats stdev n h) == 100)%Q.
Proof.
  intros Hn (Hk & Hip & Hname & Hd). split; [repeat split; assumption|].
  cbn. rewrite Hd. apply full_loss, Hn.
Qed.

Lemma mtr_cycles_phantom run_cycle target dest_ip ip_version protocol count
    remaining cycle h :
  1 <= count ->
  (forall c, exists events msg,
     run_cycle c = Run events [(error_info msg, 0%Q, false)] None) ->
  phantom_hop h ->
  mtr_raised (mtr_cycles float_of_str stdev run_cycle target dest_ip ip_version
                protocol count remaining cycle {[-1 := h]}) = None /\
  length (mtr_yielded (mtr_cycles float_of_str stdev run_cycle target dest_ip
                         ip_version protocol count remaining cycle {[-1 := h]}))
  = S remaining /\
  Forall (fun y : mtr_yield =>
            exists h', y.2 = [h'] /\ phantom_hop h' /\ (loss_percent h' == 100)%Q)
         (mtr_yielded (mtr_cycles float_of_str stdev run_cycle target dest_ip
                         ip_version protocol count remaining cycle {[-1 := h]})).
Proof.
  intros Hcount Hrun. revert cycle h.
  induction remaining as [|n IH]; intros cycle h Hh.
  - cbn. rewrite map_fmap_singleton, all_hops_singleton.
    destruct (update_stats_phantom count h) as [Hp Hl]; [lia | exact Hh |].
    split; [reflexivity|]. split; [reflexivity|].
    constructor; [|constructor]. cbn. eauto.
  - cbn [mtr_cycles]. destruct (Hrun cycle) as (events & msg & ->).
    cbn [yielded consumed raised fold_left].
    rewrite record_hop_error_phantom by apply Hh.
    rewrite map_fmap_singleton, all_hops_singleton.
    destruct (update_stats_phantom (Z.of_nat cycle + 1) h) as [Hp Hl];
      [lia | exact Hh |].
    destruct (IH (S cycle) _ Hp) as (Hr & Hlen & Hall).
    cbn [mtr_raised mtr_yielded]. split; [exact Hr|].
    split; [cbn; now rewrite Hlen|].
    constructor; [cbn; eauto | exact Hall].
Qed.

Lemma traceroute_without_strategy
    w target max_hops timeout resolve_dns max_retries ipv6 :
  platform_system w = Posix ->
  1 <= max_hops <= 255 ->
  (0 < timeout)%Q ->
  exists events msg,
    traceroute format_float str_of_float w target max_hops timeout resolve_dns
      "tcp" max_retries ipv6
    = Run events [(error_info msg, 0%Q, false)] None.
Proof.
  intros Hposix Hhops Htime. unfold traceroute. rewrite Hposix.
  rewrite bool_decide_eq_true_2 by (repeat constructor). cbn [negb].
  replace ((max_hops <? 1) || (max_hops >? 255)) with false
    by (symmetry; apply orb_false_iff; split;
        [apply Z.ltb_ge | rewrite Z.gtb_ltb; apply Z.ltb_ge]; lia).
  replace (Qle_bool timeout 0) with false.
  2:{ symmetry. apply not_true_is_false. intros H.
      apply Qle_bool_iff in H. apply (Qlt_not_le _ _ Htime H). }
  destruct (match getaddrinfo w None target with
            | gai_list res =>
                match select_address ipv6 res None None with
                | (Some target_ip, ip_version) => inr (target_ip, ip_version)
                | (None, _) => inl (ERROR_ADDRESS_RESOLUTION "无法解析目标地址")
                end
            | gai_error e => inl (ERROR_ADDRESS_RESOLUTION e)
            | gai_exception e => inl e
            end) as [msg|[target_ip ip_version]]; [eauto|].
  unfold choose_strategy.
  rewrite !bool_decide_eq_false_2 by discriminate. eauto.
Qed.

(** X18.  On the raw-socket platform [mtr] over 'tcp', for which there is
    no discovery strategy, reports no error: every cycle's run ends in an
    error record, which [mtr] files under the default hop number.  With
    valid [max_hops] and [timeout] and at least one cycle it raises
    nothing and yields [count + 1] summaries, each listing the single
    entry of hop number -1 with the address "*", no samples and a loss of
    100 percent. *)
Theorem mtr_tcp_reports_phantom_hop
    w worlds target count max_hops timeout resolve_dns protocol ipv6 dest_ip v :
  py_lower protocol = "tcp" ->
  mtr_resolve w target ipv6 = inr (dest_ip, v) ->
  (forall c, platform_system (worlds c) = Posix) ->
  1 <= max_hops <= 255 ->
  (0 < timeout)%Q ->
  1 <= count ->
  mtr_raised (mtr format_float str_of_float float_of_str stdev w worlds target
                count max_hops timeout resolve_dns protocol ipv6) = None /\
  length (mtr_yielded (mtr format_float str_of_float float_of_str stdev w worlds
                         target count max_hops timeout resolve_dns protocol ipv6))
  = S (Z.to_nat count) /\
  Forall (fun y : mtr_yield =>
            exists h, y.2 = [h] /\ phantom_hop h /\ (loss_percent h == 100)%Q)
         (mtr_yielded (mtr format_float str_of_float float_of_str stdev w worlds
                         target count max_hops timeout resolve_dns protocol ipv6)).
Proof.
  intros Hproto Hres Hposix Hhops Htime Hcount. unfold mtr.
  rewrite Hres, Hproto.
  rewrite bool_decide_eq_true_2 by (repeat constructor). cbn [negb].
  assert (Hrun : forall c, exists events msg,
             traceroute format_float str_of_float (worlds c) dest_ip max_hops
               timeout resolve_dns "tcp" DEFAULT_MAX_RETRIES (bool_decide (v = 6))
             = Run events [(error_info msg, 0%Q, false)] None).
  { intros c. apply traceroute_without_strategy; [apply Hposix | lia | exact Htime]. }
  destruct (Z.to_nat count) as [|n] eqn:En; [lia|].
  cbn [mtr_cycles]. destruct (Hrun 0%nat) as (events & msg & ->).
  cbn [yielded consumed raised fold_left].
  rewrite record_hop_error_empty, map_fmap_singleton, all_hops_singleton.
  assert (Hnew : phantom_hop (new_stats (-1) (PyStr "*") ""))
    by (repeat split).
  destruct (update_stats_phantom (Z.of_nat 0 + 1) _ ltac:(lia) Hnew) as [Hp Hl].
  destruct (mtr_cycles_phantom
              (fun c => traceroute format_float str_of_float (worlds c) dest_ip
                          max_hops timeout resolve_dns "tcp" DEFAULT_MAX_RETRIES
                          (bool_decide (v = 6)))
              target dest_ip v "tcp" count n 1%nat _ Hcount Hrun Hp)
    as (Hr & Hlen & Hall).
  cbn [mtr_raised mtr_yielded]. split; [exact Hr|].
  split; [cbn; now rewrite Hlen|].
  constructor; [cbn; eauto | exact Hall].
Qed.

End NoStrategy.

Lemma mtr_tcp_reports_phantom_hop_witness :
  mtr_raised (run_mtr (posix_world silent_env) (fun _ => four_hops)
                "93.184.216.34" 3 30 1%Q false "TCP" false) = None /\
  length (mtr_yielded (run_mtr (posix_world silent_env) (fun _ => four_hops)
                         "93.184.216.34" 3 30 1%Q false "TCP" false))
  = S (Z.to_nat 3) /\
  Forall (fun y : mtr_yield =>
            exists h, y.2 = [h] /\ phantom_hop h /\ (loss_percent h == 100)%Q)
         (mtr_yielded (run_mtr (posix_world silent_env) (fun _ => four_hops)
                         "93.184.216.34" 3 30 1%Q false "TCP" false)).
Proof.
  apply (mtr_tcp_reports_phantom_hop format_fixed (format_fixed 1)
           decimal_of_string approx_stdev (posix_world silent_env)
           (fun _ => four_hops) "93.184.216.34" 3 30 1%Q false "TCP" false
           "93.184.216.34" 4).
  - reflexivity.
  - reflexivity.
  - intros c. reflexivity.
  - lia.
  - reflexivity.
  - lia.
Defined.

(** ** The worker thread of the aggregator *)

Lemma thread_loop_masks running i items raised :
  Forall (fun sig =>
            match sig with
            | update_signal (hops_update l) =>
                Forall (fun sh =>
                          s_hop (entry sh) <= 3 ->
                          s_ip (entry sh) = PyStr "***.***.***.***" /\
                          s_hostname (entry sh) = "***" /\
                          location sh = Some "***") l
            | _ => True
            end)
         (thread_loop true running i items raised).
Proof.
  revert i. induction items as [|[[summary p] hops] items IH]; intros i.
  - cbn. destruct raised; repeat constructor.
  - cbn. destruct (running i); cbn; [|repeat constructor].
    constructor; [|apply IH].
    clear. induction hops as [|h hops IHhops]; cbn; constructor; [|exact IHhops].
    unfold mask_hop. destruct (Z.leb_spec (s_hop h) 3); cbn; [auto | lia].
Qed.

Lemma thread_loop_verdict mask running i items raised :
  exists updates ok,
    thread_loop mask running i items raised
    = map update_signal updates ++ [finished_signal ok] /\
    (ok = true <->
     raised = None /\
     forall j, (j < length items)%nat -> running (i + j)%nat = true).
Proof.
  revert i. induction items as [|[[summary p] hops] items IH]; intros i.
  - cbn. destruct raised as [e|].
    + exists [error_update (str_of_exn e)], false. split; [reflexivity|].
      split; [discriminate | intros [H _]; discriminate H].
    + exists [], true. split; [reflexivity|].
      split; [|reflexivity]. intros _. split; [reflexivity|]. intros j Hj. lia.
  - cbn [thread_loop]. destruct (running i) eqn:Ei; cbn [negb].
    + destruct (IH (S i)) as (updates & ok & Heq & Hok).
      exists (hops_update (map (if mask then mask_hop else plain_hop) hops)
                :: updates), ok.
      split; [cbn; now rewrite Heq|].
      rewrite Hok. split; intros [Hr Hrun]; (split; [exact Hr|]).
      * intros j Hj. destruct j as [|j].
        -- now rewrite Nat.add_0_r.
        -- replace (i + S j)%nat with (S i + j)%nat by lia. apply Hrun.
           cbn in Hj. lia.
      * intros j Hj. replace (S i + j)%nat with (i + S j)%nat by lia.
        apply Hrun. cbn. lia.
    + exists [], false. split; [reflexivity|].
      split; [discriminate|]. intros [_ Hrun].
      specialize (Hrun 0%nat ltac:(cbn; lia)).
      rewrite Nat.add_0_r in Hrun. congruence.
Qed.

Section WorkerThread.

Variable format_float : nat -> Q -> string.
Variable str_of_float : Q -> string.
Variable float_of_str : string -> option Q.
Variable stdev : list Q -> Q.

(** X19.  With [mask_first_hops] set, no update that the worker thread
    emits shows the address, the hostname or a location of a hop numbered
    3 or less: each such entry carries the masks, in every summary of
    every cycle. *)
Theorem masked_updates_hide_first_hops
    w worlds target max_hops resolve_dns ping_count ipv6 running :
  Forall (fun sig =>
            match sig with
            | update_signal (hops_update l) =>
                Forall (fun sh =>
                          s_hop (entry sh) <= 3 ->
                          s_ip (entry sh) = PyStr "***.***.***.***" /\
                          s_hostname (entry sh) = "***" /\
                          location sh = Some "***") l
            | _ => True
            end)
         (MTRThread_run format_float str_of_float float_of_str stdev w worlds
            target max_hops resolve_dns true ping_count ipv6 running).
Proof. apply thread_loop_masks. Qed.

(** X20.  Whatever happens, the worker thread emits exactly one
    [finished_signal], as its last signal, after updates only; it carries
    [True] exactly when [mtr] ended without an exception and the thread
    was never found stopped on receiving a summary. *)
Theorem worker_thread_ends_with_one_verdict
    w worlds target max_hops resolve_dns mask_first_hops ping_count ipv6 running :
  exists updates ok,
    MTRThread_run format_float str_of_float float_of_str stdev w worlds target
      max_hops resolve_dns mask_first_hops ping_count ipv6 running
    = map update_signal updates ++ [finished_signal ok] /\
    (ok = true <->
     mtr_raised (mtr format_float str_of_float float_of_str stdev w worlds
                   target ping_count max_hops DEFAULT_TIMEOUT resolve_dns "icmp"
                   ipv6) = None /\
     forall j,
       (j < length (mtr_yielded (mtr format_float str_of_float float_of_str
                                   stdev w worlds target ping_count max_hops
                                   DEFAULT_TIMEOUT resolve_dns "icmp" ipv6)))%nat ->
       running j = true).
Proof.
  unfold MTRThread_run.
  destruct (thread_loop_verdict mask_first_hops running 0
              (mtr_yielded (mtr format_float str_of_float float_of_str stdev w
                              worlds target ping_count max_hops DEFAULT_TIMEOUT
                              resolve_dns "icmp" ipv6))
              (mtr_raised (mtr format_float str_of_float float_of_str stdev w
                             worlds target ping_count max_hops DEFAULT_TIMEOUT
                             resolve_dns "icmp" ipv6)))
    as (updates & ok & Heq & Hok).
  exists updates, ok. split; [exact Heq | exact Hok].
Qed.

End WorkerThread.

(** ** Loop detection misses no repeated address *)

Section RepeatedAddresses.

Variable format_float : nat -> Q -> string.
Variable str_of_float : Q -> string.

Lemma hop_loop_flags_repeats s env target_ip max_hops max_retries resolve_dns
    remaining ttl visited_ips j info p d v :
  fst (hop_loop format_float s env target_ip max_hops max_retries resolve_dns
         remaining ttl visited_ips) !! j = Some (info, p, d) ->
  ip info = Some v ->
  v <> PyStr "*" ->
  seen_in visited_ips v \/
  (exists i y, (i < j)%nat /\
     fst (hop_loop format_float s env target_ip max_hops max_retries resolve_dns
            remaining ttl visited_ips) !! i = Some y /\
     ip y.1.1 = Some v) ->
  is_Some (warning info).
Proof.
  revert ttl visited_ips j.
  induction remaining as [|n IH]; intros ttl visited_ips j Hj Hip Hstar Hseen.
  - discriminate Hj.
  - cbn [hop_loop] in Hj, Hseen.
    assert (Hfail : forall msg,
               [(error_info msg, 0%Q, false)] !! j = Some (info, p, d) ->
               is_Some (warning info)).
    { intros msg Hy. destruct j as [|j]; [|destruct j; discriminate Hy].
      injection Hy as <- _ _. discriminate Hip. }
    destruct (match s with ICMPv6 => set_hop_limit env ttl | _ => None end);
      [now apply (Hfail (strategy_error_text s s0))|].
    destruct (retry_loop _ _ _) as [e|[[hop_ip best_delay]|]].
    + now apply (Hfail (strategy_error_text s e)).
    + destruct (bool_decide (hop_ip ∈ visited_ips)) eqn:Evisited.
      { destruct j as [|j]; [|destruct j; discriminate Hj].
        injection Hj as <- _ _. eexists; reflexivity. }
      apply bool_decide_eq_false in Evisited.
      assert (Hhead : forall x : yield_item,
                 x.1.1 = reply_info format_float env resolve_dns ttl hop_ip
                           best_delay ->
                 forall rest, (x :: rest) !! 0%nat = Some (info, p, d) ->
                 seen_in visited_ips v \/
                 (exists i y, (i < 0)%nat /\ (x :: rest) !! i = Some y /\
                              ip y.1.1 = Some v) ->
                 is_Some (warning info)).
      { intros x Hx rest Hy [(a & -> & Ha)|(i & y & Hi & _)]; [|lia].
        injection Hy as ->. cbn in Hx. subst info. cbn in Hip.
        injection Hip as <-. contradiction. }
      destruct (bool_decide (hop_ip = target_ip)) eqn:Edest.
      { destruct j as [|j]; [|destruct j; discriminate Hj].
        eapply Hhead; [|exact Hj|exact Hseen]. reflexivity. }
      destruct (hop_loop _ _ _ _ _ _ _ _ _ _) as [ys final] eqn:E.
      cbn [fst] in Hj, Hseen. destruct j as [|j].
      { eapply Hhead; [|exact Hj|exact Hseen]. reflexivity. }
      cbn in Hj. eapply (IH (ttl + 1) ({[hop_ip]} ∪ visited_ips) j);
        [rewrite E; exact Hj | exact Hip | exact Hstar |].
      destruct Hseen as [(a & -> & Ha)|(i & y & Hi & Hy & Hv)].
      * left. exists a. split; [reflexivity|]. apply elem_of_union. now right.
      * destruct i as [|i].
        -- injection Hy as <-. cbn in Hv. injection Hv as <-.
           left. exists hop_ip. split; [reflexivity|].
           apply elem_of_union. left. now apply elem_of_singleton.
        -- right. exists i, y. rewrite E. repeat split; [lia | exact Hy | exact Hv].
    + destruct (hop_loop _ _ _ _ _ _ _ _ _ _) as [ys final] eqn:E.
      cbn [fst] in Hj, Hseen. destruct j as [|j].
      { injection Hj as <- _ _. cbn in Hip. injection Hip as <-. contradiction. }
      cbn in Hj. eapply (IH (ttl + 1) visited_ips j);
        [rewrite E; exact Hj | exact Hip | exact Hstar |].
      destruct Hseen as [Hs|(i & y & Hi & Hy & Hv)]; [now left|].
      destruct i as [|i].
      * injection Hy as <-. cbn in Hv. injection Hv as <-. contradiction.
      * right. exists i, y. rewrite E. repeat split; [lia | exact Hy | exact Hv].
Qed.

Lemma tracert_loop_flags_repeats target_ip max_hops stdout current visited_ips
    j info p d v :
  fst (tracert_loop format_float target_ip max_hops stdout current visited_ips)
    !! j = Some (info, p, d) ->
  ip info = Some v ->
  v <> PyStr "*" ->
  v ∈ visited_ips \/
  (exists i y, (i < j)%nat /\
     fst (tracert_loop format_float target_ip max_hops stdout current
            visited_ips) !! i = Some y /\
     ip y.1.1 = Some v) ->
  is_Some (warning info).
Proof.
  revert current visited_ips j.
  induction stdout as [|l rest IH]; intros current visited_ips j Hj Hip Hstar Hseen.
  - discriminate Hj.
  - destruct l as [| |hop_num_int hip hname rtts line];
      cbn [tracert_loop] in Hj, Hseen.
    + eapply IH; eassumption.
    + eapply IH; eassumption.
    + destruct (max_hops =? 0).
      { destruct j as [|j]; [|destruct j; discriminate Hj].
        injection Hj as <- _ _. discriminate Hip. }
      set (looped := bool_decide (hip ≠ PyStr "*") && bool_decide (hip ∈ visited_ips))
        in *.
      assert (Hhead : forall (x : yield_item) rest',
                 x.1.1 = (if looped
                          then with_warning "Routing loop detected"
                                 (tracert_info format_float hop_num_int hip hname
                                    rtts line)
                          else tracert_info format_float hop_num_int hip hname
                                 rtts line) ->
                 (x :: rest') !! 0%nat = Some (info, p, d) ->
                 v ∈ visited_ips \/
                 (exists i y, (i < 0)%nat /\ (x :: rest') !! i = Some y /\
                              ip y.1.1 = Some v) ->
                 is_Some (warning info)).
      { intros x rest' Hx Hy [Hv|(i & y & Hi & _)]; [|lia].
        injection Hy as ->. cbn in Hx. subst info.
        assert (hip = v) as ->
          by (destruct looped; cbn in Hip; congruence).
        assert (looped = true) as ->.
        { subst looped. apply andb_true_iff.
          split; apply bool_decide_eq_true; assumption. }
        eexists; reflexivity. }
      destruct (bool_decide (hip = PyStr target_ip)) eqn:Edest.
      { destruct j as [|j]; [|destruct j; discriminate Hj].
        eapply Hhead; [|exact Hj|exact Hseen]. reflexivity. }
      destruct (tracert_loop _ _ _ _ _ _) as [ys final] eqn:E.
      cbn [fst] in Hj, Hseen. destruct j as [|j].
      { eapply Hhead; [|exact Hj|exact Hseen]. reflexivity. }
      cbn in Hj.
      eapply (IH (current + 1) _ j);
        [rewrite E; exact Hj | exact Hip | exact Hstar |].
      assert (Hgrow : forall a, a ∈ visited_ips ->
                a ∈ (if looped then visited_ips
                     else if bool_decide (hip ≠ PyStr "*")
                          then {[hip]} ∪ visited_ips else visited_ips)).
      { intros a Ha. destruct looped; [exact Ha|].
        destruct (bool_decide (hip ≠ PyStr "*")); [|exact Ha].
        apply elem_of_union. now right. }
      destruct Hseen as [Hv|(i & y & Hi & Hy & Hv)]; [left; apply Hgrow, Hv|].
      destruct i as [|i].
      * injection Hy as <-. cbn in Hv.
        assert (hip = v) as -> by (destruct looped; cbn in Hv; congruence).
        left. destruct looped eqn:El.
        -- subst looped. apply andb_true_iff in El as [_ El].
           now apply bool_decide_eq_true in El.
        -- rewrite bool_decide_eq_true_2 by exact Hstar.
           apply elem_of_union. left. now apply elem_of_singleton.
      * right. exists i, y. rewrite E. repeat split; [lia | exact Hy | exact Hv].
Qed.

(** X21.  Loop detection misses no repeated address: whenever two records
    of one run carry the same address, other than the no-reply sentinel
    "*", the later one carries a loop warning.  On the external-tool path
    this includes the records of hop lines in which no address was
    recognised, whose address is [None]. *)
Theorem loop_detection_is_complete
    w target max_hops timeout resolve_dns protocol max_retries ipv6
    i j a pa da b pb db v :
  (i < j)%nat ->
  yielded (traceroute format_float str_of_float w target max_hops timeout
             resolve_dns protocol max_retries ipv6) !! i = Some (a, pa, da) ->
  yielded (traceroute format_float str_of_float w target max_hops timeout
             resolve_dns protocol max_retries ipv6) !! j = Some (b, pb, db) ->
  ip a = Some v ->
  ip b = Some v ->
  v <> PyStr "*" ->
  is_Some (warning b).
Proof.
  intros Hij Ha Hb Hipa Hipb Hstar. unfold traceroute in Ha, Hb.
  assert (Hone : forall (x : yield_item),
             [x] !! i = Some (a, pa, da) -> [x] !! j = Some (b, pb, db) ->
             is_Some (warning b)).
  { intros x Hi Hj. destruct j as [|j]; [lia|]. destruct j; discriminate Hj. }
  destruct (negb _); [discriminate Ha|].
  destruct (_ || _); [discriminate Ha|].
  destruct (Qle_bool timeout 0); [discriminate Ha|].
  destruct (match getaddrinfo w None target with
            | gai_list res =>
                match select_address ipv6 res None None with
                | (Some target_ip, ip_version) => inr (target_ip, ip_version)
                | (None, _) => inl (ERROR_ADDRESS_RESOLUTION "无法解析目标地址")
                end
            | gai_error e => inl (ERROR_ADDRESS_RESOLUTION e)
            | gai_exception e => inl e
            end) as [msg|[target_ip ip_version]];
    [exact (Hone _ Ha Hb)|].
  destruct (platform_system w).
  - cbn [yielded] in Ha, Hb. unfold _windows_tracert in Ha, Hb.
    destruct (tracert w) as [e|stdout stderr code]; [exact (Hone _ Ha Hb)|].
    pose proof (tracert_loop_flags_repeats target_ip max_hops stdout 0 ∅ j b pb db v)
      as Hloop.
    destruct (tracert_loop _ _ _ _ _ _) as [ys final]. cbn [fst] in *.
    assert (Hin : forall k (x : yield_item) tail,
               (ys ++ tail) !! k = Some x -> is_Some (ip x.1.1) ->
               tail = [(error_info (("Windows tracert error (code " +:+ pretty code
                                     +:+ "): " +:+ py_strip stderr)), 0%Q, false)] ->
               ys !! k = Some x).
    { intros k x tail Hk Hx ->. apply lookup_app_Some in Hk as [Hk|[_ Hk]];
        [exact Hk|].
      destruct (k - length ys)%nat as [|k']; [|destruct k'; discriminate Hk].
      injection Hk as <-. destruct Hx as [? Hx]. discriminate Hx. }
    assert (Hys : ys !! i = Some (a, pa, da) /\ ys !! j = Some (b, pb, db)).
    { destruct (current_hop final); [|split; assumption].
      destruct (_ && _); [|split; assumption].
      split; eapply Hin; try eassumption; try reflexivity; cbn; eauto. }
    destruct Hys as [Hya Hyb].
    apply Hloop; [exact Hyb | exact Hipb | exact Hstar |].
    right. exists i, (a, pa, da). repeat split; assumption.
  - destruct (choose_strategy protocol ip_version) as [s|];
      [|exact (Hone _ Ha Hb)].
    pose proof (relay_lookup (socket_traceroute format_float s (network w)
                                target_ip max_hops resolve_dns max_retries))
      as Hrelay.
    destruct (relay _) as [ys r]. cbn [fst yielded] in *.
    destruct (Hrelay _ _ Ha) as [Hla _]. destruct (Hrelay _ _ Hb) as [Hlb _].
    unfold socket_traceroute in Hla, Hlb.
    destruct (open_socket (network w)); [exact (Hone _ Hla Hlb)|].
    eapply hop_loop_flags_repeats; [exact Hlb | exact Hipb | exact Hstar |].
    right. exists i, (a, pa, da). repeat split; assumption.
Qed.

End RepeatedAddresses.

Lemma loop_detection_is_complete_witness :
  is_Some (warning (with_warning "Routing loop detected"
                      (tracert_info format_fixed 2 (PyStr "10.0.0.1") PyNone
                         [2%Q; 2%Q] "2  2 ms  2 ms  2 ms  10.0.0.1"))).
Proof.
  apply (loop_detection_is_complete format_fixed (format_fixed 1) looping_tracert
           "10.0.0.9" 30 1%Q false "icmp" 3 false 0%nat 1%nat
           (tracert_info format_fixed 1 (PyStr "10.0.0.1") PyNone [1%Q; 1%Q]
              "1  1 ms  1 ms  1 ms  10.0.0.1")
           (Qmin 1 (true_div 1 30)) false _ (Qmin 1 (true_div 2 30)) false
           (PyStr "10.0.0.1")).
  - lia.
  - reflexivity.
  - reflexivity.
  - reflexivity.
  - reflexivity.
  - discriminate.
Defined.

(** ** The progress value never goes back *)



Section ProgressOrder.

Variable format_float : nat -> Q -> string.
Variable str_of_float : Q -> string.






End ProgressOrder.


(** ** The aggregator: a target that does not resolve *)

Section Unresolvable.

Variable format_float : nat -> Q -> string.
Variable str_of_float : Q -> string.
Variable float_of_str : string -> option Q.
Variable stdev : list Q -> Q.

(** X23.  For a target that the resolver rejects in both families, [mtr]
    yields nothing and raises [TracerouteError] before any cycle runs.
    With [ipv6] set the message wraps the resolver's IPv6 error once;
    without it the IPv4 error is discarded and the IPv6 error is wrapped
    twice, since the error raised for the failed fallback is caught and
    wrapped again by the enclosing handler. *)
Theorem mtr_wraps_resolution_failure
    w worlds target count max_hops timeout resolve_dns protocol ipv6 e4 e6 :
  py_lower protocol ∈ ["icmp"; "tcp"; "udp"] ->
  getaddrinfo w (Some AF_INET) target = gai_error e4 ->
  getaddrinfo w (Some AF_INET6) target = gai_error e6 ->
  mtr format_float str_of_float float_of_str stdev w worlds target count max_hops
    timeout resolve_dns protocol ipv6
  = MtrRun [] (Some (TracerouteError
                       (if ipv6 then resolve_failure target e6
                        else resolve_failure target (resolve_failure target e6)))).
Proof.
  intros Hproto H4 H6. unfold mtr.
  rewrite (bool_decide_eq_true_2 _ Hproto). cbn [negb].
  unfold mtr_resolve, first_address. destruct ipv6.
  - rewrite H6. reflexivity.
  - rewrite H4, H6. reflexivity.
Qed.

End Unresolvable.

Lemma mtr_wraps_resolution_failure_witness :
  run_mtr {| platform_system := Posix;
             getaddrinfo := fun _ _ => gai_error "[Errno -2] Name or service not known";
             tracert := popen_raises FileNotFoundError;
             network := silent_env |}
    (fun _ => posix_world silent_env) "no.such.host" 3 30 1%Q false "icmp" false
  = MtrRun [] (Some (TracerouteError
                       (if false
                        then resolve_failure "no.such.host"
                               "[Errno -2] Name or service not known"
                        else resolve_failure "no.such.host"
                               (resolve_failure "no.such.host"
                                  "[Errno -2] Name or service not known")))).
Proof.
  apply (mtr_wraps_resolution_failure format_fixed (format_fixed 1)
           decimal_of_string approx_stdev _ (fun _ => posix_world silent_env)
           "no.such.host" 3 30 1%Q false "icmp" false
           "[Errno -2] Name or service not known"
           "[Errno -2] Name or service not known").
  - vm_compute. left.
  - reflexivity.
  - reflexivity.
Defined.
